(** * Poker engine: room lifecycle controller and deck subsystem

    A shallow embedding of the Go sources of the poker engine
    (packages [models], [storage], [services], [handlers]) together with
    the properties the specification states about them.

    Layout of the development:
    - external libraries (math/rand, time, encoding/json, strconv) as a
      type class of plain signatures, [GoRuntime];
    - the key/value store behind the go-redis client as an explicit
      state, [World], threaded through a small state monad [M];
    - the repository's functions, one definition per source function,
      named [Type_Method] after the Go receiver and method;
    - the theorems, one block per property;
    - worked instances: a runtime and small worlds on which the theorems
      are applied. *)

From Stdlib Require Import ZArith List Permutation Ascii String.
From stdpp Require Import base gmap strings list pretty.

Local Open Scope string_scope.
Local Open Scope list_scope.

(** ** Errors and results

    Go functions return [(value, error)] pairs.  A call that returns a
    non-nil error is [Err e]; its value component is never read by the
    callers embedded here, except in [DeckManager_DrawCard], whose
    empty-deck case is a success with the empty string. *)

Inductive error : Type :=
| RedisNil                          (* redis.Nil, printed "redis: nil" *)
| StoreUnavailable                  (* the round trip to the store failed *)
| Panic (msg : string)              (* a run-time panic *)
| Errorf (msg : string)             (* fmt.Errorf(msg) *)
| Errorw (msg : string) (cause : error).  (* fmt.Errorf(msg + ": %w", cause) *)

Inductive res (A : Type) : Type :=
| Ok (a : A)
| Err (e : error).
Arguments Ok {A} a.
Arguments Err {A} e.

(** The text [err.Error()] prints for the two store errors; wrapped and
    formatted errors print their message.  A panic is no error value in
    Go: it unwinds the callers, which the embedding writes as an error
    every caller passes on. *)
Fixpoint error_text (e : error) : string :=
  match e with
  | RedisNil => "redis: nil"
  | StoreUnavailable => "store unavailable"
  | Panic msg => "panic: " +:+ msg
  | Errorf msg => msg
  | Errorw msg cause => msg +:+ ": " +:+ error_text cause
  end.

(** ** Action log records (services.ActionData) *)

Inductive jvalue : Type :=
| JString (s : string)
| JInt (n : Z).

Record ActionData : Type := mkActionData {
  Action : string;
  Timestamp : Z;
  Source : string;
  Data : list (string * jvalue)
}.

(** ** Console log lines (utils.Logger)

    A line keeps the logger's prefix, its level and the message with the
    values passed for its arguments; the wall-clock stamp and the emoji
    the formatter adds are left out, and cards are listed by their
    codes.  Messages are rendered in English. *)

Record LogLine : Type := mkLogLine {
  lg_prefix : string;
  lg_level : string;
  lg_text : string;
  lg_args : list string
}.

(** ** External libraries

    Signatures of what the engine calls in Go's standard library.  A
    [Time] is a wall-clock instant in Unix seconds. *)

Class GoRuntime : Type := {
  (* math/rand: (r *Rand) Intn(n) *)
  RngState : Type;
  rand_Intn : RngState -> Z -> Z * RngState;
  (* time: t.Format(layout) in the local zone and in UTC, time.Parse *)
  time_Format : string -> Z -> string;
  time_FormatUTC : string -> Z -> string;
  time_Parse : string -> string -> option Z;
  (* encoding/json *)
  json_Marshal_strings : list string -> string;
  json_Unmarshal_strings : string -> list string;
  json_Marshal_action : ActionData -> string
}.

(** [rand.Intn(n)] returns a value in [[0, n)] for every positive [n]. *)
Definition Intn_in_range `{GoRuntime} : Prop :=
  forall (s : RngState) (n : Z), (0 < n)%Z -> (0 <= fst (rand_Intn s n) < n)%Z.

Definition RFC3339 : string := "2006-01-02T15:04:05Z07:00".

(** ** The store

    Modelled from the spec: the key/value store and the go-redis client
    in front of it are an external collaborator, "assumed to offer atomic
    single-command operations, grouped pipelines, and
    set/sorted-set/hash/list primitives".  Every key holds the type the
    key schema of [storage.Keys] documents for it, so the four kinds of
    values live in four maps.  A command or a pipelined batch is one
    round trip; [faults] schedules which of the coming round trips fail
    ([true]: the connection breaks and the call returns
    [StoreUnavailable]).  A single command that fails is not applied.  A
    batch is sent command after command on the connection and the store
    applies each one as it arrives, so a batch that fails has been
    applied up to some command: [cut] gives, for the round trip that has
    [k] entries of the schedule left, how many commands of a batch the
    store applied before the connection broke.  [wall] and [reads] are
    the wall clock: the k-th reading of the clock returns [wall k]. *)

Record World `{GoRuntime} : Type := mkWorld {
  hashes : gmap string (gmap string string);
  sets : gmap string (gset string);
  zsets : gmap string (list string);
  lists : gmap string (list string);
  faults : list bool;
  wall : nat -> Z;
  reads : nat;
  rng : RngState;
  console : list LogLine;
  cut : nat -> nat
}.

Section Engine.
Context `{RT : GoRuntime}.

Definition M (A : Type) : Type := World -> A * World.

Definition ret {A : Type} (a : A) : M A := fun w => (a, w).

Definition bind {A B : Type} (m : M A) (k : A -> M B) : M B :=
  fun w => match m w with (a, w') => k a w' end.

Notation "'let*' x := m 'in' k" := (bind m (fun x => k))
  (at level 10, x name, m at level 100, k at level 200).
Notation "'run' m 'in' k" := (bind m (fun _ => k))
  (at level 10, m at level 100, k at level 200).

Definition set_hashes (h : gmap string (gmap string string)) (w : World) : World :=
  mkWorld _ h (sets w) (zsets w) (lists w) (faults w) (wall w) (reads w) (rng w) (console w) (cut w).
Definition set_lists (l : gmap string (list string)) (w : World) : World :=
  mkWorld _ (hashes w) (sets w) (zsets w) l (faults w) (wall w) (reads w) (rng w) (console w) (cut w).
Definition set_faults (f : list bool) (w : World) : World :=
  mkWorld _ (hashes w) (sets w) (zsets w) (lists w) f (wall w) (reads w) (rng w) (console w) (cut w).
Definition set_reads (n : nat) (w : World) : World :=
  mkWorld _ (hashes w) (sets w) (zsets w) (lists w) (faults w) (wall w) n (rng w) (console w) (cut w).
Definition set_rng (r : RngState) (w : World) : World :=
  mkWorld _ (hashes w) (sets w) (zsets w) (lists w) (faults w) (wall w) (reads w) r (console w) (cut w).
Definition set_console (c : list LogLine) (w : World) : World :=
  mkWorld _ (hashes w) (sets w) (zsets w) (lists w) (faults w) (wall w) (reads w) (rng w) c (cut w).

(** The stored contents: what other processes can read back. *)
Definition same_data (w w' : World) : Prop :=
  hashes w' = hashes w /\ sets w' = sets w /\ zsets w' = zsets w /\ lists w' = lists w.

(** utils.Logger: one line appended to the console. *)
Definition log_line (l : LogLine) (w : World) : World :=
  set_console (console w ++ [l]) w.

Definition logf (prefix level text : string) (args : list string) : M unit :=
  fun w => (tt, log_line (mkLogLine prefix level text args) w).

(** time.Now(): the next reading of the wall clock. *)
Definition tick (w : World) : World := set_reads (S (reads w)) w.

Definition time_Now : M Z :=
  fun w => (wall w (reads w), tick w).

(** One round trip to the store: [true] when it went through. *)
Definition roundtrip : M bool :=
  fun w => match faults w with
           | [] => (true, w)
           | f :: fs => (negb f, set_faults fs w)
           end.

(** Whether the next round trip goes through, and the world after it. *)
Definition up (w : World) : bool := fst (roundtrip w).
Definition pass (w : World) : World := snd (roundtrip w).

(** How many commands of a batch sent now the store applies when the
    round trip fails. *)
Definition reached (w : World) : nat := cut w (length (faults w)).

(** A single command: the effect [f] is applied iff the round trip went
    through. *)
Definition command {A : Type} (f : World -> res A * World) : M (res A) :=
  fun w => if up w then f (pass w) else (Err StoreUnavailable, pass w).

(** *** The go-redis client: single commands

    Each definition is the effect of one command on the store, wrapped
    in [command].  A key that holds no hash, set or list reads as the
    empty one, as in Redis. *)

Definition hash_at (w : World) (key : string) : gmap string string :=
  default ∅ (hashes w !! key).
Definition set_at (w : World) (key : string) : gset string :=
  default ∅ (sets w !! key).
Definition zset_at (w : World) (key : string) : list string :=
  default [] (zsets w !! key).
Definition list_at (w : World) (key : string) : list string :=
  default [] (lists w !! key).

(** Values handed to the client as [interface{}] and the text the client
    writes for them: integers in decimal, booleans as 1 and 0. *)
Inductive arg : Type :=
| AStr (s : string)
| AInt (n : Z)
| ABool (b : bool).

Definition encode_arg (a : arg) : string :=
  match a with
  | AStr s => s
  | AInt n => pretty n
  | ABool true => "1"
  | ABool false => "0"
  end.

Definition hset (key field : string) (value : arg) (w : World) : World :=
  set_hashes (<[key := <[field := encode_arg value]> (hash_at w key)]> (hashes w)) w.

Definition key_exists (w : World) (key : string) : bool :=
  bool_decide (hash_at w key ≠ ∅) || bool_decide (set_at w key ≠ ∅)
  || bool_decide (zset_at w key ≠ []) || bool_decide (list_at w key ≠ []).

Definition del_key (key : string) (w : World) : World :=
  mkWorld _ (delete key (hashes w)) (delete key (sets w)) (delete key (zsets w))
    (delete key (lists w)) (faults w) (wall w) (reads w) (rng w) (console w) (cut w).

(** The last element of a list and the list without it. *)
Definition pop_back {A : Type} (l : list A) : option (A * list A) :=
  match rev l with
  | [] => None
  | x :: r => Some (x, rev r)
  end.

Definition client_Del (keys : list string) : M (res unit) :=
  command (fun w => (Ok tt, fold_left (fun w k => del_key k w) keys w)).

Definition client_Exists (key : string) : M (res Z) :=
  command (fun w => (Ok (if key_exists w key then 1%Z else 0%Z), w)).

Definition client_HGetAll (key : string) : M (res (gmap string string)) :=
  command (fun w => (Ok (hash_at w key), w)).

Definition client_HSet (key field : string) (value : arg) : M (res unit) :=
  command (fun w => (Ok tt, hset key field value w)).

(** HMSET key f1 v1 f2 v2 ...: the fields of one Go map, written by one
    command. *)
Definition client_HMSet (key : string) (values : list (string * arg)) : M (res unit) :=
  command (fun w => (Ok tt, fold_left (fun w fv => hset key (fst fv) (snd fv) w) values w)).

Definition client_SMembers (key : string) : M (res (list string)) :=
  command (fun w => (Ok (elements (set_at w key)), w)).

Definition client_SCard (key : string) : M (res Z) :=
  command (fun w => (Ok (Z.of_nat (size (set_at w key))), w)).

(** ZRANGE key 0 -1: every member, in score order. *)
Definition client_ZRange_all (key : string) : M (res (list string)) :=
  command (fun w => (Ok (zset_at w key), w)).

(** RPUSH with no value is rejected by the server. *)
Definition client_RPush (key : string) (values : list string) : M (res unit) :=
  command (fun w =>
    match values with
    | [] => (Err (Errorf "ERR wrong number of arguments for 'rpush' command"), w)
    | _ => (Ok tt, set_lists (<[key := list_at w key ++ values]> (lists w)) w)
    end).

(** RPOP: removes and returns the last element; [redis.Nil] on a key
    that holds no element.  It never waits for one. *)
Definition client_RPop (key : string) : M (res string) :=
  command (fun w =>
    match pop_back (list_at w key) with
    | None => (Err RedisNil, w)
    | Some (card, rest) => (Ok card, set_lists (<[key := rest]> (lists w)) w)
    end).

Definition client_LLen (key : string) : M (res Z) :=
  command (fun w => (Ok (Z.of_nat (length (list_at w key))), w)).

(** Glob matching with [*] as the only wildcard. *)
Fixpoint glob (p s : list ascii) : bool :=
  match p with
  | [] => match s with [] => true | _ => false end
  | c :: p' =>
      if Ascii.eqb c "*"%char then
        (fix skip (s : list ascii) : bool :=
           glob p' s || match s with [] => false | _ :: s' => skip s' end) s
      else match s with
           | [] => false
           | c' :: s' => Ascii.eqb c c' && glob p' s'
           end
  end.

Definition all_keys (w : World) : list string :=
  elements (dom (hashes w) ∪ dom (sets w) ∪ dom (zsets w) ∪ dom (lists w)).

(** SCAN with a MATCH pattern, iterated to the end. *)
Definition client_Scan (pattern : string) : M (res (list string)) :=
  command (fun w =>
    (Ok (filter (fun k => glob (list_ascii_of_string pattern) (list_ascii_of_string k) = true)
           (all_keys w)), w)).

(** *** The go-redis client: pipelines

    [client.Pipeline()] queues commands locally and [Exec] sends the
    queue in one round trip, outside any transaction: the store runs the
    commands one by one in the order queued, none of them undone when the
    connection breaks after it. *)
Inductive cmd : Type :=
| CHSet (key field : string) (value : arg).

Definition run_cmd (w : World) (c : cmd) : World :=
  match c with
  | CHSet key field value => hset key field value w
  end.

Definition Pipeliner : Type := list cmd.

Definition pipe_HSet (pipe : Pipeliner) (key field : string) (value : arg) : Pipeliner :=
  pipe ++ [CHSet key field value].

Definition pipe_Exec (pipe : Pipeliner) : M (res unit) :=
  fun w =>
    if up w then (Ok tt, fold_left run_cmd pipe (pass w))
    else (Err StoreUnavailable, fold_left run_cmd (take (reached w) pipe) (pass w)).

(** ** storage.Keys *)

Definition Keys_ClubRoomsActivePattern : string := "club:*:rooms:active".

Definition Keys_RoomInfo (clubID roomID : string) : string :=
  "club:" +:+ clubID +:+ ":room:" +:+ roomID +:+ ":info".

Definition Keys_GameState (clubID roomID : string) : string :=
  "club:" +:+ clubID +:+ ":room:" +:+ roomID +:+ ":game".

Definition Keys_RoomPlayers (clubID roomID : string) : string :=
  "club:" +:+ clubID +:+ ":room:" +:+ roomID +:+ ":players".

Definition Keys_RoomActions (clubID roomID : string) : string :=
  "club:" +:+ clubID +:+ ":room:" +:+ roomID +:+ ":actions".

Definition Keys_RoomDeck (clubID roomID : string) : string :=
  "club:" +:+ clubID +:+ ":room:" +:+ roomID +:+ ":deck".

Definition Keys_PlayerInfo (clubID roomID userID : string) : string :=
  "club:" +:+ clubID +:+ ":room:" +:+ roomID +:+ ":player:" +:+ userID.

(** The bytes of [key] from index [start] up to the first colon. *)
Fixpoint until_colon (s : string) : string :=
  match s with
  | EmptyString => EmptyString
  | String c s' => if Ascii.eqb c ":"%char then EmptyString else String c (until_colon s')
  end.

Fixpoint drop_bytes (n : nat) (s : string) : string :=
  match n, s with
  | O, _ => s
  | S n', String _ s' => drop_bytes n' s'
  | S _, EmptyString => EmptyString
  end.

(** Keys.ExtractClubID: the text between the fifth byte and the next
    colon; empty when the key is too short, when that text is empty or
    when no colon follows it. *)
Definition Keys_ExtractClubID (key : string) : string :=
  let start := 5 in
  if (String.length key <=? start)%nat then EmptyString
  else
    let id := until_colon (drop_bytes start key) in
    let end_ := start + String.length id in
    if (end_ =? start)%nat || (String.length key <=? end_)%nat then EmptyString
    else id.

(** ** storage.RedisClient: the wrappers

    Each wrapper runs the client's command and logs a failure with
    [Logger.RedisError] before returning it. *)

Definition redis_line (operation : string) (err : error) : LogLine :=
  mkLogLine "Redis" "REDIS" "error in operation '%s': %v" [operation; error_text err].

Definition RedisError (operation : string) (err : error) : M unit :=
  fun w => (tt, log_line (redis_line operation err) w).

Definition wrap {A : Type} (operation : string) (c : M (res A)) : M (res A) :=
  let* r := c in
  match r with
  | Err err => run RedisError operation err in ret (Err err)
  | Ok v => ret (Ok v)
  end.

Definition RedisClient_Del (keys : list string) : M (res unit) :=
  wrap ("DEL " +:+ String.concat " " keys) (client_Del keys).

Definition RedisClient_Exists (key : string) : M (res bool) :=
  let* r := wrap ("EXISTS " +:+ key) (client_Exists key) in
  match r with
  | Err err => ret (Err err)
  | Ok val => ret (Ok (0 <? val)%Z)
  end.

Definition RedisClient_HGetAll (key : string) : M (res (gmap string string)) :=
  wrap ("HGETALL " +:+ key) (client_HGetAll key).

Definition RedisClient_HSet (key field : string) (value : arg) : M (res unit) :=
  wrap ("HSET " +:+ key +:+ " " +:+ field) (client_HSet key field value).

Definition RedisClient_HMSet (key : string) (values : list (string * arg)) : M (res unit) :=
  wrap ("HMSET " +:+ key) (client_HMSet key values).

Definition RedisClient_SMembers (key : string) : M (res (list string)) :=
  wrap ("SMEMBERS " +:+ key) (client_SMembers key).

Definition RedisClient_SCard (key : string) : M (res Z) :=
  wrap ("SCARD " +:+ key) (client_SCard key).

Definition RedisClient_ZRange_all (key : string) : M (res (list string)) :=
  wrap ("ZRANGE " +:+ key +:+ " 0 -1") (client_ZRange_all key).

Definition RedisClient_RPush (key : string) (values : list string) : M (res unit) :=
  wrap ("RPUSH " +:+ key) (client_RPush key values).

Definition RedisClient_LLen (key : string) : M (res Z) :=
  wrap ("LLEN " +:+ key) (client_LLen key).

(** RedisClient.Pipeline: a fresh, empty pipeline of the client. *)
Definition RedisClient_Pipeline : Pipeliner := [].

(** ** models.Game *)

Definition GamePhase : Type := string.

Definition GamePhaseWaiting : GamePhase := "waiting".
Definition GamePhasePreFlop : GamePhase := "pre_flop".
Definition GamePhaseFlop : GamePhase := "flop".
Definition GamePhaseTurn : GamePhase := "turn".
Definition GamePhaseRiver : GamePhase := "river".
Definition GamePhaseShowdown : GamePhase := "showdown".
Definition GamePhaseFinished : GamePhase := "finished".

Record SidePot : Type := mkSidePot {
  Amount : Z;
  EligiblePlayers : list string
}.

Record Game : Type := mkGame {
  GameID : string;
  RoomID : string;
  ClubID : string;
  Phase : GamePhase;
  Pot : Z;
  CurrentBet : Z;
  DealerPosition : Z;
  SmallBlindPosition : option Z;
  BigBlindPosition : option Z;
  CurrentPlayerPosition : option Z;
  RoundNumber : Z;
  CommunityCards : list string;
  StartedAt : option Z;
  SidePots : list SidePot
}.

(** strconv.Atoi on a 64-bit platform: an optional sign and decimal
    digits.  The second component is [false] when Go returns an error:
    the value is then 0 for a syntax error and the nearest bound for a
    number out of range. *)
Definition digit_of (c : ascii) : option Z :=
  let n := nat_of_ascii c in
  if (48 <=? n)%nat && (n <=? 57)%nat then Some (Z.of_nat (n - 48)) else None.

Fixpoint parse_digits (s : string) (acc : Z) : option Z :=
  match s with
  | EmptyString => Some acc
  | String c s' =>
      match digit_of c with
      | Some d => parse_digits s' (acc * 10 + d)%Z
      | None => None
      end
  end.

Definition strconv_Atoi (s : string) : Z * bool :=
  match s with
  | EmptyString => (0%Z, false)
  | String c rest =>
      let neg := Ascii.eqb c "-"%char in
      let body := if neg || Ascii.eqb c "+"%char then rest else s in
      match body with
      | EmptyString => (0%Z, false)
      | _ =>
          match parse_digits body 0 with
          | None => (0%Z, false)
          | Some v =>
              if neg then
                if (2 ^ 63 <? v)%Z then ((- 2 ^ 63)%Z, false) else ((- v)%Z, true)
              else
                if (2 ^ 63 <=? v)%Z then ((2 ^ 63 - 1)%Z, false) else (v, true)
          end
      end
  end.

(** [data[field]] on a Go map: the empty string for a missing field. *)
Definition field (data : gmap string string) (name : string) : string :=
  default EmptyString (data !! name).

Definition nullable_position (raw : string) : option Z :=
  if bool_decide (raw ≠ EmptyString) && bool_decide (raw ≠ "null")
  then Some (fst (strconv_Atoi raw))
  else None.

(** The record models.NewGameFromRedis builds: numeric fields are parsed
    with the error dropped, the phase is the stored text as it is. *)
Definition parse_game (data : gmap string string) : Game :=
  let pot := fst (strconv_Atoi (field data "pot")) in
  let currentBet := fst (strconv_Atoi (field data "current_bet")) in
  let dealerPosition := fst (strconv_Atoi (field data "dealer_position")) in
  let roundNumber := fst (strconv_Atoi (field data "round_number")) in
  let smallBlindPos := nullable_position (field data "small_blind_position") in
  let bigBlindPos := nullable_position (field data "big_blind_position") in
  let currentPlayerPos := nullable_position (field data "current_player_position") in
  let communityCards :=
    if bool_decide (field data "community_cards" ≠ EmptyString)
    then json_Unmarshal_strings (field data "community_cards")
    else [] in
  let startedAt :=
    if bool_decide (field data "started_at" ≠ EmptyString)
       && bool_decide (field data "started_at" ≠ "null")
    then time_Parse RFC3339 (field data "started_at")
    else None in
  mkGame (field data "game_id") EmptyString EmptyString (field data "phase")
    pot currentBet dealerPosition smallBlindPos bigBlindPos currentPlayerPos
    roundNumber communityCards startedAt [].

(** models.NewGameFromRedis: its error is always nil. *)
Definition NewGameFromRedis (data : gmap string string) : res Game :=
  Ok (parse_game data).

(** [game.ClubID = clubID; game.RoomID = roomID] *)
Definition with_room (game : Game) (clubID roomID : string) : Game :=
  mkGame (GameID game) roomID clubID (Phase game) (Pot game) (CurrentBet game)
    (DealerPosition game) (SmallBlindPosition game) (BigBlindPosition game)
    (CurrentPlayerPosition game) (RoundNumber game) (CommunityCards game)
    (StartedAt game) (SidePots game).

(** Game.IsActive *)
Definition Game_IsActive (g : Game) : bool :=
  bool_decide (Phase g ≠ GamePhaseWaiting) && bool_decide (Phase g ≠ GamePhaseFinished).

(** Game.IsWaiting *)
Definition Game_IsWaiting (g : Game) : bool :=
  bool_decide (Phase g = GamePhaseWaiting).

(** The transition map literal of Game.CanTransitionTo. *)
Definition validTransitions : gmap string (list GamePhase) :=
  list_to_map
    [ (GamePhaseWaiting, [GamePhasePreFlop]);
      (GamePhasePreFlop, [GamePhaseFlop; GamePhaseShowdown; GamePhaseFinished]);
      (GamePhaseFlop, [GamePhaseTurn; GamePhaseShowdown; GamePhaseFinished]);
      (GamePhaseTurn, [GamePhaseRiver; GamePhaseShowdown; GamePhaseFinished]);
      (GamePhaseRiver, [GamePhaseShowdown; GamePhaseFinished]);
      (GamePhaseShowdown, [GamePhaseFinished; GamePhasePreFlop]);
      (GamePhaseFinished, [GamePhaseWaiting; GamePhasePreFlop]) ].

(** The loop over the allowed phases: [true] at the first equal one. *)
Fixpoint phase_listed (allowedPhases : list GamePhase) (nextPhase : GamePhase) : bool :=
  match allowedPhases with
  | [] => false
  | allowed :: rest =>
      if bool_decide (allowed = nextPhase) then true else phase_listed rest nextPhase
  end.

(** Game.CanTransitionTo *)
Definition Game_CanTransitionTo (g : Game) (nextPhase : GamePhase) : bool :=
  match validTransitions !! Phase g with
  | None => false
  | Some allowedPhases => phase_listed allowedPhases nextPhase
  end.

(** Game.NextPhase *)
Definition Game_NextPhase (g : Game) : GamePhase :=
  if bool_decide (Phase g = GamePhaseWaiting) then GamePhasePreFlop
  else if bool_decide (Phase g = GamePhasePreFlop) then GamePhaseFlop
  else if bool_decide (Phase g = GamePhaseFlop) then GamePhaseTurn
  else if bool_decide (Phase g = GamePhaseTurn) then GamePhaseRiver
  else if bool_decide (Phase g = GamePhaseRiver) then GamePhaseShowdown
  else if bool_decide (Phase g = GamePhaseShowdown) then GamePhaseFinished
  else GamePhaseWaiting.

(** ** utils (time) *)

(** utils.GetCurrentTime *)
Definition GetCurrentTime : M Z := time_Now.

(** utils.GetCurrentTimestamp: Unix seconds. *)
Definition GetCurrentTimestamp : M Z := time_Now.

(** utils.GetISO8601Time *)
Definition GetISO8601Time : M string :=
  let* now := time_Now in ret (time_FormatUTC RFC3339 now).

(** ** config.EngineConfig *)

Record EngineConfig : Type := mkEngineConfig {
  CheckInterval : Z;
  ShutdownTimeout : Z;
  MinPlayersToStart : Z;
  MaxPlayersPerRoom : Z
}.

(** ** services.GameStateService *)

(** GameStateService.GetGameState: [Ok None] is Go's [(nil, nil)], the
    game hash holds no field. *)
Definition GameStateService_GetGameState (clubID roomID : string) : M (res (option Game)) :=
  let gameKey := Keys_GameState clubID roomID in
  let* r := RedisClient_HGetAll gameKey in
  match r with
  | Err err =>
      run logf "GameState" "ERROR" "error reading the game state %s:%s: %v"
            [clubID; roomID; error_text err] in
      ret (Err err)
  | Ok data =>
      if (size data =? 0)%nat then ret (Ok None)
      else
        match NewGameFromRedis data with
        | Err err =>
            run logf "GameState" "ERROR" "error parsing the game data %s:%s: %v"
                  [clubID; roomID; error_text err] in
            ret (Err err)
        | Ok game => ret (Ok (Some (with_room game clubID roomID)))
        end
  end.

(** GameStateService.GetPlayersCount *)
Definition GameStateService_GetPlayersCount (clubID roomID : string) : M (res Z) :=
  let playersKey := Keys_RoomPlayers clubID roomID in
  let* r := RedisClient_SCard playersKey in
  match r with
  | Err err =>
      run logf "GameState" "ERROR" "error reading the number of players in room %s:%s: %v"
            [clubID; roomID; error_text err] in
      ret (Err err)
  | Ok count => ret (Ok count)
  end.

(** GameStateService.GetPlayerIDs *)
Definition GameStateService_GetPlayerIDs (clubID roomID : string) : M (res (list string)) :=
  let playersKey := Keys_RoomPlayers clubID roomID in
  let* r := RedisClient_SMembers playersKey in
  match r with
  | Err err =>
      run logf "GameState" "ERROR" "error reading the list of players in room %s:%s: %v"
            [clubID; roomID; error_text err] in
      ret (Err err)
  | Ok playerIDs => ret (Ok playerIDs)
  end.

(** GameStateService.IsGameActive *)
Definition GameStateService_IsGameActive (clubID roomID : string) : M (res bool) :=
  let* r := GameStateService_GetGameState clubID roomID in
  match r with
  | Err err => ret (Err err)
  | Ok None => ret (Ok false)
  | Ok (Some game) => ret (Ok (Game_IsActive game))
  end.

(** GameStateService.RoomExists *)
Definition GameStateService_RoomExists (clubID roomID : string) : M (res bool) :=
  let roomKey := Keys_RoomInfo clubID roomID in
  let* r := RedisClient_Exists roomKey in
  match r with
  | Err err =>
      run logf "GameState" "ERROR" "error checking that room %s:%s exists: %v"
            [clubID; roomID; error_text err] in
      ret (Err err)
  | Ok exists_ => ret (Ok exists_)
  end.

(** ** services.ActionLogger *)

(** ActionLogger.LogAction: builds the record, serialises it and pushes
    it at the end of the room's action list. *)
Definition ActionLogger_LogAction (clubID roomID action : string)
    (data : list (string * jvalue)) : M (option error) :=
  let* now := GetCurrentTimestamp in
  let actionData := mkActionData action now "game_engine" data in
  let jsonData := json_Marshal_action actionData in
  let actionsKey := Keys_RoomActions clubID roomID in
  let* r := RedisClient_RPush actionsKey [jsonData] in
  match r with
  | Err err =>
      run logf "ActionLogger" "ERROR" "error writing action '%s' to Redis: %v"
            [action; error_text err] in
      ret (Some err)
  | Ok _ => ret None
  end.

(** ActionLogger.LogGameStarted *)
Definition ActionLogger_LogGameStarted (clubID roomID gameID : string) (playersCount : Z)
    : M (option error) :=
  ActionLogger_LogAction clubID roomID "game_started"
    [("game_id", JString gameID); ("phase", JString "pre_flop");
     ("players_count", JInt playersCount)].

(** ActionLogger.LogGameStopped *)
Definition ActionLogger_LogGameStopped (clubID roomID previousPhase reason : string)
    : M (option error) :=
  ActionLogger_LogAction clubID roomID "game_stopped"
    [("previous_phase", JString previousPhase); ("reason", JString reason)].

(** ** services.RoomMonitor *)

(** The first line [handleGameStart] and [handleGameStop] print: the
    mark of an invocation on the console. *)
Definition start_line (clubID roomID : string) : LogLine :=
  mkLogLine "RoomMonitor" "INFO" "starting the game in room %s:%s" [clubID; roomID].
Definition stop_line (clubID roomID : string) : LogLine :=
  mkLogLine "RoomMonitor" "INFO" "stopping the game in room %s:%s" [clubID; roomID].

(** RoomMonitor.handleGameStart *)
Definition RoomMonitor_handleGameStart (clubID roomID : string) (playersCount : Z)
    : M (option error) :=
  run logf "RoomMonitor" "INFO" "starting the game in room %s:%s" [clubID; roomID] in
  let* now := GetCurrentTime in
  let gameID := time_Format "20060102150405" now +:+ "_" +:+ clubID +:+ "_" +:+ roomID in
  let* startedAt := GetISO8601Time in
  let pipe := RedisClient_Pipeline in
  let roomInfoKey := Keys_RoomInfo clubID roomID in
  let gameStateKey := Keys_GameState clubID roomID in
  let pipe := pipe_HSet pipe roomInfoKey "status" (AStr "gaming") in
  let pipe := pipe_HSet pipe gameStateKey "phase" (AStr "pre_flop") in
  let pipe := pipe_HSet pipe gameStateKey "game_id" (AStr gameID) in
  let pipe := pipe_HSet pipe gameStateKey "started_at" (AStr startedAt) in
  let pipe := pipe_HSet pipe gameStateKey "pot" (AInt 0) in
  let pipe := pipe_HSet pipe gameStateKey "current_bet" (AInt 0) in
  let* r := pipe_Exec pipe in
  match r with
  | Err err => ret (Some err)
  | Ok _ =>
      run ActionLogger_LogGameStarted clubID roomID gameID playersCount in
      run logf "RoomMonitor" "GAME" "game started" [clubID; roomID; gameID; pretty playersCount] in
      ret None
  end.

(** RoomMonitor.handleGameStop *)
Definition RoomMonitor_handleGameStop (clubID roomID previousPhase reason : string)
    : M (option error) :=
  run logf "RoomMonitor" "INFO" "stopping the game in room %s:%s" [clubID; roomID] in
  let pipe := RedisClient_Pipeline in
  let roomInfoKey := Keys_RoomInfo clubID roomID in
  let gameStateKey := Keys_GameState clubID roomID in
  let pipe := pipe_HSet pipe roomInfoKey "status" (AStr "waiting") in
  let pipe := pipe_HSet pipe gameStateKey "phase" (AStr "waiting") in
  let pipe := pipe_HSet pipe gameStateKey "game_id" (AStr EmptyString) in
  let pipe := pipe_HSet pipe gameStateKey "started_at" (AStr EmptyString) in
  let pipe := pipe_HSet pipe gameStateKey "pot" (AInt 0) in
  let pipe := pipe_HSet pipe gameStateKey "current_bet" (AInt 0) in
  let pipe := pipe_HSet pipe gameStateKey "community_cards" (AStr "[]") in
  let* r := pipe_Exec pipe in
  match r with
  | Err err => ret (Some err)
  | Ok _ =>
      run ActionLogger_LogGameStopped clubID roomID previousPhase reason in
      run logf "RoomMonitor" "GAME" "game stopped" [clubID; roomID; previousPhase; reason] in
      ret None
  end.

(** RoomMonitor.checkRoom *)
Definition RoomMonitor_checkRoom (config : EngineConfig) (clubID roomID : string) : M unit :=
  let* r := GameStateService_GetPlayersCount clubID roomID in
  match r with
  | Err err =>
      logf "RoomMonitor" "ERROR" "error reading the number of players in room %s:%s: %v"
        [clubID; roomID; error_text err]
  | Ok playersCount =>
      let* r := GameStateService_GetGameState clubID roomID in
      match r with
      | Err err =>
          logf "RoomMonitor" "ERROR" "error reading the game state %s:%s: %v"
            [clubID; roomID; error_text err]
      | Ok None => ret tt
      | Ok (Some game) =>
          let currentPhase := Phase game in
          if (MinPlayersToStart config <=? playersCount)%Z
             && bool_decide (currentPhase = "waiting") then
            run logf "RoomMonitor" "DEBUG" "room %s:%s is ready to start (players: %d)"
                  [clubID; roomID; pretty playersCount] in
            let* err := RoomMonitor_handleGameStart clubID roomID playersCount in
            match err with
            | Some err =>
                logf "RoomMonitor" "ERROR" "error starting the game %s:%s: %v"
                  [clubID; roomID; error_text err]
            | None => ret tt
            end
          else if (playersCount <? MinPlayersToStart config)%Z
                  && bool_decide (currentPhase ≠ "waiting") then
            run logf "RoomMonitor" "DEBUG" "room %s:%s: not enough players (left: %d)"
                  [clubID; roomID; pretty playersCount] in
            let* err := RoomMonitor_handleGameStop clubID roomID currentPhase
                          "insufficient_players" in
            match err with
            | Some err =>
                logf "RoomMonitor" "ERROR" "error stopping the game %s:%s: %v"
                  [clubID; roomID; error_text err]
            | None => ret tt
            end
          else if (MinPlayersToStart config <=? playersCount)%Z
                  && bool_decide (currentPhase ≠ "waiting") then
            ret tt
          else ret tt
      end
  end.

(** The inner loop of checkAllRooms over the rooms of one club. *)
Fixpoint check_rooms (config : EngineConfig) (clubID : string) (roomIDs : list string)
    (roomsChecked : Z) : M Z :=
  match roomIDs with
  | [] => ret roomsChecked
  | roomID :: rest =>
      run RoomMonitor_checkRoom config clubID roomID in
      check_rooms config clubID rest (roomsChecked + 1)%Z
  end.

(** The outer loop of checkAllRooms over the keys the scan found. *)
Fixpoint check_clubs (config : EngineConfig) (keys : list string) (roomsChecked : Z) : M Z :=
  match keys with
  | [] => ret roomsChecked
  | clubRoomsKey :: rest =>
      let clubID := Keys_ExtractClubID clubRoomsKey in
      if bool_decide (clubID = EmptyString) then
        run logf "RoomMonitor" "WARNING" "cannot extract the club id from key: %s"
              [clubRoomsKey] in
        check_clubs config rest roomsChecked
      else
        let* r := RedisClient_ZRange_all clubRoomsKey in
        match r with
        | Err err =>
            run logf "RoomMonitor" "ERROR" "error reading the rooms of club %s: %v"
                  [clubID; error_text err] in
            check_clubs config rest roomsChecked
        | Ok roomIDs =>
            let* n := check_rooms config clubID roomIDs roomsChecked in
            check_clubs config rest n
        end
  end.

(** RoomMonitor.checkAllRooms: one tick of the monitor. *)
Definition RoomMonitor_checkAllRooms (config : EngineConfig) : M unit :=
  let pattern := Keys_ClubRoomsActivePattern in
  let* iter := client_Scan pattern in
  let keys := match iter with Ok ks => ks | Err _ => [] end in
  let* roomsChecked := check_clubs config keys 0%Z in
  run match iter with
      | Err err => logf "RoomMonitor" "ERROR" "error scanning the clubs: %v" [error_text err]
      | Ok _ => ret tt
      end in
  if (0 <? roomsChecked)%Z then
    logf "RoomMonitor" "DEBUG" "rooms checked: %d" [pretty roomsChecked]
  else ret tt.

(** ** services.DeckManager *)

Definition Hearts : string := "H".
Definition Diamonds : string := "D".
Definition Clubs : string := "C".
Definition Spades : string := "S".

Definition suits : list string := [Hearts; Diamonds; Clubs; Spades].
Definition ranks : list string :=
  ["A"; "2"; "3"; "4"; "5"; "6"; "7"; "8"; "9"; "T"; "J"; "Q"; "K"].

(** The two nested loops of CreateDeck: for each suit, for each rank,
    the card [rank + suit] is appended to the deck. *)
Definition deck_of_suit (deck : list string) (suit : string) : list string :=
  fold_left (fun deck rank => deck ++ [rank +:+ suit]) ranks deck.

(** DeckManager.CreateDeck *)
Definition DeckManager_CreateDeck : M (list string) :=
  let deck := fold_left deck_of_suit suits [] in
  run logf "DeckManager" "DEBUG" "created a new deck of %d cards"
        [pretty (Z.of_nat (length deck))] in
  ret deck.

(** The arrays ShuffleDeck works on: the caller's slice [deck] and the
    slice [shuffled] the function allocates. *)
Record arrays : Type := mkArrays {
  a_deck : list string;
  a_shuffled : list string
}.

(** Go's [copy(dst, src)]: the first [min (len dst) (len src)] elements
    of [src] overwrite those of [dst]. *)
Definition copy (dst src : list string) : list string :=
  take (length dst) src ++ drop (length src) dst.

(** [shuffled[i], shuffled[j] = shuffled[j], shuffled[i]]: both elements
    are read, then both are written.  [None] is Go's panic on an index
    out of range. *)
Definition swap_shuffled (i : nat) (j : Z) (a : arrays) : option arrays :=
  if (j <? 0)%Z then None
  else
    match a_shuffled a !! i, a_shuffled a !! Z.to_nat j with
    | Some xi, Some xj =>
        Some (mkArrays (a_deck a) (<[Z.to_nat j := xi]> (<[i := xj]> (a_shuffled a))))
    | _, _ => None
    end.

(** The loop [for i := len(shuffled) - 1; i > 0; i--] of ShuffleDeck,
    entered with the current index [i]. *)
Fixpoint shuffle_loop (i : nat) (a : arrays) (r : RngState) : option arrays * RngState :=
  match i with
  | O => (Some a, r)
  | S i' =>
      let (j, r') := rand_Intn r (Z.of_nat i + 1) in
      match swap_shuffled i j a with
      | Some a' => shuffle_loop i' a' r'
      | None => (None, r')
      end
  end.

(** DeckManager.ShuffleDeck, with both arrays in view. *)
Definition ShuffleDeck_arrays (deck : list string) : M (res arrays) :=
  let shuffled := replicate (length deck) EmptyString in
  let shuffled := copy shuffled deck in
  let* a := (fun w =>
               let (a, r) := shuffle_loop (length shuffled - 1) (mkArrays deck shuffled) (rng w) in
               (a, set_rng r w)) in
  match a with
  | None => ret (Err (Panic "index out of range"))
  | Some a =>
      run logf "DeckManager" "DEBUG" "deck shuffled" [] in
      ret (Ok a)
  end.

(** DeckManager.ShuffleDeck: the slice it returns. *)
Definition DeckManager_ShuffleDeck (deck : list string) : M (res (list string)) :=
  let* a := ShuffleDeck_arrays deck in
  match a with
  | Err err => ret (Err err)
  | Ok a => ret (Ok (a_shuffled a))
  end.

(** DeckManager.CreateAndShuffleDeck *)
Definition DeckManager_CreateAndShuffleDeck : M (res (list string)) :=
  let* deck := DeckManager_CreateDeck in
  DeckManager_ShuffleDeck deck.

(** DeckManager.SaveDeckToRedis *)
Definition DeckManager_SaveDeckToRedis (clubID roomID : string) (deck : list string)
    : M (option error) :=
  let deckKey := Keys_RoomDeck clubID roomID in
  let* r := RedisClient_Del [deckKey] in
  match r with
  | Err err =>
      run logf "DeckManager" "ERROR" "error deleting the old deck: %v" [error_text err] in
      ret (Some err)
  | Ok _ =>
      let* r := RedisClient_RPush deckKey deck in
      match r with
      | Err err =>
          run logf "DeckManager" "ERROR" "error saving the deck to Redis: %v"
                [error_text err] in
          ret (Some err)
      | Ok _ =>
          run logf "DeckManager" "INFO" "deck of %d cards saved to Redis for room %s:%s"
                [pretty (Z.of_nat (length deck)); clubID; roomID] in
          ret None
      end
  end.

(** DeckManager.DrawCard: the empty string with no error when the deck
    holds no card. *)
Definition DeckManager_DrawCard (clubID roomID : string) : M (res string) :=
  let deckKey := Keys_RoomDeck clubID roomID in
  let* r := client_RPop deckKey in
  match r with
  | Err err =>
      if bool_decide (error_text err = "redis: nil") then
        run logf "DeckManager" "WARNING" "the deck is empty!" [] in
        ret (Ok EmptyString)
      else
        run logf "DeckManager" "ERROR" "error drawing a card from the deck: %v"
              [error_text err] in
        ret (Err err)
  | Ok card => ret (Ok card)
  end.

(** The loop [for i := 0; i < count; i++] of DrawCards, with [n]
    iterations left. *)
Fixpoint DrawCards_loop (clubID roomID : string) (count : Z) (n : nat) (i : Z)
    (cards : list string) : M (res (list string)) :=
  match n with
  | O => ret (Ok cards)
  | S n' =>
      let* r := DeckManager_DrawCard clubID roomID in
      match r with
      | Err err => ret (Err err)
      | Ok card =>
          if bool_decide (card = EmptyString) then
            run logf "DeckManager" "WARNING" "the deck ran out after %d cards of %d"
                  [pretty i; pretty count] in
            ret (Ok cards)
          else DrawCards_loop clubID roomID count n' (i + 1)%Z (cards ++ [card])
      end
  end.

(** DeckManager.DrawCards.  [make([]string, 0, count)] panics on a
    negative [count]. *)
Definition DeckManager_DrawCards (clubID roomID : string) (count : Z) : M (res (list string)) :=
  if (count <? 0)%Z then ret (Err (Panic "makeslice: cap out of range"))
  else DrawCards_loop clubID roomID count (Z.to_nat count) 0%Z [].

(** DeckManager.GetDeckSize *)
Definition DeckManager_GetDeckSize (clubID roomID : string) : M (res Z) :=
  let deckKey := Keys_RoomDeck clubID roomID in
  let* r := RedisClient_LLen deckKey in
  match r with
  | Err err =>
      run logf "DeckManager" "ERROR" "error reading the size of the deck: %v"
            [error_text err] in
      ret (Err err)
  | Ok size_ => ret (Ok size_)
  end.

(** ** services.CardDealer *)

(** CardDealer.savePlayerCards *)
Definition CardDealer_savePlayerCards (clubID roomID userID : string) (cards : list string)
    : M (option error) :=
  let playerKey := Keys_PlayerInfo clubID roomID userID in
  let cardsJSON := json_Marshal_strings cards in
  let* r := RedisClient_HSet playerKey "cards" (AStr cardsJSON) in
  match r with
  | Err err => ret (Some (Errorw "error saving the cards to Redis" err))
  | Ok _ => ret None
  end.

(** The loop of DealCardsToPlayers over the seated players. *)
Fixpoint deal_loop (clubID roomID : string) (cardsPerPlayer : Z) (playerIDs : list string)
    : M (option error) :=
  match playerIDs with
  | [] => ret None
  | userID :: rest =>
      let* r := DeckManager_DrawCards clubID roomID cardsPerPlayer in
      match r with
      | Err err =>
          run logf "CardDealer" "ERROR" "error drawing cards for player %s: %v"
                [userID; error_text err] in
          ret (Some (Errorw "error drawing cards" err))
      | Ok cards =>
          if bool_decide (Z.of_nat (length cards) ≠ cardsPerPlayer) then
            run logf "CardDealer" "ERROR" "not enough cards in the deck for player %s"
                  [userID] in
            ret (Some (Errorf "not enough cards in the deck"))
          else
            let* e := CardDealer_savePlayerCards clubID roomID userID cards in
            match e with
            | Some err =>
                run logf "CardDealer" "ERROR" "error saving the cards of player %s: %v"
                      [userID; error_text err] in
                ret (Some (Errorw "cannot save the cards of the player" err))
            | None =>
                run logf "CardDealer" "DEBUG" "player %s received cards: %v"
                      (userID :: cards) in
                deal_loop clubID roomID cardsPerPlayer rest
            end
      end
  end.

(** The two failures of DealCardsToPlayers the specification names. *)
Definition NoPlayers : error := Errorf "no players in the room".
Definition DeckExhausted : error := Errorf "not enough cards in the deck".

(** CardDealer.DealCardsToPlayers *)
Definition CardDealer_DealCardsToPlayers (clubID roomID : string) : M (option error) :=
  run logf "CardDealer" "INFO" "dealing cards in room %s:%s" [clubID; roomID] in
  let* r := GameStateService_GetPlayerIDs clubID roomID in
  match r with
  | Err err =>
      run logf "CardDealer" "ERROR" "error reading the list of players: %v"
            [error_text err] in
      ret (Some (Errorw "cannot read the list of players" err))
  | Ok playerIDs =>
      if (length playerIDs =? 0)%nat then
        run logf "CardDealer" "WARNING" "no players to deal cards to" [] in
        ret (Some (Errorf "no players in the room"))
      else
        run logf "CardDealer" "INFO" "found %d players to deal cards to"
              [pretty (Z.of_nat (length playerIDs))] in
        let* d := DeckManager_CreateAndShuffleDeck in
        match d with
        | Err err => ret (Some err)
        | Ok deck =>
            run logf "CardDealer" "DEBUG" "deck created and shuffled (%d cards)"
                  [pretty (Z.of_nat (length deck))] in
            let* e := DeckManager_SaveDeckToRedis clubID roomID deck in
            match e with
            | Some err => ret (Some (Errorw "cannot save the deck" err))
            | None =>
                let cardsPerPlayer := 2%Z in
                let* e := deal_loop clubID roomID cardsPerPlayer playerIDs in
                match e with
                | Some err => ret (Some err)
                | None =>
                    let* remaining := DeckManager_GetDeckSize clubID roomID in
                    run logf "CardDealer" "INFO"
                          "dealing finished; cards left in the deck: %d"
                          [pretty (Z.of_nat (length playerIDs));
                           pretty cardsPerPlayer;
                           pretty (Z.of_nat (length playerIDs) * cardsPerPlayer)%Z;
                           pretty (match remaining with Ok n => n | Err _ => 0%Z end)] in
                    ret None
                end
            end
        end
  end.

(** ** handlers.GameStopHandler *)

(** GameStopHandler.resetPlayerState *)
Definition GameStopHandler_resetPlayerState (clubID roomID userID : string)
    : M (option error) :=
  let playerKey := Keys_PlayerInfo clubID roomID userID in
  let updates :=
    [ ("status", AStr "waiting"); ("bet", AInt 0); ("cards", AStr "[]");
      ("last_action", AStr EmptyString); ("is_dealer", ABool false);
      ("is_small_blind", ABool false); ("is_big_blind", ABool false) ] in
  let* r := RedisClient_HMSet playerKey updates in
  match r with
  | Err err => ret (Some (Errorw "error resetting the state of the player" err))
  | Ok _ => ret None
  end.

(** The loop of Handle over the seated players: a failed reset is logged
    and the loop goes on. *)
Fixpoint reset_players (clubID roomID : string) (playerIDs : list string) : M unit :=
  match playerIDs with
  | [] => ret tt
  | userID :: rest =>
      let* e := GameStopHandler_resetPlayerState clubID roomID userID in
      run match e with
          | Some err =>
              logf "GameStop" "WARNING" "error resetting the state of player %s: %v"
                [userID; error_text err]
          | None => ret tt
          end in
      reset_players clubID roomID rest
  end.

(** GameStopHandler.Handle *)
Definition GameStopHandler_Handle (clubID roomID previousPhase reason : string)
    : M (option error) :=
  run logf "GameStop" "INFO" "stopping the game in room %s:%s (reason: %s)"
        [clubID; roomID; reason] in
  let* r := GameStateService_RoomExists clubID roomID in
  match r with
  | Err err => ret (Some (Errorw "error checking that the room exists" err))
  | Ok false => ret (Some (Errorf ("room " +:+ clubID +:+ ":" +:+ roomID +:+ " does not exist")))
  | Ok true =>
      let* r := GameStateService_IsGameActive clubID roomID in
      match r with
      | Err err => ret (Some (Errorw "error checking the status of the game" err))
      | Ok false =>
          run logf "GameStop" "DEBUG" "the game in room %s:%s is already stopped"
                [clubID; roomID] in
          ret None
      | Ok true =>
          let pipe := RedisClient_Pipeline in
          let roomInfoKey := Keys_RoomInfo clubID roomID in
          let gameStateKey := Keys_GameState clubID roomID in
          let pipe := pipe_HSet pipe roomInfoKey "status" (AStr "waiting") in
          let pipe := pipe_HSet pipe gameStateKey "phase" (AStr GamePhaseWaiting) in
          let pipe := pipe_HSet pipe gameStateKey "game_id" (AStr EmptyString) in
          let pipe := pipe_HSet pipe gameStateKey "started_at" (AStr EmptyString) in
          let pipe := pipe_HSet pipe gameStateKey "pot" (AInt 0) in
          let pipe := pipe_HSet pipe gameStateKey "current_bet" (AInt 0) in
          let pipe := pipe_HSet pipe gameStateKey "current_player_position"
                        (AStr EmptyString) in
          let pipe := pipe_HSet pipe gameStateKey "community_cards" (AStr "[]") in
          let* r := pipe_Exec pipe in
          match r with
          | Err err =>
              run logf "GameStop" "ERROR" "error updating the game state in Redis: %v"
                    [error_text err] in
              ret (Some (Errorw "error updating Redis" err))
          | Ok _ =>
              let* r := GameStateService_GetPlayerIDs clubID roomID in
              run match r with
                  | Err err =>
                      logf "GameStop" "WARNING"
                        "cannot read the list of players to reset their state: %v"
                        [error_text err]
                  | Ok playerIDs => reset_players clubID roomID playerIDs
                  end in
              let* e := ActionLogger_LogGameStopped clubID roomID previousPhase reason in
              run match e with
                  | Some err =>
                      logf "GameStop" "WARNING" "cannot write the action to the history: %v"
                        [error_text err]
                  | None => ret tt
                  end in
              run logf "GameStop" "GAME" "game stopped"
                    [clubID; roomID; previousPhase; reason] in
              ret None
          end
      end
  end.

(** ** models.Game: the other methods *)

(** Game.IsFinished *)
Definition Game_IsFinished (g : Game) : bool :=
  bool_decide (Phase g = GamePhaseFinished).

(** Game.SetPhase *)
Definition Game_SetPhase (g : Game) (phase : GamePhase) : Game :=
  mkGame (GameID g) (RoomID g) (ClubID g) phase (Pot g) (CurrentBet g)
    (DealerPosition g) (SmallBlindPosition g) (BigBlindPosition g)
    (CurrentPlayerPosition g) (RoundNumber g) (CommunityCards g)
    (StartedAt g) (SidePots g).

(** Go's [int] on a 64-bit platform: arithmetic wraps around. *)
Definition int_wrap (z : Z) : Z := ((z + 2 ^ 63) mod 2 ^ 64 - 2 ^ 63)%Z.

(** Game.SetDealerPosition *)
Definition Game_SetDealerPosition (g : Game) (position : Z) : Game :=
  mkGame (GameID g) (RoomID g) (ClubID g) (Phase g) (Pot g) (CurrentBet g)
    position (SmallBlindPosition g) (BigBlindPosition g)
    (CurrentPlayerPosition g) (RoundNumber g) (CommunityCards g)
    (StartedAt g) (SidePots g).

(** Game.MoveDealerPosition: [%] truncates toward zero and panics on a
    zero divisor. *)
Definition Game_MoveDealerPosition (g : Game) (maxPlayers : Z) : res Game :=
  if (maxPlayers =? 0)%Z then Err (Panic "runtime error: integer divide by zero")
  else Ok (Game_SetDealerPosition g (Z.rem (int_wrap (DealerPosition g + 1)) maxPlayers)).

(** models.ParseGamePhase *)
Definition ParseGamePhase (phase : string) : GamePhase :=
  if bool_decide (phase = "waiting") then GamePhaseWaiting
  else if bool_decide (phase = "pre_flop") then GamePhasePreFlop
  else if bool_decide (phase = "flop") then GamePhaseFlop
  else if bool_decide (phase = "turn") then GamePhaseTurn
  else if bool_decide (phase = "river") then GamePhaseRiver
  else if bool_decide (phase = "showdown") then GamePhaseShowdown
  else if bool_decide (phase = "finished") then GamePhaseFinished
  else GamePhaseWaiting.

(** models.IsValidGamePhase *)
Definition IsValidGamePhase (phase : string) : bool :=
  bool_decide (phase = "waiting") || bool_decide (phase = "pre_flop")
  || bool_decide (phase = "flop") || bool_decide (phase = "turn")
  || bool_decide (phase = "river") || bool_decide (phase = "showdown")
  || bool_decide (phase = "finished").

(** models.GetAllGamePhases *)
Definition GetAllGamePhases : list GamePhase :=
  [ GamePhaseWaiting; GamePhasePreFlop; GamePhaseFlop; GamePhaseTurn; GamePhaseRiver;
    GamePhaseShowdown; GamePhaseFinished ].

(** ** services: the card helpers of the deck manager *)

(** [string(b)] for a byte [b]: the UTF-8 encoding of the code point
    [b], one byte below 128 and two bytes from 128 on. *)
Definition string_of_byte (b : ascii) : string :=
  let n := nat_of_ascii b in
  if (n <? 128)%nat then String b EmptyString
  else String (ascii_of_nat (192 + n / 64))
         (String (ascii_of_nat (128 + n mod 64)) EmptyString).

(** services.ParseCard *)
Definition ParseCard (card : string) : string * string :=
  match card with
  | String b0 (String b1 EmptyString) => (string_of_byte b0, string_of_byte b1)
  | _ => (EmptyString, EmptyString)
  end.

(** The loops of IsValidCard: [true] at the first equal element. *)
Fixpoint found_in (valid : list string) (x : string) : bool :=
  match valid with
  | [] => false
  | v :: rest => if bool_decide (x = v) then true else found_in rest x
  end.

(** services.IsValidCard *)
Definition IsValidCard (card : string) : bool :=
  match card with
  | String b0 (String b1 EmptyString) =>
      let rank := string_of_byte b0 in
      let suit := string_of_byte b1 in
      let validRanks := ["A"; "2"; "3"; "4"; "5"; "6"; "7"; "8"; "9"; "T"; "J"; "Q"; "K"] in
      if negb (found_in validRanks rank) then false
      else
        let validSuits := [Hearts; Diamonds; Clubs; Spades] in
        found_in validSuits suit
  | _ => false
  end.


(** ** services.CardDealer: the community cards *)

(** encoding/json: the error [json.Unmarshal(text, &cards)] returns for a
    text it cannot decode into a slice of strings, [None] when it
    decodes; the slice is then [json_Unmarshal_strings text]. *)
Class GoJSON : Type := {
  json_Unmarshal_error : string -> option error
}.

(** HGET: [redis.Nil] for a field or a key that does not exist. *)
Definition client_HGet (key field : string) : M (res string) :=
  command (fun w =>
    match hash_at w key !! field with
    | Some v => (Ok v, w)
    | None => (Err RedisNil, w)
    end).

(** RedisClient.HGet: a missing field reads as the empty string. *)
Definition RedisClient_HGet (key field : string) : M (res string) :=
  let* r := client_HGet key field in
  match r with
  | Err RedisNil => ret (Ok EmptyString)
  | Err err =>
      run RedisError ("HGET " +:+ key +:+ " " +:+ field) err in
      ret (Err err)
  | Ok val => ret (Ok val)
  end.

(** The text of a stored card list decoded, as getCurrentCommunityCards
    and GetPlayerCards do it: the empty text and [[]] are the empty
    list without a call of the decoder. *)
Definition decode_cards `{GoJSON} (what cardsJSON : string) : res (list string) :=
  if bool_decide (cardsJSON = EmptyString) || bool_decide (cardsJSON = "[]") then Ok []
  else
    match json_Unmarshal_error cardsJSON with
    | Some err => Err (Errorw what err)
    | None => Ok (json_Unmarshal_strings cardsJSON)
    end.

(** CardDealer.getCurrentCommunityCards *)
Definition CardDealer_getCurrentCommunityCards `{GoJSON} (clubID roomID : string)
    : M (res (list string)) :=
  let gameKey := Keys_GameState clubID roomID in
  let* r := RedisClient_HGet gameKey "community_cards" in
  match r with
  | Err err => ret (Err err)
  | Ok cardsJSON => ret (decode_cards "error parsing the community cards" cardsJSON)
  end.

(** CardDealer.saveCommunityCards *)
Definition CardDealer_saveCommunityCards (clubID roomID : string) (cards : list string)
    : M (option error) :=
  let gameKey := Keys_GameState clubID roomID in
  let cardsJSON := json_Marshal_strings cards in
  let* r := RedisClient_HSet gameKey "community_cards" (AStr cardsJSON) in
  match r with
  | Err err => ret (Some (Errorw "error saving the community cards to Redis" err))
  | Ok _ => ret None
  end.

(** CardDealer.DealCommunityCards *)
Definition CardDealer_DealCommunityCards `{GoJSON} (clubID roomID : string) (count : Z)
    : M (res (list string)) :=
  run logf "CardDealer" "INFO" "dealing %d community cards in room %s:%s"
        [pretty count; clubID; roomID] in
  let* r := DeckManager_DrawCards clubID roomID count in
  match r with
  | Err err =>
      run logf "CardDealer" "ERROR" "error drawing the community cards: %v"
            [error_text err] in
      ret (Err (Errorw "cannot draw cards from the deck" err))
  | Ok cards =>
      if bool_decide (Z.of_nat (length cards) ≠ count) then
        run logf "CardDealer" "ERROR" "not enough cards in the deck (asked %d, got %d)"
              [pretty count; pretty (Z.of_nat (length cards))] in
        ret (Err (Errorf "not enough cards in the deck"))
      else
        let* cur := CardDealer_getCurrentCommunityCards clubID roomID in
        match cur with
        | Err err =>
            run logf "CardDealer" "ERROR" "error reading the current community cards: %v"
                  [error_text err] in
            ret (Err err)
        | Ok currentCards =>
            let allCards := currentCards ++ cards in
            let* e := CardDealer_saveCommunityCards clubID roomID allCards in
            match e with
            | Some err =>
                run logf "CardDealer" "ERROR" "error saving the community cards: %v"
                      [error_text err] in
                ret (Err err)
            | None =>
                run logf "CardDealer" "INFO" "community cards added: %v (on the table: %d)"
                      (cards ++ [pretty (Z.of_nat (length allCards))]) in
                ret (Ok cards)
            end
        end
  end.

(** CardDealer.GetPlayerCards *)
Definition CardDealer_GetPlayerCards `{GoJSON} (clubID roomID userID : string)
    : M (res (list string)) :=
  let playerKey := Keys_PlayerInfo clubID roomID userID in
  let* r := RedisClient_HGet playerKey "cards" in
  match r with
  | Err err => ret (Err err)
  | Ok cardsJSON => ret (decode_cards "error parsing the cards of the player" cardsJSON)
  end.

(** The loop of ClearAllCards over the seated players: a failure is
    logged and the loop goes on. *)
Fixpoint clear_cards (clubID roomID : string) (playerIDs : list string) : M unit :=
  match playerIDs with
  | [] => ret tt
  | userID :: rest =>
      let* e := CardDealer_savePlayerCards clubID roomID userID [] in
      run match e with
          | Some err =>
              logf "CardDealer" "WARNING" "cannot clear the cards of player %s: %v"
                [userID; error_text err]
          | None => ret tt
          end in
      clear_cards clubID roomID rest
  end.

(** CardDealer.ClearAllCards *)
Definition CardDealer_ClearAllCards (clubID roomID : string) : M (option error) :=
  run logf "CardDealer" "INFO" "clearing all cards in room %s:%s" [clubID; roomID] in
  let* r := GameStateService_GetPlayerIDs clubID roomID in
  match r with
  | Err err => ret (Some err)
  | Ok playerIDs =>
      run clear_cards clubID roomID playerIDs in
      let* e := CardDealer_saveCommunityCards clubID roomID [] in
      match e with
      | Some err => ret (Some err)
      | None =>
          let deckKey := Keys_RoomDeck clubID roomID in
          let* d := RedisClient_Del [deckKey] in
          run match d with
              | Err err => logf "CardDealer" "WARNING" "cannot delete the deck: %v"
                             [error_text err]
              | Ok _ => ret tt
              end in
          run logf "CardDealer" "INFO" "all cards cleared" [] in
          ret None
      end
  end.

(** Keys.RoomPots *)
Definition Keys_RoomPots (clubID roomID : string) : string :=
  "club:" +:+ clubID +:+ ":room:" +:+ roomID +:+ ":pots".

(** ** handlers.GameStopHandler: the other methods *)

(** GameStopHandler.HandleWithCleanup: the results of the two cleaning
    commands are dropped. *)
Definition GameStopHandler_HandleWithCleanup (clubID roomID previousPhase reason : string)
    : M (option error) :=
  let* e := GameStopHandler_Handle clubID roomID previousPhase reason in
  match e with
  | Some err => ret (Some err)
  | None =>
      let deckKey := Keys_RoomDeck clubID roomID in
      run RedisClient_Del [deckKey] in
      let potsKey := Keys_RoomPots clubID roomID in
      run RedisClient_HMSet potsKey [("main_pot", AInt 0); ("side_pots", AStr "[]")] in
      run logf "GameStop" "INFO" "the data of game %s:%s is cleaned up" [clubID; roomID] in
      ret None
  end.

(** GameStopHandler.ForceStop *)
Definition GameStopHandler_ForceStop (clubID roomID reason : string) : M (option error) :=
  let* r := GameStateService_GetGameState clubID roomID in
  match r with
  | Err err => ret (Some err)
  | Ok game =>
      let previousPhase :=
        match game with
        | Some g => Phase g
        | None => GamePhaseWaiting
        end in
      run logf "GameStop" "WARNING" "FORCED stop of game %s:%s" [clubID; roomID] in
      GameStopHandler_HandleWithCleanup clubID roomID previousPhase
        ("force_stop: " +:+ reason)
  end.

(** GameStopHandler.CanStopGame: Go's [(bool, error)]. *)
Definition GameStopHandler_CanStopGame (clubID roomID : string) : M (bool * option error) :=
  let* r := GameStateService_RoomExists clubID roomID in
  match r with
  | Err err => ret (false, Some err)
  | Ok false => ret (false, None)
  | Ok true =>
      let* a := GameStateService_IsGameActive clubID roomID in
      match a with
      | Err err => ret (false, Some err)
      | Ok isActive => ret (isActive, None)
      end
  end.

(** GameStopHandler.StopIfNeeded *)
Definition GameStopHandler_StopIfNeeded (clubID roomID : string) (minPlayers : Z)
    : M (bool * option error) :=
  let* a := GameStateService_IsGameActive clubID roomID in
  match a with
  | Err err => ret (false, Some err)
  | Ok false => ret (false, None)
  | Ok true =>
      let* n := GameStateService_GetPlayersCount clubID roomID in
      match n with
      | Err err => ret (false, Some err)
      | Ok playersCount =>
          if (minPlayers <=? playersCount)%Z then ret (false, None)
          else
            let* g := GameStateService_GetGameState clubID roomID in
            match g with
            | Err err => ret (false, Some err)
            | Ok game =>
                let previousPhase :=
                  match game with
                  | Some g => Phase g
                  | None => GamePhaseWaiting
                  end in
                let* e := GameStopHandler_Handle clubID roomID previousPhase
                            "insufficient_players" in
                match e with
                | Some err => ret (false, Some err)
                | None => ret (true, None)
                end
            end
      end
  end.

(** GameStopHandler.SaveGameResults *)
Definition GameStopHandler_SaveGameResults (clubID roomID : string) : M (option error) :=
  let* r := GameStateService_GetGameState clubID roomID in
  match r with
  | Err err => ret (Some err)
  | Ok game =>
      match game with
      | None => ret (Some (Errorf "no active game to save the results of"))
      | Some g =>
          if bool_decide (GameID g = EmptyString) then
            ret (Some (Errorf "no active game to save the results of"))
          else
            run logf "GameStop" "INFO" "the results of game %s are saved" [GameID g] in
            ret None
      end
  end.

(** ** config.Config *)

Record RedisConfig : Type := mkRedisConfig {
  Addr : string;
  Password : string;
  DB : Z;
  PoolSize : Z;
  MinIdleConns : Z;
  MaxRetries : Z;
  DialTimeout : Z;
  ReadTimeout : Z;
  WriteTimeout : Z
}.

Record Config : Type := mkConfig {
  Redis : RedisConfig;
  Engine : EngineConfig
}.

(** The errors of the validation; [Error()] prints the message after
    [config error: ]. *)
Definition NewConfigError (message : string) : error :=
  Errorf ("config error: " +:+ message).

Definition ErrInvalidRedisAddr : error := NewConfigError "redis address cannot be empty".
Definition ErrInvalidRedisDB : error := NewConfigError "redis DB must be between 0 and 15".
Definition ErrInvalidCheckInterval : error :=
  NewConfigError "check interval must be greater than 0".
Definition ErrInvalidMinPlayers : error :=
  NewConfigError "minimum players must be at least 2".

(** Config.Validate *)
Definition Config_Validate (c : Config) : option error :=
  if bool_decide (Addr (Redis c) = EmptyString) then Some ErrInvalidRedisAddr
  else if (DB (Redis c) <? 0)%Z || (15 <? DB (Redis c))%Z then Some ErrInvalidRedisDB
  else if (CheckInterval (Engine c) <=? 0)%Z then Some ErrInvalidCheckInterval
  else if (MinPlayersToStart (Engine c) <? 2)%Z then Some ErrInvalidMinPlayers
  else None.

(** ** handlers.GameStartHandler *)

(** GameStartHandler.Handle *)
Definition GameStartHandler_Handle (clubID roomID : string) (playersCount : Z)
    : M (option error) :=
  run logf "GameStart" "INFO" "starting the game in room %s:%s (players: %d)"
        [clubID; roomID; pretty playersCount] in
  let* r := GameStateService_RoomExists clubID roomID in
  match r with
  | Err err => ret (Some (Errorw "error checking that the room exists" err))
  | Ok false =>
      ret (Some (Errorf ("room " +:+ clubID +:+ ":" +:+ roomID +:+ " does not exist")))
  | Ok true =>
      let* a := GameStateService_IsGameActive clubID roomID in
      match a with
      | Err err => ret (Some (Errorw "error checking the status of the game" err))
      | Ok true =>
          run logf "GameStart" "WARNING" "the game in room %s:%s is already running"
                [clubID; roomID] in
          ret None
      | Ok false =>
          let* n := GameStateService_GetPlayersCount clubID roomID in
          match n with
          | Err err => ret (Some (Errorw "error reading the number of players" err))
          | Ok actualPlayersCount =>
              if (actualPlayersCount <? 2)%Z then
                ret (Some (Errorf ("not enough players to start (at least 2 needed, "
                                   +:+ pretty actualPlayersCount +:+ " seated)")))
              else
                let* now := time_Now in
                let gameID :=
                  "game_" +:+ clubID +:+ "_" +:+ roomID +:+ "_" +:+ pretty now in
                let* startedAt := GetISO8601Time in
                let pipe := RedisClient_Pipeline in
                let roomInfoKey := Keys_RoomInfo clubID roomID in
                let gameStateKey := Keys_GameState clubID roomID in
                let pipe := pipe_HSet pipe roomInfoKey "status" (AStr "gaming") in
                let pipe := pipe_HSet pipe gameStateKey "phase" (AStr GamePhasePreFlop) in
                let pipe := pipe_HSet pipe gameStateKey "game_id" (AStr gameID) in
                let pipe := pipe_HSet pipe gameStateKey "started_at" (AStr startedAt) in
                let pipe := pipe_HSet pipe gameStateKey "pot" (AInt 0) in
                let pipe := pipe_HSet pipe gameStateKey "current_bet" (AInt 0) in
                let* r := pipe_Exec pipe in
                match r with
                | Err err =>
                    run logf "GameStart" "ERROR"
                          "error updating the game state in Redis: %v" [error_text err] in
                    ret (Some (Errorw "error updating Redis" err))
                | Ok _ =>
                    let* e := ActionLogger_LogGameStarted clubID roomID gameID
                                playersCount in
                    run match e with
                        | Some err =>
                            logf "GameStart" "WARNING"
                              "cannot write the action to the history: %v" [error_text err]
                        | None => ret tt
                        end in
                    run logf "GameStart" "GAME" "game started"
                          [clubID; roomID; gameID; pretty playersCount] in
                    ret None
                end
          end
      end
  end.

(** GameStartHandler.CanStartGame *)
Definition GameStartHandler_CanStartGame (clubID roomID : string) (minPlayers : Z)
    : M (bool * option error) :=
  let* r := GameStateService_RoomExists clubID roomID in
  match r with
  | Err err => ret (false, Some err)
  | Ok false => ret (false, None)
  | Ok true =>
      let* a := GameStateService_IsGameActive clubID roomID in
      match a with
      | Err err => ret (false, Some err)
      | Ok true => ret (false, None)
      | Ok false =>
          let* n := GameStateService_GetPlayersCount clubID roomID in
          match n with
          | Err err => ret (false, Some err)
          | Ok playersCount => ret ((minPlayers <=? playersCount)%Z, None)
          end
      end
  end.

(** ** storage.Keys: the other keys and the extractors *)

(** Keys.ClubRoomsActive *)
Definition Keys_ClubRoomsActive (clubID : string) : string :=
  "club:" +:+ clubID +:+ ":rooms:active".

(** storage.lastIndexOf: the loop runs from the last byte down to the
    first; [n] is the number of bytes not yet looked at. *)
Fixpoint lastIndexOf_loop (s char : string) (n : nat) : Z :=
  match n with
  | O => (-1)%Z
  | S i =>
      match String.get i s with
      | Some b =>
          if bool_decide (string_of_byte b = char) then Z.of_nat i
          else lastIndexOf_loop s char i
      | None => (-1)%Z
      end
  end.

Definition lastIndexOf (s char : string) : Z :=
  lastIndexOf_loop s char (String.length s).

(** Keys.ExtractUserID: the text after the last colon. *)
Definition Keys_ExtractUserID (key : string) : string :=
  let lastColon := lastIndexOf key ":" in
  if (lastColon =? -1)%Z || (lastColon =? Z.of_nat (String.length key) - 1)%Z
  then EmptyString
  else drop_bytes (Z.to_nat (lastColon + 1)) key.

(** storage.indexOf: [i] runs from 0 to [len(s) - len(substr)], and
    [fuel] is the number of positions left to try. *)
Fixpoint indexOf_loop (s substr : string) (i fuel : nat) : Z :=
  match fuel with
  | O => (-1)%Z
  | S fuel' =>
      if bool_decide (substring i (String.length substr) s = substr) then Z.of_nat i
      else indexOf_loop s substr (S i) fuel'
  end.

Definition indexOf (s substr : string) : Z :=
  indexOf_loop s substr 0 (S (String.length s) - String.length substr).

(** Keys.ExtractRoomID: the text between the first [:room:] and the next
    colon or the end of the key. *)
Definition Keys_ExtractRoomID (key : string) : string :=
  let roomPrefix := ":room:" in
  let roomIdx := indexOf key roomPrefix in
  if (roomIdx =? -1)%Z then EmptyString
  else
    let start := Z.to_nat (roomIdx + Z.of_nat (String.length roomPrefix)) in
    if (String.length key <=? start)%nat then EmptyString
    else
      let id := until_colon (drop_bytes start key) in
      let end_ := start + String.length id in
      if (end_ =? start)%nat then EmptyString else id.

(** ** services.ActionLogger: the size of the history *)

(** LTRIM of the go-redis client: keeps the elements from [start] to
    [stop], both counted from the end when negative; a range that is
    empty or starts past the end leaves no element. *)
Definition client_LTrim (key : string) (start stop : Z) : M (res unit) :=
  command (fun w =>
    let l := list_at w key in
    let llen := Z.of_nat (length l) in
    let start := if (start <? 0)%Z then (llen + start)%Z else start in
    let stop := if (stop <? 0)%Z then (llen + stop)%Z else stop in
    let start := if (start <? 0)%Z then 0%Z else start in
    let kept :=
      if (stop <? start)%Z || (llen <=? start)%Z then []
      else
        let stop := if (llen <=? stop)%Z then (llen - 1)%Z else stop in
        take (Z.to_nat (stop - start + 1)) (drop (Z.to_nat start) l) in
    (Ok tt, set_lists (<[key := kept]> (lists w)) w)).

(** ActionLogger.GetActionsCount *)
Definition ActionLogger_GetActionsCount (clubID roomID : string) : M (res Z) :=
  let actionsKey := Keys_RoomActions clubID roomID in
  RedisClient_LLen actionsKey.

(** ActionLogger.ClearHistory *)
Definition ActionLogger_ClearHistory (clubID roomID : string) : M (option error) :=
  let actionsKey := Keys_RoomActions clubID roomID in
  let* r := RedisClient_Del [actionsKey] in
  match r with
  | Err err =>
      run logf "ActionLogger" "ERROR" "error clearing the history of room %s:%s: %v"
            [clubID; roomID; error_text err] in
      ret (Some err)
  | Ok _ =>
      run logf "ActionLogger" "INFO" "history of the actions of room %s:%s cleared"
            [clubID; roomID] in
      ret None
  end.

(** ActionLogger.TrimHistory *)
Definition ActionLogger_TrimHistory (clubID roomID : string) (keepLast : Z)
    : M (option error) :=
  if (keepLast <=? 0)%Z then ActionLogger_ClearHistory clubID roomID
  else
    let actionsKey := Keys_RoomActions clubID roomID in
    let* r := client_LTrim actionsKey (- keepLast) (-1) in
    match r with
    | Err err =>
        run logf "ActionLogger" "ERROR" "error trimming the history of room %s:%s: %v"
              [clubID; roomID; error_text err] in
        ret (Some err)
    | Ok _ =>
        run logf "ActionLogger" "INFO"
              "history of room %s:%s trimmed, the last %d actions kept"
              [clubID; roomID; pretty keepLast] in
        ret None
    end.

(** ** Reference definitions worded after the specification *)

(** The transition table of the phase state machine, row by row. *)
Definition phase_table : list (GamePhase * GamePhase) :=
  [ ("waiting", "pre_flop");
    ("pre_flop", "flop"); ("pre_flop", "showdown"); ("pre_flop", "finished");
    ("flop", "turn"); ("flop", "showdown"); ("flop", "finished");
    ("turn", "river"); ("turn", "showdown"); ("turn", "finished");
    ("river", "showdown"); ("river", "finished");
    ("showdown", "finished"); ("showdown", "pre_flop");
    ("finished", "waiting"); ("finished", "pre_flop") ].

(** The seven phases. *)
Definition all_phases : list GamePhase :=
  ["waiting"; "pre_flop"; "flop"; "turn"; "river"; "showdown"; "finished"].

(** The 52 cards in canonical order: suit by suit, rank by rank. *)
Definition canonical_deck : list string :=
  flat_map (fun suit => map (fun rank => rank +:+ suit) ranks) suits.

(** The vocabulary of the monitor's decision rule: the seated-player
    count of a room, its game record and the phase stored in it. *)
Definition seated (w : World) (clubID roomID : string) : Z :=
  Z.of_nat (size (set_at w (Keys_RoomPlayers clubID roomID))).

Definition stored_game (w : World) (clubID roomID : string) : gmap string string :=
  hash_at w (Keys_GameState clubID roomID).

Definition stored_phase (w : World) (clubID roomID : string) : string :=
  field (stored_game w clubID roomID) "phase".

(** The identifier and the start time handleGameStart computes in
    world [w]: the next two readings of the clock, formatted. *)
Definition start_game_id (w : World) (clubID roomID : string) : string :=
  time_Format "20060102150405" (wall w (reads w)) +:+ "_" +:+ clubID +:+ "_" +:+ roomID.

Definition start_time (w : World) : string :=
  time_FormatUTC RFC3339 (wall w (S (reads w))).

(** The batches the two transitions of the monitor send. *)
Definition start_batch (clubID roomID gameID startedAt : string) : list cmd :=
  [ CHSet (Keys_RoomInfo clubID roomID) "status" (AStr "gaming");
    CHSet (Keys_GameState clubID roomID) "phase" (AStr "pre_flop");
    CHSet (Keys_GameState clubID roomID) "game_id" (AStr gameID);
    CHSet (Keys_GameState clubID roomID) "started_at" (AStr startedAt);
    CHSet (Keys_GameState clubID roomID) "pot" (AInt 0);
    CHSet (Keys_GameState clubID roomID) "current_bet" (AInt 0) ].

Definition stop_batch (clubID roomID : string) : list cmd :=
  [ CHSet (Keys_RoomInfo clubID roomID) "status" (AStr "waiting");
    CHSet (Keys_GameState clubID roomID) "phase" (AStr "waiting");
    CHSet (Keys_GameState clubID roomID) "game_id" (AStr EmptyString);
    CHSet (Keys_GameState clubID roomID) "started_at" (AStr EmptyString);
    CHSet (Keys_GameState clubID roomID) "pot" (AInt 0);
    CHSet (Keys_GameState clubID roomID) "current_bet" (AInt 0);
    CHSet (Keys_GameState clubID roomID) "community_cards" (AStr "[]") ].

(** The field writes of the start transition as the specification lists
    them: room status, game phase, game id, started-at, pot and
    current-bet.  [None] for every other field of every other key. *)
Definition start_written (clubID roomID gameID startedAt : string) (key field : string)
    : option string :=
  if decide (key = Keys_RoomInfo clubID roomID /\ field = "status") then Some "gaming"
  else if decide (key = Keys_GameState clubID roomID /\ field = "phase") then Some "pre_flop"
  else if decide (key = Keys_GameState clubID roomID /\ field = "game_id") then Some gameID
  else if decide (key = Keys_GameState clubID roomID /\ field = "started_at")
       then Some startedAt
  else if decide (key = Keys_GameState clubID roomID /\ field = "pot") then Some "0"
  else if decide (key = Keys_GameState clubID roomID /\ field = "current_bet") then Some "0"
  else None.

(** A player's record after a reset, worded after the specification:
    status waiting, bet 0, no cards, no last action, the dealer and blind
    flags false; every other field as it was. *)
Definition player_reset (m : gmap string string) : gmap string string :=
  <["is_big_blind" := "0"]>
    (<["is_small_blind" := "0"]>
       (<["is_dealer" := "0"]>
          (<["last_action" := EmptyString]>
             (<["cards" := "[]"]>
                (<["bet" := "0"]>
                   (<["status" := "waiting"]> m)))))).

(** What checkRoom does once it has decided to start or to stop: it
    prints a debug line, calls the transition and prints its error. *)
Definition invoke_start (clubID roomID : string) (playersCount : Z) : M unit :=
  run logf "RoomMonitor" "DEBUG" "room %s:%s is ready to start (players: %d)"
        [clubID; roomID; pretty playersCount] in
  let* err := RoomMonitor_handleGameStart clubID roomID playersCount in
  match err with
  | Some err =>
      logf "RoomMonitor" "ERROR" "error starting the game %s:%s: %v"
        [clubID; roomID; error_text err]
  | None => ret tt
  end.

Definition invoke_stop (clubID roomID : string) (currentPhase : GamePhase)
    (playersCount : Z) : M unit :=
  run logf "RoomMonitor" "DEBUG" "room %s:%s: not enough players (left: %d)"
        [clubID; roomID; pretty playersCount] in
  let* err := RoomMonitor_handleGameStop clubID roomID currentPhase "insufficient_players" in
  match err with
  | Some err =>
      logf "RoomMonitor" "ERROR" "error stopping the game %s:%s: %v"
        [clubID; roomID; error_text err]
  | None => ret tt
  end.

(** Console lines of any level but INFO: neither [start_line] nor
    [stop_line] is among them. *)
Definition quiet (ls : list LogLine) : Prop :=
  Forall (fun l => lg_level l <> "INFO") ls.

(** The worlds that differ from [w] in the deck of the room at most,
    the console apart. *)
Definition deck_only (c r : string) (w w' : World) : Prop :=
  hashes w' = hashes w /\ sets w' = sets w /\ zsets w' = zsets w
  /\ faults w' = faults w /\ rng w' = rng w /\ wall w' = wall w /\ reads w' = reads w
  /\ forall k : string, k <> Keys_RoomDeck c r -> list_at w' k = list_at w k.

(** The console lines a run from [w] to [w'] added. *)
Definition new_lines (w w' : World) : list LogLine :=
  drop (length (console w)) (console w').

(** One step of the normal course of a hand. *)
Definition advance (g : Game) : Game := Game_SetPhase g (Game_NextPhase g).

(** Whether IsGameActive answers true on the stored game record: there is
    one, and its phase is neither [waiting] nor [finished]. *)
Definition hand_in_progress (w : World) (clubID roomID : string) : bool :=
  negb (size (stored_game w clubID roomID) =? 0)%nat
  && bool_decide (stored_phase w clubID roomID ≠ GamePhaseWaiting)
  && bool_decide (stored_phase w clubID roomID ≠ GamePhaseFinished).

(** The worlds with the sets and the sorted sets of [w]: the same seated
    players and spectators, the same indexes of active rooms. *)
Definition same_members (w w' : World) : Prop :=
  sets w' = sets w /\ zsets w' = zsets w.

(** The texts with no colon in them: the identifiers that keep the parts
    of a key apart. *)
Fixpoint colon_free (s : string) : bool :=
  match s with
  | EmptyString => true
  | String b s' => negb (Ascii.eqb b ":"%char) && colon_free s'
  end.

(** * Properties *)

Create Rewrite HintDb world.

(** ** Worlds and the monad *)

Lemma up_nil (w : World) : faults w = [] -> up w = true.
Proof. unfold up, roundtrip. intros ->. reflexivity. Qed.

Lemma pass_nil (w : World) : faults w = [] -> pass w = w.
Proof. unfold pass, roundtrip. intros ->. reflexivity. Qed.

Lemma hashes_pass (w : World) : hashes (pass w) = hashes w.
Proof. unfold pass, roundtrip. destruct (faults w); reflexivity. Qed.
Lemma sets_pass (w : World) : sets (pass w) = sets w.
Proof. unfold pass, roundtrip. destruct (faults w); reflexivity. Qed.
Lemma zsets_pass (w : World) : zsets (pass w) = zsets w.
Proof. unfold pass, roundtrip. destruct (faults w); reflexivity. Qed.
Lemma lists_pass (w : World) : lists (pass w) = lists w.
Proof. unfold pass, roundtrip. destruct (faults w); reflexivity. Qed.
Lemma console_pass (w : World) : console (pass w) = console w.
Proof. unfold pass, roundtrip. destruct (faults w); reflexivity. Qed.
Lemma wall_pass (w : World) : wall (pass w) = wall w.
Proof. unfold pass, roundtrip. destruct (faults w); reflexivity. Qed.
Lemma reads_pass (w : World) : reads (pass w) = reads w.
Proof. unfold pass, roundtrip. destruct (faults w); reflexivity. Qed.
Lemma rng_pass (w : World) : rng (pass w) = rng w.
Proof. unfold pass, roundtrip. destruct (faults w); reflexivity. Qed.
Lemma faults_pass (w : World) : faults (pass w) = tail (faults w).
Proof. unfold pass, roundtrip. destruct (faults w) eqn:E; cbn; rewrite ?E; reflexivity. Qed.

Lemma hash_at_pass (w : World) (k : string) : hash_at (pass w) k = hash_at w k.
Proof. unfold hash_at. by rewrite hashes_pass. Qed.
Lemma set_at_pass (w : World) (k : string) : set_at (pass w) k = set_at w k.
Proof. unfold set_at. by rewrite sets_pass. Qed.
Lemma zset_at_pass (w : World) (k : string) : zset_at (pass w) k = zset_at w k.
Proof. unfold zset_at. by rewrite zsets_pass. Qed.
Lemma list_at_pass (w : World) (k : string) : list_at (pass w) k = list_at w k.
Proof. unfold list_at. by rewrite lists_pass. Qed.
Lemma key_exists_pass (w : World) (k : string) : key_exists (pass w) k = key_exists w k.
Proof.
  unfold key_exists. by rewrite hash_at_pass, set_at_pass, zset_at_pass, list_at_pass.
Qed.

Lemma up_log_line (l : LogLine) (w : World) : up (log_line l w) = up w.
Proof. unfold up, roundtrip. cbn. destruct (faults w) eqn:E; cbn; rewrite ?E; reflexivity. Qed.
Lemma up_tick (w : World) : up (tick w) = up w.
Proof. unfold up, roundtrip. cbn. destruct (faults w) eqn:E; cbn; rewrite ?E; reflexivity. Qed.
Lemma up_set_hashes h (w : World) : up (set_hashes h w) = up w.
Proof. unfold up, roundtrip. cbn. destruct (faults w) eqn:E; cbn; rewrite ?E; reflexivity. Qed.
Lemma up_set_lists l (w : World) : up (set_lists l w) = up w.
Proof. unfold up, roundtrip. cbn. destruct (faults w) eqn:E; cbn; rewrite ?E; reflexivity. Qed.
Lemma up_set_rng r (w : World) : up (set_rng r w) = up w.
Proof. unfold up, roundtrip. cbn. destruct (faults w) eqn:E; cbn; rewrite ?E; reflexivity. Qed.

Lemma pass_log_line (l : LogLine) (w : World) : pass (log_line l w) = log_line l (pass w).
Proof. unfold pass, roundtrip, log_line. cbn. destruct (faults w) eqn:E; cbn; rewrite ?E; reflexivity. Qed.
Lemma pass_tick (w : World) : pass (tick w) = tick (pass w).
Proof. unfold pass, roundtrip, tick. cbn. destruct (faults w) eqn:E; cbn; rewrite ?E; reflexivity. Qed.
Lemma pass_set_hashes h (w : World) : pass (set_hashes h w) = set_hashes h (pass w).
Proof.
  unfold pass, roundtrip, set_hashes. cbn. destruct (faults w) eqn:E; cbn; rewrite ?E; reflexivity.
Qed.
Lemma pass_set_lists l (w : World) : pass (set_lists l w) = set_lists l (pass w).
Proof.
  unfold pass, roundtrip, set_lists. cbn. destruct (faults w) eqn:E; cbn; rewrite ?E; reflexivity.
Qed.
Lemma pass_set_rng r (w : World) : pass (set_rng r w) = set_rng r (pass w).
Proof.
  unfold pass, roundtrip, set_rng. cbn. destruct (faults w) eqn:E; cbn; rewrite ?E; reflexivity.
Qed.

Lemma hash_at_log_line l (w : World) k : hash_at (log_line l w) k = hash_at w k.
Proof. reflexivity. Qed.
Lemma hash_at_tick (w : World) k : hash_at (tick w) k = hash_at w k.
Proof. reflexivity. Qed.
Lemma hash_at_set_lists l (w : World) k : hash_at (set_lists l w) k = hash_at w k.
Proof. reflexivity. Qed.
Lemma hash_at_set_rng r (w : World) k : hash_at (set_rng r w) k = hash_at w k.
Proof. reflexivity. Qed.
Lemma set_at_log_line l (w : World) k : set_at (log_line l w) k = set_at w k.
Proof. reflexivity. Qed.
Lemma set_at_tick (w : World) k : set_at (tick w) k = set_at w k.
Proof. reflexivity. Qed.
Lemma set_at_set_lists l (w : World) k : set_at (set_lists l w) k = set_at w k.
Proof. reflexivity. Qed.
Lemma set_at_set_hashes h (w : World) k : set_at (set_hashes h w) k = set_at w k.
Proof. reflexivity. Qed.
Lemma set_at_set_rng r (w : World) k : set_at (set_rng r w) k = set_at w k.
Proof. reflexivity. Qed.
Lemma list_at_log_line l (w : World) k : list_at (log_line l w) k = list_at w k.
Proof. reflexivity. Qed.
Lemma list_at_tick (w : World) k : list_at (tick w) k = list_at w k.
Proof. reflexivity. Qed.
Lemma list_at_set_hashes h (w : World) k : list_at (set_hashes h w) k = list_at w k.
Proof. reflexivity. Qed.
Lemma list_at_set_rng r (w : World) k : list_at (set_rng r w) k = list_at w k.
Proof. reflexivity. Qed.
Lemma key_exists_log_line l (w : World) k : key_exists (log_line l w) k = key_exists w k.
Proof. reflexivity. Qed.
Lemma key_exists_tick (w : World) k : key_exists (tick w) k = key_exists w k.
Proof. reflexivity. Qed.

(** Projections of the worlds the setters build. *)
Lemma hashes_log_line (l : LogLine) (w : World) : hashes (log_line l w) = hashes w.
Proof. reflexivity. Qed.
Lemma sets_log_line (l : LogLine) (w : World) : sets (log_line l w) = sets w.
Proof. reflexivity. Qed.
Lemma zsets_log_line (l : LogLine) (w : World) : zsets (log_line l w) = zsets w.
Proof. reflexivity. Qed.
Lemma lists_log_line (l : LogLine) (w : World) : lists (log_line l w) = lists w.
Proof. reflexivity. Qed.
Lemma faults_log_line (l : LogLine) (w : World) : faults (log_line l w) = faults w.
Proof. reflexivity. Qed.
Lemma wall_log_line (l : LogLine) (w : World) : wall (log_line l w) = wall w.
Proof. reflexivity. Qed.
Lemma reads_log_line (l : LogLine) (w : World) : reads (log_line l w) = reads w.
Proof. reflexivity. Qed.
Lemma rng_log_line (l : LogLine) (w : World) : rng (log_line l w) = rng w.
Proof. reflexivity. Qed.
Lemma console_log_line (l : LogLine) (w : World) : console (log_line l w) = console w ++ [l].
Proof. reflexivity. Qed.
Lemma hashes_tick  (w : World) : hashes (tick w) = hashes w.
Proof. reflexivity. Qed.
Lemma sets_tick  (w : World) : sets (tick w) = sets w.
Proof. reflexivity. Qed.
Lemma zsets_tick  (w : World) : zsets (tick w) = zsets w.
Proof. reflexivity. Qed.
Lemma lists_tick  (w : World) : lists (tick w) = lists w.
Proof. reflexivity. Qed.
Lemma faults_tick  (w : World) : faults (tick w) = faults w.
Proof. reflexivity. Qed.
Lemma wall_tick  (w : World) : wall (tick w) = wall w.
Proof. reflexivity. Qed.
Lemma reads_tick  (w : World) : reads (tick w) = S (reads w).
Proof. reflexivity. Qed.
Lemma rng_tick  (w : World) : rng (tick w) = rng w.
Proof. reflexivity. Qed.
Lemma console_tick  (w : World) : console (tick w) = console w.
Proof. reflexivity. Qed.
Lemma hashes_set_hashes (h : gmap string (gmap string string)) (w : World) : hashes (set_hashes h w) = h.
Proof. reflexivity. Qed.
Lemma sets_set_hashes (h : gmap string (gmap string string)) (w : World) : sets (set_hashes h w) = sets w.
Proof. reflexivity. Qed.
Lemma zsets_set_hashes (h : gmap string (gmap string string)) (w : World) : zsets (set_hashes h w) = zsets w.
Proof. reflexivity. Qed.
Lemma lists_set_hashes (h : gmap string (gmap string string)) (w : World) : lists (set_hashes h w) = lists w.
Proof. reflexivity. Qed.
Lemma faults_set_hashes (h : gmap string (gmap string string)) (w : World) : faults (set_hashes h w) = faults w.
Proof. reflexivity. Qed.
Lemma wall_set_hashes (h : gmap string (gmap string string)) (w : World) : wall (set_hashes h w) = wall w.
Proof. reflexivity. Qed.
Lemma reads_set_hashes (h : gmap string (gmap string string)) (w : World) : reads (set_hashes h w) = reads w.
Proof. reflexivity. Qed.
Lemma rng_set_hashes (h : gmap string (gmap string string)) (w : World) : rng (set_hashes h w) = rng w.
Proof. reflexivity. Qed.
Lemma console_set_hashes (h : gmap string (gmap string string)) (w : World) : console (set_hashes h w) = console w.
Proof. reflexivity. Qed.
Lemma hashes_set_lists (l : gmap string (list string)) (w : World) : hashes (set_lists l w) = hashes w.
Proof. reflexivity. Qed.
Lemma sets_set_lists (l : gmap string (list string)) (w : World) : sets (set_lists l w) = sets w.
Proof. reflexivity. Qed.
Lemma zsets_set_lists (l : gmap string (list string)) (w : World) : zsets (set_lists l w) = zsets w.
Proof. reflexivity. Qed.
Lemma lists_set_lists (l : gmap string (list string)) (w : World) : lists (set_lists l w) = l.
Proof. reflexivity. Qed.
Lemma faults_set_lists (l : gmap string (list string)) (w : World) : faults (set_lists l w) = faults w.
Proof. reflexivity. Qed.
Lemma wall_set_lists (l : gmap string (list string)) (w : World) : wall (set_lists l w) = wall w.
Proof. reflexivity. Qed.
Lemma reads_set_lists (l : gmap string (list string)) (w : World) : reads (set_lists l w) = reads w.
Proof. reflexivity. Qed.
Lemma rng_set_lists (l : gmap string (list string)) (w : World) : rng (set_lists l w) = rng w.
Proof. reflexivity. Qed.
Lemma console_set_lists (l : gmap string (list string)) (w : World) : console (set_lists l w) = console w.
Proof. reflexivity. Qed.
Lemma hashes_set_rng (g : RngState) (w : World) : hashes (set_rng g w) = hashes w.
Proof. reflexivity. Qed.
Lemma sets_set_rng (g : RngState) (w : World) : sets (set_rng g w) = sets w.
Proof. reflexivity. Qed.
Lemma zsets_set_rng (g : RngState) (w : World) : zsets (set_rng g w) = zsets w.
Proof. reflexivity. Qed.
Lemma lists_set_rng (g : RngState) (w : World) : lists (set_rng g w) = lists w.
Proof. reflexivity. Qed.
Lemma faults_set_rng (g : RngState) (w : World) : faults (set_rng g w) = faults w.
Proof. reflexivity. Qed.
Lemma wall_set_rng (g : RngState) (w : World) : wall (set_rng g w) = wall w.
Proof. reflexivity. Qed.
Lemma reads_set_rng (g : RngState) (w : World) : reads (set_rng g w) = reads w.
Proof. reflexivity. Qed.
Lemma rng_set_rng (g : RngState) (w : World) : rng (set_rng g w) = g.
Proof. reflexivity. Qed.
Lemma console_set_rng (g : RngState) (w : World) : console (set_rng g w) = console w.
Proof. reflexivity. Qed.
Lemma sets_hset (k f : string) (v : arg) (w : World) : sets (hset k f v w) = sets w.
Proof. reflexivity. Qed.
Lemma zsets_hset (k f : string) (v : arg) (w : World) : zsets (hset k f v w) = zsets w.
Proof. reflexivity. Qed.
Lemma lists_hset (k f : string) (v : arg) (w : World) : lists (hset k f v w) = lists w.
Proof. reflexivity. Qed.
Lemma faults_hset (k f : string) (v : arg) (w : World) : faults (hset k f v w) = faults w.
Proof. reflexivity. Qed.
Lemma wall_hset (k f : string) (v : arg) (w : World) : wall (hset k f v w) = wall w.
Proof. reflexivity. Qed.
Lemma reads_hset (k f : string) (v : arg) (w : World) : reads (hset k f v w) = reads w.
Proof. reflexivity. Qed.
Lemma rng_hset (k f : string) (v : arg) (w : World) : rng (hset k f v w) = rng w.
Proof. reflexivity. Qed.
Lemma console_hset (k f : string) (v : arg) (w : World) : console (hset k f v w) = console w.
Proof. reflexivity. Qed.

Lemma list_at_hset k f v (w : World) k' : list_at (hset k f v w) k' = list_at w k'.
Proof. reflexivity. Qed.
Lemma set_at_hset k f v (w : World) k' : set_at (hset k f v w) k' = set_at w k'.
Proof. reflexivity. Qed.
Lemma up_hset k f v (w : World) : up (hset k f v w) = up w.
Proof. unfold hset. apply up_set_hashes. Qed.
Lemma pass_hset k f v (w : World) : pass (hset k f v w) = hset k f v (pass w).
Proof. unfold hset. by rewrite pass_set_hashes, hash_at_pass, hashes_pass. Qed.

Lemma same_data_refl (w : World) : same_data w w.
Proof. by repeat split. Qed.

Lemma same_data_trans (w1 w2 w3 : World) :
  same_data w1 w2 -> same_data w2 w3 -> same_data w1 w3.
Proof.
  unfold same_data. intros (?&?&?&?) (?&?&?&?). repeat split; congruence.
Qed.

Lemma new_lines_app (w w' : World) (ls : list LogLine) :
  console w' = console w ++ ls -> new_lines w w' = ls.
Proof. unfold new_lines. intros ->. by rewrite drop_app_length. Qed.

(** ** The phase state machine *)

Lemma validTransitions_lookup (p : string) :
  validTransitions !! p =
    if decide (p = "waiting") then Some ["pre_flop"]
    else if decide (p = "pre_flop") then Some ["flop"; "showdown"; "finished"]
    else if decide (p = "flop") then Some ["turn"; "showdown"; "finished"]
    else if decide (p = "turn") then Some ["river"; "showdown"; "finished"]
    else if decide (p = "river") then Some ["showdown"; "finished"]
    else if decide (p = "showdown") then Some ["finished"; "pre_flop"]
    else if decide (p = "finished") then Some ["waiting"; "pre_flop"]
    else None.
Proof.
  unfold validTransitions, GamePhaseWaiting, GamePhasePreFlop, GamePhaseFlop,
    GamePhaseTurn, GamePhaseRiver, GamePhaseShowdown, GamePhaseFinished.
  cbn [list_to_map foldr fst snd].
  repeat (case_decide;
          [ subst p; repeat (rewrite lookup_insert_ne by discriminate);
            by rewrite lookup_insert_eq
          | rewrite (lookup_insert_ne _ _ p) by congruence ]).
  apply lookup_empty.
Qed.

Lemma phase_listed_In (allowed : list GamePhase) (next : GamePhase) :
  phase_listed allowed next = true <-> In next allowed.
Proof.
  induction allowed as [|a rest IH]; cbn [phase_listed In].
  - split; [discriminate | tauto].
  - case_bool_decide as Ha.
    + split; auto.
    + rewrite IH. split; [auto | intros [?|?]; [contradiction | assumption]].
Qed.

(** C4.  For every pair of phase names, [CanTransitionTo] answers true
    exactly on the pairs of the specification's transition table; every
    other pair, among the seven phases or not, is rejected.  The check
    is a function of its two arguments alone: it reads no state. *)
Theorem C4_CanTransitionTo_matches_table :
  forall (g : Game) (nextPhase : GamePhase),
    Game_CanTransitionTo g nextPhase = true <-> In (Phase g, nextPhase) phase_table.
Proof.
  intros g next. unfold Game_CanTransitionTo.
  rewrite validTransitions_lookup.
  repeat case_decide;
    try (match goal with H : Phase g = _ |- _ => rewrite H end;
         rewrite phase_listed_In; unfold phase_table; cbn [In];
         split;
         [ intros Hin; repeat destruct Hin as [<- | Hin];
           solve [ repeat (first [ left; reflexivity | right ]) | contradiction ]
         | intros Hin;
           repeat (destruct Hin as [Heq | Hin];
                   [ apply pair_equal_spec in Heq as [Ha Hb];
                     first [ discriminate Ha
                           | subst next;
                             solve [ repeat (first [ left; reflexivity | right ]) ] ]
                   | ]);
           contradiction ]).
  split; [discriminate |].
  unfold phase_table; cbn [In]. intros Hin.
  repeat (destruct Hin as [Heq | Hin];
          [ apply pair_equal_spec in Heq as [Ha _]; congruence | ]).
  contradiction.
Qed.

(** ** Equations of the services *)

#[local] Hint Rewrite hashes_pass sets_pass zsets_pass lists_pass console_pass wall_pass
  reads_pass rng_pass hash_at_pass set_at_pass zset_at_pass list_at_pass key_exists_pass
  up_log_line up_tick up_set_hashes up_set_lists up_set_rng
  pass_log_line pass_tick pass_set_hashes pass_set_lists pass_set_rng
  hash_at_log_line hash_at_tick hash_at_set_lists hash_at_set_rng
  set_at_log_line set_at_tick set_at_set_lists set_at_set_hashes set_at_set_rng
  list_at_log_line list_at_tick list_at_set_hashes list_at_set_rng
  key_exists_log_line key_exists_tick : world.

#[local] Hint Rewrite hashes_log_line sets_log_line zsets_log_line lists_log_line
  faults_log_line wall_log_line reads_log_line rng_log_line console_log_line hashes_tick
  sets_tick zsets_tick lists_tick faults_tick wall_tick reads_tick rng_tick console_tick
  hashes_set_hashes sets_set_hashes zsets_set_hashes lists_set_hashes faults_set_hashes
  wall_set_hashes reads_set_hashes rng_set_hashes console_set_hashes hashes_set_lists
  sets_set_lists zsets_set_lists lists_set_lists faults_set_lists wall_set_lists
  reads_set_lists rng_set_lists console_set_lists hashes_set_rng sets_set_rng zsets_set_rng
  lists_set_rng faults_set_rng wall_set_rng reads_set_rng rng_set_rng console_set_rng
  sets_hset zsets_hset lists_hset faults_hset wall_hset reads_hset rng_hset console_hset :
  world.
#[local] Hint Rewrite list_at_hset set_at_hset up_hset pass_hset : world.

Lemma reached_log_line (l : LogLine) (w : World) : reached (log_line l w) = reached w.
Proof. reflexivity. Qed.
Lemma reached_tick (w : World) : reached (tick w) = reached w.
Proof. reflexivity. Qed.
Lemma reached_set_hashes (h : gmap string (gmap string string)) (w : World) :
  reached (set_hashes h w) = reached w.
Proof. reflexivity. Qed.
Lemma reached_set_lists (l : gmap string (list string)) (w : World) :
  reached (set_lists l w) = reached w.
Proof. reflexivity. Qed.
Lemma reached_set_rng (g : RngState) (w : World) : reached (set_rng g w) = reached w.
Proof. reflexivity. Qed.
Lemma reached_hset (k f : string) (v : arg) (w : World) : reached (hset k f v w) = reached w.
Proof. reflexivity. Qed.

#[local] Hint Rewrite reached_log_line reached_tick reached_set_hashes reached_set_lists
  reached_set_rng reached_hset : world.

(** The lemmas of the [world] database take the projections of a world
    built by the setters, and [pass] and the readers, to the world they
    started from. *)
Ltac wsimp := cbn beta iota zeta delta [fst snd]; autorewrite with world.

Lemma GetPlayersCount_eq (c r : string) (w : World) :
  GameStateService_GetPlayersCount c r w =
    if up w then (Ok (seated w c r), pass w)
    else (Err StoreUnavailable,
          log_line (mkLogLine "GameState" "ERROR"
                      "error reading the number of players in room %s:%s: %v"
                      [c; r; error_text StoreUnavailable])
            (log_line (redis_line ("SCARD " +:+ Keys_RoomPlayers c r) StoreUnavailable)
               (pass w))).
Proof.
  unfold GameStateService_GetPlayersCount, RedisClient_SCard, client_SCard, wrap,
    RedisError, command, logf, bind, ret, seated.
  destruct (up w); wsimp; reflexivity.
Qed.

Lemma GetGameState_eq (c r : string) (w : World) :
  GameStateService_GetGameState c r w =
    if up w then
      (Ok (if (size (stored_game w c r) =? 0)%nat then None
           else Some (with_room (parse_game (stored_game w c r)) c r)), pass w)
    else (Err StoreUnavailable,
          log_line (mkLogLine "GameState" "ERROR" "error reading the game state %s:%s: %v"
                      [c; r; error_text StoreUnavailable])
            (log_line (redis_line ("HGETALL " +:+ Keys_GameState c r) StoreUnavailable)
               (pass w))).
Proof.
  unfold GameStateService_GetGameState, RedisClient_HGetAll, client_HGetAll, wrap,
    RedisError, command, logf, bind, ret, NewGameFromRedis, stored_game.
  destruct (up w); wsimp; [|reflexivity].
  destruct (size (hash_at w (Keys_GameState c r)) =? 0)%nat; reflexivity.
Qed.

Lemma LogAction_eq (c r action : string) (data : list (string * jvalue)) (w : World) :
  ActionLogger_LogAction c r action data w =
    let entry := json_Marshal_action (mkActionData action (wall w (reads w)) "game_engine" data) in
    if up w then
      (None, set_lists (<[Keys_RoomActions c r := list_at w (Keys_RoomActions c r) ++ [entry]]>
                          (lists w)) (tick (pass w)))
    else
      (Some StoreUnavailable,
       log_line (mkLogLine "ActionLogger" "ERROR" "error writing action '%s' to Redis: %v"
                   [action; error_text StoreUnavailable])
         (log_line (redis_line ("RPUSH " +:+ Keys_RoomActions c r) StoreUnavailable)
            (tick (pass w)))).
Proof.
  unfold ActionLogger_LogAction, GetCurrentTimestamp, time_Now, RedisClient_RPush,
    client_RPush, wrap, RedisError, command, logf, bind, ret.
  wsimp. destruct (up w); wsimp; reflexivity.
Qed.


(** ** The transitions of the monitor *)

Lemma handleGameStart_eq (c r : string) (n : Z) (w : World) :
  RoomMonitor_handleGameStart c r n w =
    let gameID := start_game_id w c r in
    let w1 := tick (tick (log_line (start_line c r) (pass w))) in
    if up w then
      (None,
       log_line (mkLogLine "RoomMonitor" "GAME" "game started" [c; r; gameID; pretty n])
         (snd (ActionLogger_LogGameStarted c r gameID n
                 (fold_left run_cmd (start_batch c r gameID (start_time w)) w1))))
    else (Some StoreUnavailable,
          fold_left run_cmd (take (reached w) (start_batch c r gameID (start_time w))) w1).
Proof.
  unfold RoomMonitor_handleGameStart, GetCurrentTime, GetISO8601Time, time_Now, pipe_Exec,
    logf, bind, ret, start_game_id, start_time, start_batch, start_line.
  wsimp. cbn [pipe_HSet RedisClient_Pipeline app]. destruct (up w); wsimp; [|reflexivity].
  match goal with |- context [ActionLogger_LogGameStarted ?a ?b ?g ?m ?x] =>
    destruct (ActionLogger_LogGameStarted a b g m x) end.
  reflexivity.
Qed.

Lemma handleGameStop_eq (c r previousPhase reason : string) (w : World) :
  RoomMonitor_handleGameStop c r previousPhase reason w =
    let w1 := log_line (stop_line c r) (pass w) in
    if up w then
      (None,
       log_line (mkLogLine "RoomMonitor" "GAME" "game stopped" [c; r; previousPhase; reason])
         (snd (ActionLogger_LogGameStopped c r previousPhase reason
                 (fold_left run_cmd (stop_batch c r) w1))))
    else (Some StoreUnavailable,
          fold_left run_cmd (take (reached w) (stop_batch c r)) w1).
Proof.
  unfold RoomMonitor_handleGameStop, pipe_Exec, logf, bind, ret, stop_batch,
    stop_line.
  wsimp. cbn [pipe_HSet RedisClient_Pipeline app]. destruct (up w); wsimp; [|reflexivity].
  match goal with |- context [ActionLogger_LogGameStopped ?a ?b ?g ?m ?x] =>
    destruct (ActionLogger_LogGameStopped a b g m x) end.
  reflexivity.
Qed.


(** *** Batches: what they change and what they leave *)

Lemma run_batch_frame (b : list cmd) (w : World) :
  sets (fold_left run_cmd b w) = sets w /\ zsets (fold_left run_cmd b w) = zsets w /\
  lists (fold_left run_cmd b w) = lists w /\ console (fold_left run_cmd b w) = console w /\
  faults (fold_left run_cmd b w) = faults w /\ wall (fold_left run_cmd b w) = wall w /\
  reads (fold_left run_cmd b w) = reads w /\ rng (fold_left run_cmd b w) = rng w.
Proof.
  revert w. induction b as [|[k f v] b IH]; intros w; cbn [fold_left run_cmd].
  - by repeat split.
  - destruct (IH (hset k f v w)) as (-> & -> & -> & -> & -> & -> & -> & ->).
    by repeat split.
Qed.

Lemma sets_run_batch b (w : World) : sets (fold_left run_cmd b w) = sets w.
Proof. apply run_batch_frame. Qed.
Lemma zsets_run_batch b (w : World) : zsets (fold_left run_cmd b w) = zsets w.
Proof. apply run_batch_frame. Qed.
Lemma lists_run_batch b (w : World) : lists (fold_left run_cmd b w) = lists w.
Proof. apply run_batch_frame. Qed.
Lemma console_run_batch b (w : World) : console (fold_left run_cmd b w) = console w.
Proof. apply run_batch_frame. Qed.
Lemma faults_run_batch b (w : World) : faults (fold_left run_cmd b w) = faults w.
Proof. apply run_batch_frame. Qed.
Lemma wall_run_batch b (w : World) : wall (fold_left run_cmd b w) = wall w.
Proof. apply run_batch_frame. Qed.
Lemma reads_run_batch b (w : World) : reads (fold_left run_cmd b w) = reads w.
Proof. apply run_batch_frame. Qed.
Lemma list_at_run_batch b (w : World) k : list_at (fold_left run_cmd b w) k = list_at w k.
Proof. unfold list_at. by rewrite lists_run_batch. Qed.
Lemma set_at_run_batch b (w : World) k : set_at (fold_left run_cmd b w) k = set_at w k.
Proof. unfold set_at. by rewrite sets_run_batch. Qed.
Lemma up_run_batch b (w : World) : up (fold_left run_cmd b w) = up w.
Proof. unfold up, roundtrip. by rewrite faults_run_batch; destruct (faults w). Qed.

#[local] Hint Rewrite sets_run_batch zsets_run_batch lists_run_batch console_run_batch
  wall_run_batch reads_run_batch list_at_run_batch set_at_run_batch up_run_batch : world.

Lemma hset_lookup (k f : string) (v : arg) (w : World) (k' f' : string) :
  hash_at (hset k f v w) k' !! f' =
    if decide (k' = k /\ f' = f) then Some (encode_arg v) else hash_at w k' !! f'.
Proof.
  unfold hset, hash_at at 1. cbn [hashes set_hashes].
  destruct (decide (k' = k)) as [->|Hk].
  - rewrite lookup_insert_eq. cbn [default from_option id].
    destruct (decide (f' = f)) as [->|Hf].
    + rewrite lookup_insert_eq. by rewrite decide_True.
    + rewrite lookup_insert_ne by congruence. by rewrite decide_False by tauto.
  - rewrite lookup_insert_ne by congruence. by rewrite decide_False by tauto.
Qed.

Lemma hset_other (k f : string) (v : arg) (w : World) (k' : string) :
  k' <> k -> hash_at (hset k f v w) k' = hash_at w k'.
Proof.
  intros Hk. unfold hset, hash_at at 1. cbn [hashes set_hashes].
  by rewrite lookup_insert_ne by congruence.
Qed.

(** *** The action log *)

Lemma LogAction_hashes c r action data (w : World) :
  hashes (snd (ActionLogger_LogAction c r action data w)) = hashes w.
Proof. rewrite LogAction_eq. cbn zeta. destruct (up w); wsimp; reflexivity. Qed.

Lemma LogAction_sets c r action data (w : World) :
  sets (snd (ActionLogger_LogAction c r action data w)) = sets w
  /\ zsets (snd (ActionLogger_LogAction c r action data w)) = zsets w.
Proof. rewrite LogAction_eq. cbn zeta. destruct (up w); wsimp; by split. Qed.

Lemma LogAction_console c r action data (w : World) :
  console (snd (ActionLogger_LogAction c r action data w)) =
    console w ++
    if up w then []
    else [ redis_line ("RPUSH " +:+ Keys_RoomActions c r) StoreUnavailable;
           mkLogLine "ActionLogger" "ERROR" "error writing action '%s' to Redis: %v"
             [action; error_text StoreUnavailable] ].
Proof.
  rewrite LogAction_eq. cbn zeta. destruct (up w); wsimp.
  - by rewrite app_nil_r.
  - by rewrite <- app_assoc.
Qed.

(** Keys of one room are pairwise distinct. *)
Lemma append_inj_l (s a b : string) : s +:+ a = s +:+ b -> a = b.
Proof. induction s as [|ch s IH]; cbn; [auto | intros [=]; auto]. Qed.

Lemma RoomInfo_ne_GameState (c r : string) : Keys_RoomInfo c r <> Keys_GameState c r.
Proof.
  unfold Keys_RoomInfo, Keys_GameState. intros H.
  repeat apply append_inj_l in H. discriminate H.
Qed.

Lemma PlayerInfo_ne_RoomInfo (c r u : string) : Keys_PlayerInfo c r u <> Keys_RoomInfo c r.
Proof.
  unfold Keys_PlayerInfo, Keys_RoomInfo. intros H.
  do 4 apply append_inj_l in H. discriminate H.
Qed.

Lemma PlayerInfo_ne_GameState (c r u : string) : Keys_PlayerInfo c r u <> Keys_GameState c r.
Proof.
  unfold Keys_PlayerInfo, Keys_GameState. intros H.
  do 4 apply append_inj_l in H. discriminate H.
Qed.

Lemma PlayerInfo_inj (c r u u' : string) :
  Keys_PlayerInfo c r u = Keys_PlayerInfo c r u' -> u = u'.
Proof.
  unfold Keys_PlayerInfo. intros H. by do 5 apply append_inj_l in H.
Qed.


(** *** The per-room check *)

Lemma stored_game_pass (w : World) c r : stored_game (pass w) c r = stored_game w c r.
Proof. unfold stored_game. by rewrite hash_at_pass. Qed.
Lemma stored_phase_pass (w : World) c r : stored_phase (pass w) c r = stored_phase w c r.
Proof. unfold stored_phase. by rewrite stored_game_pass. Qed.
Lemma seated_pass (w : World) c r : seated (pass w) c r = seated w c r.
Proof. unfold seated. by rewrite set_at_pass. Qed.

#[local] Hint Rewrite stored_game_pass stored_phase_pass seated_pass : world.

Lemma checkRoom_eq (config : EngineConfig) (c r : string) (w : World) :
  RoomMonitor_checkRoom config c r w =
    if up w then
      if up (pass w) then
        if (size (stored_game w c r) =? 0)%nat then (tt, pass (pass w))
        else if (MinPlayersToStart config <=? seated w c r)%Z
                && bool_decide (stored_phase w c r = "waiting")
        then invoke_start c r (seated w c r) (pass (pass w))
        else if (seated w c r <? MinPlayersToStart config)%Z
                && bool_decide (stored_phase w c r ≠ "waiting")
        then invoke_stop c r (stored_phase w c r) (seated w c r) (pass (pass w))
        else (tt, pass (pass w))
      else
        (tt, log_line (mkLogLine "RoomMonitor" "ERROR" "error reading the game state %s:%s: %v"
                         [c; r; error_text StoreUnavailable])
               (snd (GameStateService_GetGameState c r (pass w))))
    else
      (tt, log_line (mkLogLine "RoomMonitor" "ERROR"
                       "error reading the number of players in room %s:%s: %v"
                       [c; r; error_text StoreUnavailable])
             (snd (GameStateService_GetPlayersCount c r w))).
Proof.
  unfold RoomMonitor_checkRoom. unfold bind at 1. rewrite GetPlayersCount_eq.
  destruct (up w); [|reflexivity].
  unfold bind at 1. rewrite GetGameState_eq. wsimp.
  destruct (up (pass w)); [|reflexivity].
  unfold stored_phase. wsimp.
  destruct (size (stored_game w c r) =? 0)%nat; [reflexivity|].
  cbn [Phase with_room parse_game].
  destruct (_ && _); [reflexivity|].
  destruct (_ && _); [reflexivity|].
  destruct (_ && _); reflexivity.
Qed.


(** *** What the transitions print *)

Lemma quiet_not_mark (ls : list LogLine) (l : LogLine) :
  quiet ls -> lg_level l = "INFO" -> l ∉ ls.
Proof.
  unfold quiet. intros Hq Hl Hin. rewrite Forall_forall in Hq.
  exact (Hq l Hin Hl).
Qed.

Lemma LogAction_quiet c r action data (w : World) :
  exists ls, console (snd (ActionLogger_LogAction c r action data w)) = console w ++ ls
             /\ quiet ls.
Proof.
  rewrite LogAction_console. eexists. split; [reflexivity|].
  destruct (up w); unfold quiet; repeat constructor; discriminate.
Qed.

Lemma handleGameStart_console (c r : string) (n : Z) (w : World) :
  exists ls, console (snd (RoomMonitor_handleGameStart c r n w))
             = console w ++ start_line c r :: ls /\ quiet ls.
Proof.
  rewrite handleGameStart_eq. cbn zeta. destruct (up w); wsimp.
  - unfold ActionLogger_LogGameStarted.
    match goal with |- context [ActionLogger_LogAction ?a ?b ?x ?d ?y] =>
      destruct (LogAction_quiet a b x d y) as (ls & -> & Hq) end.
    wsimp. exists (ls ++ [mkLogLine "RoomMonitor" "GAME" "game started"
                            [c; r; start_game_id w c r; pretty n]]).
    split.
    + by rewrite <- !app_assoc.
    + apply Forall_app. split; [exact Hq|]. repeat constructor. discriminate.
  - exists []. split; [reflexivity | constructor].
Qed.

Lemma handleGameStop_console (c r previousPhase reason : string) (w : World) :
  exists ls, console (snd (RoomMonitor_handleGameStop c r previousPhase reason w))
             = console w ++ stop_line c r :: ls /\ quiet ls.
Proof.
  rewrite handleGameStop_eq. cbn zeta. destruct (up w); wsimp.
  - unfold ActionLogger_LogGameStopped.
    match goal with |- context [ActionLogger_LogAction ?a ?b ?x ?d ?y] =>
      destruct (LogAction_quiet a b x d y) as (ls & -> & Hq) end.
    wsimp. exists (ls ++ [mkLogLine "RoomMonitor" "GAME" "game stopped"
                            [c; r; previousPhase; reason]]).
    split.
    + by rewrite <- !app_assoc.
    + apply Forall_app. split; [exact Hq|]. repeat constructor. discriminate.
  - exists []. split; [reflexivity | constructor].
Qed.

Lemma invoke_start_console (c r : string) (n : Z) (w : World) :
  exists l ls, console (snd (invoke_start c r n w)) = console w ++ l :: start_line c r :: ls
               /\ quiet (l :: ls).
Proof.
  unfold invoke_start, logf, ret. unfold bind at 1. cbn beta iota.
  unfold bind. destruct (handleGameStart_console c r n
    (log_line (mkLogLine "RoomMonitor" "DEBUG" "room %s:%s is ready to start (players: %d)"
                 [c; r; pretty n]) w)) as (ls & Hc & Hq).
  destruct (RoomMonitor_handleGameStart _ _ _ _) as [[err|] w1]; cbn [snd] in *;
    wsimp; rewrite Hc; wsimp; rewrite <- ?app_assoc; cbn [app];
    eexists _, _; (split; [reflexivity|]).
  - constructor; [discriminate|]. apply Forall_app. split; [exact Hq|].
    repeat constructor. discriminate.
  - constructor; [discriminate | exact Hq].
Qed.

Lemma invoke_stop_console (c r phase : string) (n : Z) (w : World) :
  exists l ls, console (snd (invoke_stop c r phase n w)) = console w ++ l :: stop_line c r :: ls
               /\ quiet (l :: ls).
Proof.
  unfold invoke_stop, logf, ret. unfold bind at 1. cbn beta iota.
  unfold bind. destruct (handleGameStop_console c r phase "insufficient_players"
    (log_line (mkLogLine "RoomMonitor" "DEBUG" "room %s:%s: not enough players (left: %d)"
                 [c; r; pretty n]) w)) as (ls & Hc & Hq).
  destruct (RoomMonitor_handleGameStop _ _ _ _ _) as [[err|] w1]; cbn [snd] in *;
    wsimp; rewrite Hc; wsimp; rewrite <- ?app_assoc; cbn [app];
    eexists _, _; (split; [reflexivity|]).
  - constructor; [discriminate|]. apply Forall_app. split; [exact Hq|].
    repeat constructor. discriminate.
  - constructor; [discriminate | exact Hq].
Qed.

Lemma start_line_ne_stop_line (c r : string) : start_line c r <> stop_line c r.
Proof. discriminate. Qed.


Lemma same_data_pass (w : World) : same_data w (pass w).
Proof. unfold same_data. by wsimp. Qed.

Lemma size_zero_empty (m : gmap string string) : (size m =? 0)%nat = true <-> m = ∅.
Proof. rewrite Nat.eqb_eq. apply map_size_empty_iff. Qed.

Lemma new_lines_same (w w' : World) : console w' = console w -> new_lines w w' = [].
Proof. intros H. apply new_lines_app. by rewrite app_nil_r. Qed.

(** C1.  The decision rule of the monitor.  When both reads of the
    per-room check go through: a room whose game record is absent is
    skipped, nothing is written or printed; otherwise the start
    transition is invoked iff the seated-player count is at least
    MinPlayersToStart and the stored phase is "waiting"; failing that,
    the stop transition is invoked, with the current phase as previous
    phase and the reason "insufficient_players", iff the count is below
    MinPlayersToStart and the phase is not "waiting"; failing both,
    nothing is invoked.  The two conditions exclude each other. *)
Theorem C1_monitor_decision_rule (config : EngineConfig) (c r : string) (w : World) :
  up w = true -> up (pass w) = true ->
  let n := seated w c r in
  let phase := stored_phase w c r in
  let start := (MinPlayersToStart config <= n)%Z /\ phase = "waiting" in
  let stop := (n < MinPlayersToStart config)%Z /\ phase <> "waiting" in
  let w' := snd (RoomMonitor_checkRoom config c r w) in
  (stored_game w c r = ∅ -> w' = pass (pass w) /\ same_data w w' /\ new_lines w w' = [])
  /\ (stored_game w c r <> ∅ ->
        (start -> RoomMonitor_checkRoom config c r w = invoke_start c r n (pass (pass w)))
        /\ (stop -> RoomMonitor_checkRoom config c r w
                    = invoke_stop c r phase n (pass (pass w)))
        /\ (~ start -> ~ stop ->
            w' = pass (pass w) /\ same_data w w' /\ new_lines w w' = [])
        /\ (start_line c r ∈ new_lines w w' <-> start)
        /\ (stop_line c r ∈ new_lines w w' <-> stop)
        /\ ~ (start /\ stop)).
Proof.
  intros Hup1 Hup2 n phase start stop w'.
  assert (Hskip : forall w0 : World, w0 = pass (pass w) ->
            w0 = pass (pass w) /\ same_data w w0 /\ new_lines w w0 = []).
  { intros w0 ->. split; [reflexivity|]. split.
    - eapply same_data_trans; apply same_data_pass.
    - apply new_lines_same. by wsimp. }
  subst w'. rewrite checkRoom_eq, Hup1, Hup2. fold n phase.
  split.
  - intros Hempty. apply size_zero_empty in Hempty. rewrite Hempty. by apply Hskip.
  - intros Hgame.
    destruct (size (stored_game w c r) =? 0)%nat eqn:Hsz;
      [apply size_zero_empty in Hsz; contradiction|].
    assert (Hstart : ((MinPlayersToStart config <=? n)%Z
                      && bool_decide (phase = "waiting")) = true <-> start).
    { rewrite andb_true_iff, Z.leb_le, bool_decide_eq_true. reflexivity. }
    assert (Hstop : ((n <? MinPlayersToStart config)%Z
                     && bool_decide (phase ≠ "waiting")) = true <-> stop).
    { rewrite andb_true_iff, Z.ltb_lt, bool_decide_eq_true. reflexivity. }
    assert (Hexcl : ~ (start /\ stop)) by (unfold start, stop; lia).
    destruct ((MinPlayersToStart config <=? n)%Z && bool_decide (phase = "waiting"))
      eqn:Hc1.
    + (* the start transition *)
      assert (Hs : start) by (by apply Hstart).
      destruct (invoke_start_console c r n (pass (pass w))) as (l & ls & Hcons & Hq).
      revert Hcons. wsimp. intros Hcons.
      rewrite (new_lines_app _ _ _ Hcons).
      split; [reflexivity|]. split; [tauto|]. split; [tauto|].
      split; [|split; [|exact Hexcl]].
      * split; [intros _; exact Hs|].
        intros _. apply elem_of_cons. right. apply elem_of_cons. by left.
      * split; [|tauto].
        intros Hin. exfalso. apply elem_of_cons in Hin as [Hin|Hin].
        { apply Forall_cons in Hq as [Hl _]. by rewrite <- Hin in Hl. }
        apply elem_of_cons in Hin as [Hin|Hin]; [discriminate Hin|].
        apply Forall_cons in Hq as [_ Hq].
        by apply (quiet_not_mark ls (stop_line c r) Hq).
    + assert (Hns : ~ start) by (rewrite <- Hstart; congruence).
      destruct ((n <? MinPlayersToStart config)%Z && bool_decide (phase ≠ "waiting"))
        eqn:Hc2.
      * (* the stop transition *)
        assert (Hs : stop) by (by apply Hstop).
        destruct (invoke_stop_console c r phase n (pass (pass w)))
          as (l & ls & Hcons & Hq).
        revert Hcons. wsimp. intros Hcons.
        rewrite (new_lines_app _ _ _ Hcons).
        split; [tauto|]. split; [reflexivity|]. split; [tauto|].
        split; [|split; [|exact Hexcl]].
        -- split; [|tauto].
           intros Hin. exfalso. apply elem_of_cons in Hin as [Hin|Hin].
           { apply Forall_cons in Hq as [Hl _]. by rewrite <- Hin in Hl. }
           apply elem_of_cons in Hin as [Hin|Hin]; [discriminate Hin|].
           apply Forall_cons in Hq as [_ Hq].
           by apply (quiet_not_mark ls (start_line c r) Hq).
        -- split; [intros _; exact Hs|].
           intros _. apply elem_of_cons. right. apply elem_of_cons. by left.
      * (* no transition *)
        assert (Hnp : ~ stop) by (rewrite <- Hstop; congruence).
        cbn [snd]. destruct (Hskip _ eq_refl) as (_ & Hd & Hn).
        rewrite Hn.
        split; [tauto|]. split; [tauto|]. split; [by intros _ _|].
        split; [|split; [|exact Hexcl]];
          (split; [intros Hin; by apply not_elem_of_nil in Hin | tauto]).
Qed.

(** C10.  A room whose stored phase is "finished" and whose
    seated-player count is at least MinPlayersToStart: the per-room
    check invokes neither transition and leaves every stored record as
    it was, whether its reads go through or not. *)
Theorem C10_finished_room_is_left_alone (config : EngineConfig) (c r : string) (w : World) :
  stored_phase w c r = "finished" ->
  (MinPlayersToStart config <= seated w c r)%Z ->
  let w' := snd (RoomMonitor_checkRoom config c r w) in
  same_data w w'
  /\ (start_line c r ∉ new_lines w w')
  /\ (stop_line c r ∉ new_lines w w').
Proof.
  intros Hph Hn w'. subst w'. rewrite checkRoom_eq.
  destruct (up w) eqn:Hup1.
  - destruct (up (pass w)) eqn:Hup2.
    + assert (Hw : same_data w (pass (pass w)) /\ new_lines w (pass (pass w)) = []).
      { split; [eapply same_data_trans; apply same_data_pass|].
        apply new_lines_same. by wsimp. }
      rewrite Hph.
      replace (seated w c r <? MinPlayersToStart config)%Z with false
        by (symmetry; apply Z.ltb_ge; lia).
      rewrite bool_decide_eq_false_2 by discriminate.
      rewrite andb_false_r. cbn [andb].
      destruct (size (stored_game w c r) =? 0)%nat; cbn [snd];
        destruct Hw as [Hd ->]; (split; [exact Hd|]); split; apply not_elem_of_nil.
    + rewrite GetGameState_eq. wsimp. rewrite Hup2. cbn [snd]. split.
      * unfold same_data. by wsimp.
      * rewrite (new_lines_app w _
          [redis_line ("HGETALL " +:+ Keys_GameState c r) StoreUnavailable;
           mkLogLine "GameState" "ERROR" "error reading the game state %s:%s: %v"
             [c; r; error_text StoreUnavailable];
           mkLogLine "RoomMonitor" "ERROR" "error reading the game state %s:%s: %v"
             [c; r; error_text StoreUnavailable]])
          by (wsimp; by rewrite <- !app_assoc).
        split; intros Hin; repeat (apply elem_of_cons in Hin as [Hin|Hin];
          [discriminate Hin|]); by apply not_elem_of_nil in Hin.
  - rewrite GetPlayersCount_eq, Hup1. cbn [snd]. split.
    + unfold same_data. by wsimp.
    + rewrite (new_lines_app w _
        [redis_line ("SCARD " +:+ Keys_RoomPlayers c r) StoreUnavailable;
         mkLogLine "GameState" "ERROR"
           "error reading the number of players in room %s:%s: %v"
           [c; r; error_text StoreUnavailable];
         mkLogLine "RoomMonitor" "ERROR"
           "error reading the number of players in room %s:%s: %v"
           [c; r; error_text StoreUnavailable]])
        by (wsimp; by rewrite <- !app_assoc).
      split; intros Hin; repeat (apply elem_of_cons in Hin as [Hin|Hin];
        [discriminate Hin|]); by apply not_elem_of_nil in Hin.
Qed.


(** *** The start transition *)

(** Settles every test [decide (k = K /\ f = F)] of the goal from the
    equations and disequations at hand. *)
Ltac decide_fields :=
  repeat match goal with
    | |- context [decide (?a = ?b /\ ?x = ?y)] =>
        first [ rewrite (decide_True (P := a = b /\ x = y)) by (split; reflexivity)
              | rewrite (decide_False (P := a = b /\ x = y))
                  by (intros [? ?]; congruence) ]
    end.

Lemma hash_at_ext (w1 w2 : World) (k : string) :
  hashes w1 = hashes w2 -> hash_at w1 k = hash_at w2 k.
Proof. unfold hash_at. by intros ->. Qed.

Lemma list_at_ext (w1 w2 : World) (k : string) :
  lists w1 = lists w2 -> list_at w1 k = list_at w2 k.
Proof. unfold list_at. by intros ->. Qed.

Lemma LogAction_lists c r action data (w : World) (k : string) :
  k <> Keys_RoomActions c r ->
  list_at (snd (ActionLogger_LogAction c r action data w)) k = list_at w k.
Proof.
  intros Hk. rewrite LogAction_eq. cbn zeta. destruct (up w); wsimp; [|reflexivity].
  unfold list_at at 1. cbn [lists set_lists].
  rewrite lookup_insert_ne by congruence. by wsimp.
Qed.

Lemma stored_phase_nonempty (w : World) (c r : string) :
  stored_phase w c r <> EmptyString -> stored_game w c r <> ∅.
Proof.
  unfold stored_phase, field. intros Hph Hempty. rewrite Hempty, lookup_empty in Hph.
  by apply Hph.
Qed.

Lemma run_batch_hashes_ext (b : list cmd) (w0 w1 : World) :
  hashes w0 = hashes w1 ->
  hashes (fold_left run_cmd b w0) = hashes (fold_left run_cmd b w1).
Proof.
  revert w0 w1. induction b as [|[k f v] b IH]; intros w0 w1 Hw; cbn [fold_left run_cmd];
    [exact Hw|].
  apply IH. unfold hset, hash_at. cbn [hashes set_hashes]. by rewrite Hw.
Qed.

(** With both reads through, a waiting room with enough players has its
    start transition invoked. *)
Lemma checkRoom_invokes_start (config : EngineConfig) (c r : string) (w : World) :
  up w = true -> up (pass w) = true ->
  stored_phase w c r = "waiting" ->
  (MinPlayersToStart config <= seated w c r)%Z ->
  start_line c r ∈ new_lines w (snd (RoomMonitor_checkRoom config c r w)).
Proof.
  intros Hup1 Hup2 Hph Hn. rewrite checkRoom_eq, Hup1, Hup2.
  destruct (size (stored_game w c r) =? 0)%nat eqn:Hsz.
  { apply size_zero_empty in Hsz.
    exfalso. apply (stored_phase_nonempty w c r); [by rewrite Hph | exact Hsz]. }
  rewrite Hph. rewrite bool_decide_eq_true_2 by reflexivity.
  replace (MinPlayersToStart config <=? seated w c r)%Z with true
    by (symmetry; by apply Z.leb_le).
  cbn [andb].
  destruct (invoke_start_console c r (seated w c r) (pass (pass w)))
    as (l & ls & Hcons & _).
  revert Hcons. wsimp. intros Hcons. rewrite (new_lines_app _ _ _ Hcons).
  apply elem_of_cons. right. apply elem_of_cons. by left.
Qed.

Lemma encode_zero : encode_arg (AInt 0) = "0".
Proof. vm_compute. reflexivity. Qed.

(** A room with a hand running and enough players: the per-room check
    invokes neither transition and stores nothing, whether its reads go
    through or not. *)
Lemma checkRoom_leaves_a_running_hand (config : EngineConfig) (c r : string) (w : World) :
  stored_phase w c r <> "waiting" ->
  (MinPlayersToStart config <= seated w c r)%Z ->
  let w' := snd (RoomMonitor_checkRoom config c r w) in
  same_data w w' /\ start_line c r ∉ new_lines w w'.
Proof.
  intros Hph Hn w'. subst w'. rewrite checkRoom_eq.
  destruct (up w) eqn:Hup1.
  - destruct (up (pass w)) eqn:Hup2.
    + assert (Hw : same_data w (pass (pass w)) /\ new_lines w (pass (pass w)) = []).
      { split; [eapply same_data_trans; apply same_data_pass|].
        apply new_lines_same. by wsimp. }
      replace (seated w c r <? MinPlayersToStart config)%Z with false
        by (symmetry; apply Z.ltb_ge; lia).
      rewrite (bool_decide_eq_false_2 (stored_phase w c r = "waiting")) by exact Hph.
      rewrite andb_false_r. cbn [andb].
      destruct (size (stored_game w c r) =? 0)%nat; cbn [snd];
        destruct Hw as [Hd ->]; (split; [exact Hd|]); apply not_elem_of_nil.
    + rewrite GetGameState_eq. wsimp. rewrite Hup2. cbn [snd]. split.
      * unfold same_data. by wsimp.
      * rewrite (new_lines_app w _
          [redis_line ("HGETALL " +:+ Keys_GameState c r) StoreUnavailable;
           mkLogLine "GameState" "ERROR" "error reading the game state %s:%s: %v"
             [c; r; error_text StoreUnavailable];
           mkLogLine "RoomMonitor" "ERROR" "error reading the game state %s:%s: %v"
             [c; r; error_text StoreUnavailable]])
          by (wsimp; by rewrite <- !app_assoc).
        intros Hin; repeat (apply elem_of_cons in Hin as [Hin|Hin];
          [discriminate Hin|]); by apply not_elem_of_nil in Hin.
  - rewrite GetPlayersCount_eq, Hup1. cbn [snd]. split.
    + unfold same_data. by wsimp.
    + rewrite (new_lines_app w _
        [redis_line ("SCARD " +:+ Keys_RoomPlayers c r) StoreUnavailable;
         mkLogLine "GameState" "ERROR"
           "error reading the number of players in room %s:%s: %v"
           [c; r; error_text StoreUnavailable];
         mkLogLine "RoomMonitor" "ERROR"
           "error reading the number of players in room %s:%s: %v"
           [c; r; error_text StoreUnavailable]])
        by (wsimp; by rewrite <- !app_assoc).
      intros Hin; repeat (apply elem_of_cons in Hin as [Hin|Hin];
        [discriminate Hin|]); by apply not_elem_of_nil in Hin.
Qed.

(** C2.  The start transition queues its six field writes on one
    pipeline and sends them by one Exec.  When the round trip goes
    through, the stored hashes differ from the ones before exactly in the
    six fields of [start_written] (room status, phase, game id, start
    time, pot, current bet), and no set and no list but the room's action
    log changes.  The pipeline is the plain one of the client, not a
    transaction, so the batch is not one unit: when the round trip
    breaks, the call returns the store's error, no event is appended, and
    the writes the store had applied stay.  With none applied the stored
    data are as before.  With two or more applied the room reads status
    gaming and phase pre_flop, the current bet is the old one as long as
    the sixth write is missing, and no later check of the room sends the
    start again: the rule starts a waiting room only. *)
Theorem C2_a_broken_start_batch_stays_in_part (c r : string) (n : Z) (w : World) :
  let result := fst (RoomMonitor_handleGameStart c r n w) in
  let w' := snd (RoomMonitor_handleGameStart c r n w) in
  let gameID := start_game_id w c r in
  let startedAt := start_time w in
  (up w = true ->
     result = None
     /\ hashes w' = hashes (fold_left run_cmd (start_batch c r gameID startedAt) w)
     /\ (forall k f : string,
           hash_at w' k !! f =
             match start_written c r gameID startedAt k f with
             | Some v => Some v
             | None => hash_at w k !! f
             end)
     /\ sets w' = sets w /\ zsets w' = zsets w
     /\ (forall k : string, k <> Keys_RoomActions c r -> list_at w' k = list_at w k))
  /\ (up w = false ->
        result = Some StoreUnavailable
        /\ hashes w'
           = hashes (fold_left run_cmd
                       (take (reached w) (start_batch c r gameID startedAt)) w)
        /\ sets w' = sets w /\ zsets w' = zsets w /\ lists w' = lists w
        /\ faults w' = tail (faults w)
        /\ (reached w = 0 -> same_data w w' /\ stored_phase w' c r = stored_phase w c r)
        /\ (2 <= reached w ->
              stored_phase w' c r = "pre_flop"
              /\ hash_at w' (Keys_RoomInfo c r) !! "status" = Some "gaming"
              /\ (reached w < 6 ->
                    stored_game w' c r !! "current_bet"
                    = stored_game w c r !! "current_bet")
              /\ (forall config : EngineConfig,
                    (MinPlayersToStart config <= seated w c r)%Z ->
                    same_data w' (snd (RoomMonitor_checkRoom config c r w'))
                    /\ start_line c r
                         ∉ new_lines w' (snd (RoomMonitor_checkRoom config c r w'))))).
Proof.
  intros result w' gameID startedAt. subst result w'.
  rewrite handleGameStart_eq. cbn zeta. fold gameID startedAt.
  split; intros Hup; rewrite Hup; cbn [fst snd].
  - unfold ActionLogger_LogGameStarted.
    pose proof run_batch_hashes_ext as Hh.
    assert (Hhashes :
      hashes (log_line (mkLogLine "RoomMonitor" "GAME" "game started" [c; r; gameID; pretty n])
                (snd (ActionLogger_LogAction c r "game_started"
                        [("game_id", JString gameID); ("phase", JString "pre_flop");
                         ("players_count", JInt n)]
                        (fold_left run_cmd (start_batch c r gameID startedAt)
                           (tick (tick (log_line (start_line c r) (pass w))))))))
      = hashes (fold_left run_cmd (start_batch c r gameID startedAt) w)).
    { wsimp. rewrite LogAction_hashes. apply Hh. by wsimp. }
    split; [reflexivity|]. split; [exact Hhashes|]. split; [|split; [|split]].
    + intros k f. rewrite (hash_at_ext _ _ k Hhashes).
      unfold start_batch, start_written. cbn [fold_left run_cmd].
      rewrite !hset_lookup, !encode_zero. cbn [encode_arg].
      pose proof (RoomInfo_ne_GameState c r) as Hne.
      destruct (decide (k = Keys_GameState c r)) as [->|Hkg].
      * destruct (decide (f = "phase")) as [->|?]; [by decide_fields|].
        destruct (decide (f = "game_id")) as [->|?]; [by decide_fields|].
        destruct (decide (f = "started_at")) as [->|?]; [by decide_fields|].
        destruct (decide (f = "pot")) as [->|?]; [by decide_fields|].
        destruct (decide (f = "current_bet")) as [->|?]; by decide_fields.
      * destruct (decide (k = Keys_RoomInfo c r)) as [->|Hki].
        -- destruct (decide (f = "status")) as [->|?]; by decide_fields.
        -- by decide_fields.
    + wsimp. destruct (LogAction_sets c r "game_started"
        [("game_id", JString gameID); ("phase", JString "pre_flop"); ("players_count", JInt n)]
        (fold_left run_cmd (start_batch c r gameID startedAt)
           (tick (tick (log_line (start_line c r) (pass w)))))) as [-> _]. by wsimp.
    + wsimp. destruct (LogAction_sets c r "game_started"
        [("game_id", JString gameID); ("phase", JString "pre_flop"); ("players_count", JInt n)]
        (fold_left run_cmd (start_batch c r gameID startedAt)
           (tick (tick (log_line (start_line c r) (pass w)))))) as [_ ->]. by wsimp.
    + intros k Hk. wsimp. rewrite LogAction_lists by exact Hk. by wsimp.
  - set (w1 := tick (tick (log_line (start_line c r) (pass w)))).
    set (w' := fold_left run_cmd (take (reached w) (start_batch c r gameID startedAt)) w1).
    assert (Hhashes : hashes w'
              = hashes (fold_left run_cmd
                          (take (reached w) (start_batch c r gameID startedAt)) w)).
    { apply run_batch_hashes_ext. unfold w1. by wsimp. }
    assert (Hsets : sets w' = sets w) by (unfold w', w1; by wsimp).
    assert (Hzsets : zsets w' = zsets w) by (unfold w', w1; by wsimp).
    assert (Hlists : lists w' = lists w) by (unfold w', w1; by wsimp).
    split; [reflexivity|]. split; [exact Hhashes|].
    split; [exact Hsets|]. split; [exact Hzsets|]. split; [exact Hlists|].
    split; [unfold w', w1; rewrite faults_run_batch; wsimp; apply faults_pass|].
    pose proof (RoomInfo_ne_GameState c r) as Hne.
    split.
    + intros Hcut. rewrite Hcut in Hhashes. cbn [firstn fold_left] in Hhashes.
      split; [by split|]. unfold stored_phase, stored_game.
      by rewrite (hash_at_ext _ _ _ Hhashes).
    + intros Hcut.
      assert (Hphase : stored_game w' c r !! "phase" = Some "pre_flop").
      { unfold stored_game. rewrite (hash_at_ext _ _ _ Hhashes). unfold start_batch.
        destruct (reached w) as [|[|[|[|[|[|k]]]]]]; [lia|lia|..];
          cbn [firstn]; rewrite ?take_nil; cbn [fold_left run_cmd];
          rewrite !hset_lookup; by decide_fields. }
      assert (Hstatus : hash_at w' (Keys_RoomInfo c r) !! "status" = Some "gaming").
      { rewrite (hash_at_ext _ _ _ Hhashes). unfold start_batch.
        destruct (reached w) as [|[|[|[|[|[|k]]]]]]; [lia|lia|..];
          cbn [firstn]; rewrite ?take_nil; cbn [fold_left run_cmd];
          rewrite !hset_lookup; by decide_fields. }
      assert (Hnow : stored_phase w' c r = "pre_flop")
        by (unfold stored_phase, field; by rewrite Hphase).
      split; [exact Hnow|]. split; [exact Hstatus|]. split.
      * intros Hshort. unfold stored_game at 1. rewrite (hash_at_ext _ _ _ Hhashes).
        unfold start_batch, stored_game.
        destruct (reached w) as [|[|[|[|[|[|k]]]]]]; [lia|lia|..|lia];
          cbn [firstn]; rewrite ?take_nil; cbn [fold_left run_cmd];
          rewrite !hset_lookup; by decide_fields.
      * intros config Hn.
        apply (checkRoom_leaves_a_running_hand config c r w').
        -- rewrite Hnow. discriminate.
        -- unfold seated, set_at. rewrite Hsets. exact Hn.
Qed.


(** ** The deck *)

Lemma CreateDeck_canonical : fold_left deck_of_suit suits [] = canonical_deck.
Proof. vm_compute. reflexivity. Qed.

Lemma canonical_deck_NoDup : NoDup canonical_deck.
Proof. apply (bool_decide_unpack (NoDup canonical_deck)). vm_compute. exact I. Qed.

Lemma canonical_deck_length : length canonical_deck = 52.
Proof. vm_compute. reflexivity. Qed.

Lemma canonical_deck_codes : Forall (fun card => String.length card = 2) canonical_deck.
Proof.
  apply (bool_decide_unpack (Forall (fun card => String.length card = 2) canonical_deck)).
  vm_compute. exact I.
Qed.

(** C7.  Every call of CreateDeck returns the same sequence: the 52
    cards in canonical order, suit by suit and rank by rank.  Each is a
    two-character code and no two are equal.  The call reads and writes
    no stored record. *)
Theorem C7_CreateDeck_52_distinct_cards :
  forall w : World,
    let deck := fst (DeckManager_CreateDeck w) in
    deck = canonical_deck
    /\ length deck = 52
    /\ Forall (fun card => String.length card = 2) deck
    /\ NoDup deck
    /\ same_data w (snd (DeckManager_CreateDeck w)).
Proof.
  intros w deck. subst deck.
  unfold DeckManager_CreateDeck, bind, logf, ret. cbn [fst snd].
  rewrite CreateDeck_canonical.
  split; [reflexivity|].
  split; [exact canonical_deck_length|].
  split; [exact canonical_deck_codes|].
  split; [exact canonical_deck_NoDup|].
  unfold same_data. by wsimp.
Qed.

(** *** Shuffling *)

Lemma copy_fresh (deck : list string) :
  copy (replicate (length deck) EmptyString) deck = deck.
Proof.
  unfold copy. rewrite length_replicate, firstn_all.
  rewrite drop_ge by (by rewrite length_replicate). apply app_nil_r.
Qed.

Lemma swap_shuffled_spec (i : nat) (j : Z) (a : arrays) :
  i < length (a_shuffled a) -> (0 <= j <= Z.of_nat i)%Z ->
  exists a', swap_shuffled i j a = Some a'
             /\ a_shuffled a' ≡ₚ a_shuffled a /\ a_deck a' = a_deck a.
Proof.
  intros Hi Hj. unfold swap_shuffled.
  replace (j <? 0)%Z with false by (symmetry; apply Z.ltb_ge; lia).
  destruct (lookup_lt_is_Some_2 (a_shuffled a) i Hi) as [xi Hxi].
  assert (Hjlt : Z.to_nat j < length (a_shuffled a)) by lia.
  destruct (lookup_lt_is_Some_2 (a_shuffled a) (Z.to_nat j) Hjlt) as [xj Hxj].
  rewrite Hxi, Hxj. eexists. split; [reflexivity|]. cbn [a_shuffled a_deck].
  split; [|reflexivity]. by apply Permutation_insert_swap.
Qed.

Lemma shuffle_loop_spec (Hrange : Intn_in_range) (i : nat) :
  forall (a : arrays) (r : RngState),
    i = 0 \/ i < length (a_shuffled a) ->
    exists a' r', shuffle_loop i a r = (Some a', r')
                  /\ a_shuffled a' ≡ₚ a_shuffled a /\ a_deck a' = a_deck a.
Proof.
  induction i as [|i IH]; intros a r Hi.
  - exists a, r. by repeat split.
  - destruct Hi as [Hi|Hi]; [discriminate Hi|].
    cbn [shuffle_loop].
    pose proof (Hrange r (Z.of_nat (S i) + 1)%Z ltac:(lia)) as Hj.
    destruct (rand_Intn r (Z.of_nat (S i) + 1)) as [j r1]. cbn [fst] in Hj.
    destruct (swap_shuffled_spec (S i) j a Hi ltac:(lia)) as (a1 & -> & Hperm & Hdeck).
    destruct (IH a1 r1) as (a' & r' & Heq & Hperm' & Hdeck').
    { right. rewrite (Permutation_length Hperm). lia. }
    exists a', r'. split; [exact Heq|]. split.
    + by rewrite Hperm'.
    + by rewrite Hdeck'.
Qed.

(** C6.  ShuffleDeck returns a permutation of its input: the same cards
    with the same multiplicities, so the same length.  The slice of the
    caller is left as it was, and no stored record is read or written:
    the call only advances the random source and prints a debug line. *)
Theorem C6_ShuffleDeck_is_a_permutation :
  Intn_in_range ->
  forall (deck : list string) (w : World),
  exists a : arrays,
    fst (ShuffleDeck_arrays deck w) = Ok a
    /\ fst (DeckManager_ShuffleDeck deck w) = Ok (a_shuffled a)
    /\ a_shuffled a ≡ₚ deck
    /\ length (a_shuffled a) = length deck
    /\ a_deck a = deck
    /\ same_data w (snd (DeckManager_ShuffleDeck deck w))
    /\ faults (snd (DeckManager_ShuffleDeck deck w)) = faults w
    /\ reads (snd (DeckManager_ShuffleDeck deck w)) = reads w.
Proof.
  intros Hrange deck w.
  unfold DeckManager_ShuffleDeck. unfold bind at 1.
  unfold ShuffleDeck_arrays, bind, logf, ret. rewrite copy_fresh.
  destruct (shuffle_loop_spec Hrange (length deck - 1) (mkArrays deck deck) (rng w))
    as (a & r & -> & Hperm & Hdeck).
  { cbn [a_shuffled]. destruct deck; [left; reflexivity | right; cbn [length]; lia]. }
  cbn [a_shuffled a_deck] in Hperm, Hdeck. cbn beta iota zeta delta [fst snd].
  exists a. split; [reflexivity|]. split; [reflexivity|].
  split; [exact Hperm|]. split; [by rewrite Hperm|]. split; [exact Hdeck|].
  split; [unfold same_data; by wsimp|]. by wsimp.
Qed.


(** *** Drawing *)

Lemma pop_back_nil {A : Type} : pop_back (@nil A) = None.
Proof. reflexivity. Qed.

Lemma pop_back_rev_cons {A : Type} (x : A) (ds : list A) :
  pop_back (rev (x :: ds)) = Some (x, rev ds).
Proof. unfold pop_back. by rewrite rev_involutive. Qed.

Lemma DrawCard_eq (c r : string) (w : World) :
  DeckManager_DrawCard c r w =
    if up w then
      match pop_back (list_at w (Keys_RoomDeck c r)) with
      | None =>
          (Ok EmptyString,
           log_line (mkLogLine "DeckManager" "WARNING" "the deck is empty!" []) (pass w))
      | Some (card, rest) =>
          (Ok card, set_lists (<[Keys_RoomDeck c r := rest]> (lists w)) (pass w))
      end
    else
      (Err StoreUnavailable,
       log_line (mkLogLine "DeckManager" "ERROR" "error drawing a card from the deck: %v"
                   [error_text StoreUnavailable]) (pass w)).
Proof.
  unfold DeckManager_DrawCard, client_RPop, command, logf, ret. unfold bind at 1.
  destruct (up w); wsimp.
  - destruct (pop_back (list_at w (Keys_RoomDeck c r))) as [[card rest]|];
      cbn beta iota zeta delta [fst snd]; [reflexivity|].
    rewrite bool_decide_eq_true_2 by reflexivity. reflexivity.
  - rewrite bool_decide_eq_false_2 by discriminate. reflexivity.
Qed.

(** Whatever the store does, DrawCards returns no more cards than it was
    asked for. *)
Lemma DrawCards_loop_bound (c r : string) (count : Z) (n : nat) :
  forall (i : Z) (cards0 : list string) (w : World) (cards : list string) (w' : World),
    DrawCards_loop c r count n i cards0 w = (Ok cards, w') ->
    length cards <= length cards0 + n.
Proof.
  induction n as [|n IH]; intros i cards0 w cards w'; cbn [DrawCards_loop].
  - unfold ret. intros [= <- _]. lia.
  - unfold bind at 1. rewrite DrawCard_eq.
    destruct (up w); [|discriminate].
    destruct (pop_back (list_at w (Keys_RoomDeck c r))) as [[card rest]|].
    + case_bool_decide.
      * unfold bind, logf, ret. intros [= <- _]. lia.
      * intros Hl. apply IH in Hl. rewrite length_app in Hl. cbn [length] in Hl. lia.
    + rewrite bool_decide_eq_true_2 by reflexivity.
      unfold bind, logf, ret. intros [= <- _]. lia.
Qed.

Lemma deck_only_refl c r (w : World) : deck_only c r w w.
Proof. by repeat split. Qed.

Lemma deck_only_trans c r (w1 w2 w3 : World) :
  deck_only c r w1 w2 -> deck_only c r w2 w3 -> deck_only c r w1 w3.
Proof.
  unfold deck_only. intros (?&?&?&?&?&?&?&Hl1) (?&?&?&?&?&?&?&Hl2).
  repeat split; try congruence. intros k Hk. by rewrite Hl2, Hl1.
Qed.

(** With the store reachable and a deck of non-empty codes, DrawCards
    pops the cards from the end of the stored list one by one: [ds] is
    the deck in drawing order. *)
Lemma DrawCards_loop_exact (c r : string) (count : Z) (n : nat) :
  forall (i : Z) (cards0 ds : list string) (w : World),
    faults w = [] ->
    list_at w (Keys_RoomDeck c r) = rev ds ->
    Forall (fun card => card <> EmptyString) ds ->
    exists w',
      DrawCards_loop c r count n i cards0 w = (Ok (cards0 ++ take n ds), w')
      /\ list_at w' (Keys_RoomDeck c r) = rev (drop n ds)
      /\ deck_only c r w w'.
Proof.
  induction n as [|n IH]; intros i cards0 ds w Hf Hdeck Hcards; cbn [DrawCards_loop].
  - exists w. rewrite take_0, drop_0, app_nil_r. split; [reflexivity|].
    split; [exact Hdeck | apply deck_only_refl].
  - unfold bind at 1. rewrite DrawCard_eq, (up_nil w Hf), (pass_nil w Hf), Hdeck.
    destruct ds as [|d ds].
    + cbn [rev]. rewrite pop_back_nil. rewrite bool_decide_eq_true_2 by reflexivity.
      unfold bind, logf, ret. eexists. rewrite take_nil, app_nil_r, drop_nil.
      split; [reflexivity|]. split; [by wsimp|].
      unfold deck_only. wsimp. by repeat split.
    + rewrite pop_back_rev_cons. apply Forall_cons in Hcards as [Hd Hcards].
      rewrite bool_decide_eq_false_2 by exact Hd.
      destruct (IH (i + 1)%Z (cards0 ++ [d]) ds
                  (set_lists (<[Keys_RoomDeck c r := rev ds]> (lists w)) w))
        as (w' & Heq & Hrest & Hframe).
      * by wsimp.
      * unfold list_at. wsimp. by rewrite lookup_insert_eq.
      * exact Hcards.
      * exists w'. rewrite Heq. rewrite <- app_assoc. cbn [app take drop].
        split; [reflexivity|]. split; [exact Hrest|].
        eapply deck_only_trans; [|exact Hframe].
        unfold deck_only. wsimp. repeat split.
        intros k Hk. unfold list_at. wsimp. by rewrite lookup_insert_ne by congruence.
Qed.

Lemma DrawCards_exact (c r : string) (n : Z) (ds : list string) (w : World) :
  (0 <= n)%Z ->
  faults w = [] ->
  list_at w (Keys_RoomDeck c r) = rev ds ->
  Forall (fun card => card <> EmptyString) ds ->
  exists w',
    DeckManager_DrawCards c r n w = (Ok (take (Z.to_nat n) ds), w')
    /\ list_at w' (Keys_RoomDeck c r) = rev (drop (Z.to_nat n) ds)
    /\ deck_only c r w w'.
Proof.
  intros Hn Hf Hdeck Hcards. unfold DeckManager_DrawCards.
  replace (n <? 0)%Z with false by (symmetry; apply Z.ltb_ge; lia).
  exact (DrawCards_loop_exact c r n (Z.to_nat n) 0%Z [] ds w Hf Hdeck Hcards).
Qed.

(** C5.  Drawing from a deck that runs out.  DrawCard on a deck with no
    card left returns the empty string and no error, and changes no
    stored record.  DrawCards, asked for [n >= 0] cards, never returns
    more than [n], whatever the store does; with the store reachable it
    returns the first [n] cards of the deck in drawing order, or all of
    them when fewer than [n] are left, without an error, and the stored
    deck keeps the rest.  Both are plain functions of the world: a draw
    is one non-blocking pop, there is nothing to wait for. *)
Theorem C5_draws_stop_at_the_end_of_the_deck (c r : string) (w : World) :
  (up w = true -> list_at w (Keys_RoomDeck c r) = [] ->
     fst (DeckManager_DrawCard c r w) = Ok EmptyString
     /\ same_data w (snd (DeckManager_DrawCard c r w)))
  /\ (forall (n : Z) (cards : list string) (w' : World),
        (0 <= n)%Z ->
        DeckManager_DrawCards c r n w = (Ok cards, w') ->
        (Z.of_nat (length cards) <= n)%Z)
  /\ (forall (n : Z) (ds : list string),
        (0 <= n)%Z ->
        faults w = [] ->
        list_at w (Keys_RoomDeck c r) = rev ds ->
        Forall (fun card => card <> EmptyString) ds ->
        exists w',
          DeckManager_DrawCards c r n w = (Ok (take (Z.to_nat n) ds), w')
          /\ list_at w' (Keys_RoomDeck c r) = rev (drop (Z.to_nat n) ds)
          /\ deck_only c r w w'
          /\ (Z.of_nat (length ds) <= n -> take (Z.to_nat n) ds = ds
                                            /\ list_at w' (Keys_RoomDeck c r) = [])%Z).
Proof.
  split; [|split].
  - intros Hup Hempty. rewrite DrawCard_eq, Hup, Hempty, pop_back_nil. cbn [fst snd].
    split; [reflexivity|]. unfold same_data. by wsimp.
  - intros n cards w' Hn. unfold DeckManager_DrawCards.
    replace (n <? 0)%Z with false by (symmetry; apply Z.ltb_ge; lia).
    intros Hl. apply DrawCards_loop_bound in Hl. cbn [length] in Hl. lia.
  - intros n ds Hn Hf Hdeck Hcards.
    destruct (DrawCards_exact c r n ds w Hn Hf Hdeck Hcards) as (w' & Heq & Hrest & Hframe).
    exists w'. split; [exact Heq|]. split; [exact Hrest|]. split; [exact Hframe|].
    intros Hlen. split.
    + apply take_ge. lia.
    + rewrite Hrest, drop_ge by lia. reflexivity.
Qed.

(** *** Dealing *)

Lemma PlayerInfo_ne_RoomDeck (c r u : string) : Keys_PlayerInfo c r u <> Keys_RoomDeck c r.
Proof.
  unfold Keys_PlayerInfo, Keys_RoomDeck. intros H.
  do 4 apply append_inj_l in H. discriminate H.
Qed.

Lemma faults_del_key k (w : World) : faults (del_key k w) = faults w.
Proof. reflexivity. Qed.
Lemma rng_del_key k (w : World) : rng (del_key k w) = rng w.
Proof. reflexivity. Qed.
Lemma console_del_key k (w : World) : console (del_key k w) = console w.
Proof. reflexivity. Qed.
Lemma list_at_del_key k (w : World) : list_at (del_key k w) k = [].
Proof. unfold list_at, del_key. cbn [lists]. by rewrite lookup_delete_eq. Qed.
Lemma hash_at_del_key k (w : World) k' : k' <> k -> hash_at (del_key k w) k' = hash_at w k'.
Proof.
  intros Hk. unfold hash_at, del_key. cbn [hashes]. by rewrite lookup_delete_ne by congruence.
Qed.

#[local] Hint Rewrite faults_del_key rng_del_key console_del_key list_at_del_key : world.

Lemma GetPlayerIDs_eq (c r : string) (w : World) :
  GameStateService_GetPlayerIDs c r w =
    if up w then (Ok (elements (set_at w (Keys_RoomPlayers c r))), pass w)
    else (Err StoreUnavailable,
          log_line (mkLogLine "GameState" "ERROR"
                      "error reading the list of players in room %s:%s: %v"
                      [c; r; error_text StoreUnavailable])
            (log_line (redis_line ("SMEMBERS " +:+ Keys_RoomPlayers c r) StoreUnavailable)
               (pass w))).
Proof.
  unfold GameStateService_GetPlayerIDs, RedisClient_SMembers, client_SMembers, wrap,
    RedisError, command, logf, bind, ret.
  destruct (up w); wsimp; reflexivity.
Qed.

Lemma savePlayerCards_eq (c r u : string) (cards : list string) (w : World) :
  CardDealer_savePlayerCards c r u cards w =
    if up w then
      (None, hset (Keys_PlayerInfo c r u) "cards" (AStr (json_Marshal_strings cards)) (pass w))
    else
      (Some (Errorw "error saving the cards to Redis" StoreUnavailable),
       log_line (redis_line ("HSET " +:+ Keys_PlayerInfo c r u +:+ " " +:+ "cards")
                   StoreUnavailable) (pass w)).
Proof.
  unfold CardDealer_savePlayerCards, RedisClient_HSet, client_HSet, wrap, RedisError,
    command, logf, bind, ret.
  destruct (up w); wsimp; reflexivity.
Qed.

(** Saving a deck with the store reachable: the stored deck is the new
    one, whatever the key held before. *)
Lemma SaveDeckToRedis_ok (c r : string) (deck : list string) (w : World) :
  faults w = [] -> deck <> [] ->
  exists w',
    DeckManager_SaveDeckToRedis c r deck w = (None, w')
    /\ list_at w' (Keys_RoomDeck c r) = deck
    /\ faults w' = [] /\ rng w' = rng w
    /\ forall k : string, k <> Keys_RoomDeck c r -> hash_at w' k = hash_at w k.
Proof.
  intros Hf Hdeck.
  unfold DeckManager_SaveDeckToRedis, RedisClient_Del, RedisClient_RPush, client_Del,
    client_RPush, wrap, RedisError, command, logf, bind, ret.
  rewrite (up_nil w Hf), (pass_nil w Hf). cbn [fold_left]. wsimp.
  rewrite (up_nil (del_key _ w)), (pass_nil (del_key _ w)) by (by wsimp).
  destruct deck as [|d deck]; [contradiction|]. cbn beta iota zeta delta [fst snd].
  eexists. split; [reflexivity|]. wsimp.
  split; [|split; [exact Hf|split; [reflexivity|]]].
  - unfold list_at at 1. wsimp. by rewrite lookup_insert_eq.
  - intros k Hk. by apply hash_at_del_key.
Qed.

Lemma hset_same (k f : string) (v : arg) (w : World) :
  hash_at (hset k f v w) k = <[f := encode_arg v]> (hash_at w k).
Proof. unfold hset, hash_at at 1. cbn [hashes set_hashes]. by rewrite lookup_insert_eq. Qed.

(** The hands dealt from the deck [ds], in drawing order, to the [k]-th
    player: two cards each. *)
Lemma deal_loop_exact (c r : string) (players : list string) :
  forall (ds : list string) (w : World),
    faults w = [] ->
    list_at w (Keys_RoomDeck c r) = rev ds ->
    Forall (fun card => card <> EmptyString) ds ->
    NoDup players ->
    exists (e : option error) (w' : World),
      deal_loop c r 2 players w = (e, w')
      /\ (if decide (2 * length players <= length ds) then
            e = None
            /\ list_at w' (Keys_RoomDeck c r) = rev (drop (2 * length players) ds)
            /\ (forall (k : nat) (u : string),
                  players !! k = Some u ->
                  hash_at w' (Keys_PlayerInfo c r u)
                  = <["cards" := json_Marshal_strings (take 2 (drop (2 * k) ds))]>
                      (hash_at w (Keys_PlayerInfo c r u)))
          else e = Some DeckExhausted)
      /\ faults w' = [] /\ rng w' = rng w
      /\ (forall key : string,
            (forall u, u ∈ players -> key <> Keys_PlayerInfo c r u) ->
            hash_at w' key = hash_at w key).
Proof.
  induction players as [|u players IH]; intros ds w Hf Hdeck Hcards Hnd.
  - exists None, w. cbn [deal_loop length]. unfold ret. rewrite decide_True by lia.
    split; [reflexivity|]. split; [|by repeat split].
    split; [reflexivity|]. split; [by rewrite drop_0|]. intros k u' Hk. discriminate Hk.
  - cbn [deal_loop]. unfold bind at 1.
    destruct (DrawCards_exact c r 2 ds w ltac:(lia) Hf Hdeck Hcards)
      as (w1 & -> & Hrest & Hframe).
    destruct Hframe as (Hh1 & Hs1 & Hz1 & Hf1 & Hr1 & _ & _ & Hl1).
    change (Z.to_nat 2) with 2 in *.
    apply NoDup_cons in Hnd as [Hu Hnd].
    case_bool_decide as Hlen.
    + (* fewer than two cards left *)
      unfold bind, logf, ret. eexists _, _. split; [reflexivity|].
      assert (length ds < 2).
      { rewrite length_take in Hlen. lia. }
      rewrite decide_False by (cbn [length]; lia).
      split; [reflexivity|]. wsimp.
      split; [congruence|]. split; [exact Hr1|].
      intros key _. apply hash_at_ext. exact Hh1.
    + assert (Hds : 2 <= length ds).
      { rewrite length_take in Hlen. lia. }
      unfold bind at 1. rewrite savePlayerCards_eq.
      rewrite (up_nil w1), (pass_nil w1) by congruence.
      unfold bind at 1, logf at 1. cbn beta iota zeta delta [fst snd].
      set (w2 := log_line _ (hset _ _ _ w1)).
      destruct (IH (drop 2 ds) w2) as (e & w' & Hdeal & Hres & Hf' & Hr' & Hother).
      * subst w2. wsimp. congruence.
      * subst w2. wsimp. exact Hrest.
      * by apply Forall_drop.
      * exact Hnd.
      * exists e, w'. rewrite length_drop in Hres. cbn [length].
        assert (Hw2 : forall key, key <> Keys_PlayerInfo c r u ->
                        hash_at w2 key = hash_at w key).
        { intros key Hkey. subst w2. wsimp. rewrite hset_other by exact Hkey.
          apply hash_at_ext. exact Hh1. }
        split; [exact Hdeal|]. split; [|split; [exact Hf'|split]].
        -- destruct (decide (2 * length players <= length ds - 2)) as [Hle|Hgt].
           ++ rewrite decide_True by lia. destruct Hres as (He & Hleft & Hhands).
              split; [exact He|]. split.
              { rewrite Hleft, drop_drop. f_equal. f_equal. lia. }
              intros [|k] u' Hk; cbn [lookup list_lookup] in Hk.
              ** injection Hk as <-. rewrite Hother.
                 { subst w2. wsimp. rewrite hset_same. cbn [encode_arg].
                   rewrite drop_0. f_equal. apply hash_at_ext. exact Hh1. }
                 intros u' Hin Heq. apply PlayerInfo_inj in Heq. subst u'. contradiction.
              ** rewrite (Hhands k u' Hk). rewrite drop_drop.
                 replace (2 + 2 * k) with (2 * S k) by lia.
                 f_equal. apply Hw2. intros Heq. apply PlayerInfo_inj in Heq. subst u'.
                 apply Hu. by apply list_elem_of_lookup_2 in Hk.
           ++ rewrite decide_False by lia. exact Hres.
        -- subst w2. revert Hr'. wsimp. congruence.
        -- intros key Hkey. rewrite Hother.
           ++ apply Hw2. apply Hkey. by left.
           ++ intros u' Hin. apply Hkey. by right.
Qed.

Lemma ShuffleDeck_arrays_spec (Hrange : Intn_in_range) (deck : list string) (w : World) :
  exists (a : arrays) (w' : World),
    ShuffleDeck_arrays deck w = (Ok a, w')
    /\ a_shuffled a ≡ₚ deck /\ a_deck a = deck
    /\ same_data w w' /\ faults w' = faults w /\ reads w' = reads w.
Proof.
  unfold ShuffleDeck_arrays, bind, logf, ret. rewrite copy_fresh.
  destruct (shuffle_loop_spec Hrange (length deck - 1) (mkArrays deck deck) (rng w))
    as (a & g & -> & Hperm & Hdeck).
  { cbn [a_shuffled]. destruct deck; [left; reflexivity | right; cbn [length]; lia]. }
  cbn [a_shuffled a_deck] in Hperm, Hdeck.
  eexists _, _. split; [reflexivity|].
  split; [exact Hperm|]. split; [exact Hdeck|].
  split; [unfold same_data; by wsimp|]. by wsimp.
Qed.

Lemma CreateAndShuffleDeck_spec (Hrange : Intn_in_range) (w : World) :
  exists (shuffled : list string) (w' : World),
    DeckManager_CreateAndShuffleDeck w = (Ok shuffled, w')
    /\ shuffled ≡ₚ canonical_deck
    /\ same_data w w' /\ faults w' = faults w.
Proof.
  unfold DeckManager_CreateAndShuffleDeck, DeckManager_CreateDeck, DeckManager_ShuffleDeck.
  unfold bind at 1. unfold bind at 2, logf, ret.
  cbn beta iota zeta delta [fst snd]. rewrite CreateDeck_canonical.
  unfold bind.
  match goal with |- context [ShuffleDeck_arrays ?d ?x] =>
    destruct (ShuffleDeck_arrays_spec Hrange d x) as (a & w' & -> & Hperm & _ & Hd & Hf & _)
  end.
  eexists _, _. split; [reflexivity|]. split; [exact Hperm|].
  revert Hd Hf. unfold same_data. wsimp. tauto.
Qed.

Lemma canonical_deck_nonempty_codes (ds : list string) :
  ds ≡ₚ canonical_deck -> Forall (fun card => card <> EmptyString) ds.
Proof.
  intros Hperm. rewrite Hperm.
  eapply Forall_impl; [exact canonical_deck_codes|].
  intros card Hlen ->. discriminate Hlen.
Qed.

Lemma GetDeckSize_data (c r : string) (w : World) :
  same_data w (snd (DeckManager_GetDeckSize c r w)).
Proof.
  unfold DeckManager_GetDeckSize, RedisClient_LLen, client_LLen, wrap, RedisError, command,
    logf, bind, ret.
  unfold same_data. destruct (up w); by wsimp.
Qed.

Lemma GetDeckSize_frame (c r : string) (w : World) :
  (forall k, hash_at (snd (DeckManager_GetDeckSize c r w)) k = hash_at w k)
  /\ (forall k, list_at (snd (DeckManager_GetDeckSize c r w)) k = list_at w k).
Proof.
  unfold DeckManager_GetDeckSize, RedisClient_LLen, client_LLen, wrap, RedisError, command,
    logf, bind, ret.
  destruct (up w); split; intros k; by wsimp.
Qed.

(** C8. Dealing the hole cards.  With no seated player the call fails with
    [NoPlayers] and stores nothing.  Otherwise, the store answering, a fresh
    deck is built, shuffled and saved in place of whatever deck the room
    had: [ds] is that deck in drawing order, a permutation of the 52 cards.
    If it holds two cards for every player the call succeeds, the [k]-th
    player's record receives the cards [2k] and [2k+1] of [ds] and the
    stored deck is [ds] less the first [2n] cards; if it does not, the call
    fails with [DeckExhausted].  With three players six cards are dealt, no
    card twice, and 46 remain. *)
Theorem C8_DealCardsToPlayers_contract (c r : string) (w : World) :
  let players := elements (set_at w (Keys_RoomPlayers c r)) in
  let result := fst (CardDealer_DealCardsToPlayers c r w) in
  let w' := snd (CardDealer_DealCardsToPlayers c r w) in
  let hand (u : string) := hash_at w' (Keys_PlayerInfo c r u) !! "cards" in
  (up w = true -> set_at w (Keys_RoomPlayers c r) = ∅ ->
     result = Some NoPlayers /\ same_data w w')
  /\ (Intn_in_range -> faults w = [] -> set_at w (Keys_RoomPlayers c r) <> ∅ ->
      exists ds : list string,
        ds ≡ₚ canonical_deck
        /\ (2 * length players <= 52 ->
              result = None
              /\ list_at w' (Keys_RoomDeck c r) = rev (drop (2 * length players) ds)
              /\ (forall (k : nat) (u : string),
                    players !! k = Some u ->
                    hash_at w' (Keys_PlayerInfo c r u)
                    = <["cards" := json_Marshal_strings (take 2 (drop (2 * k) ds))]>
                        (hash_at w (Keys_PlayerInfo c r u))))
        /\ (52 < 2 * length players -> result = Some DeckExhausted)
        /\ (length players = 3 ->
              exists u1 u2 u3 c1 c2 c3 c4 c5 c6 : string,
                players = [u1; u2; u3]
                /\ NoDup [c1; c2; c3; c4; c5; c6]
                /\ hand u1 = Some (json_Marshal_strings [c1; c2])
                /\ hand u2 = Some (json_Marshal_strings [c3; c4])
                /\ hand u3 = Some (json_Marshal_strings [c5; c6])
                /\ length (list_at w' (Keys_RoomDeck c r)) = 46)).
Proof.
  intros players result w' hand. split.
  - intros Hup Hempty.
    assert (Hrun : exists w1, CardDealer_DealCardsToPlayers c r w = (Some NoPlayers, w1)
                              /\ same_data w w1).
    { unfold CardDealer_DealCardsToPlayers. unfold bind at 1, logf at 1.
      cbn beta iota zeta delta [fst snd]. unfold bind at 1. rewrite GetPlayerIDs_eq.
      wsimp. rewrite Hup. cbn beta iota zeta delta [fst snd]. wsimp.
      rewrite Hempty, elements_empty. cbn [length Nat.eqb].
      unfold bind, logf, ret. cbn beta iota zeta delta [fst snd].
      eexists. split; [reflexivity|]. unfold same_data. by wsimp. }
    destruct Hrun as (w1 & Hrun & Hdata). subst result w'. rewrite Hrun. by split.
  - intros Hrange Hf Hne.
    assert (Hnd : NoDup players) by apply NoDup_elements.
    assert (Hlen : length players <> 0).
    { intros H0. apply Hne. apply nil_length_inv in H0.
      apply elements_empty_inv in H0. by apply leibniz_equiv. }
    assert (Hrun : exists ds e w1,
               CardDealer_DealCardsToPlayers c r w = (e, w1)
               /\ ds ≡ₚ canonical_deck
               /\ (if decide (2 * length players <= 52) then
                     e = None
                     /\ list_at w1 (Keys_RoomDeck c r) = rev (drop (2 * length players) ds)
                     /\ (forall (k : nat) (u : string),
                           players !! k = Some u ->
                           hash_at w1 (Keys_PlayerInfo c r u)
                           = <["cards" := json_Marshal_strings (take 2 (drop (2 * k) ds))]>
                               (hash_at w (Keys_PlayerInfo c r u)))
                   else e = Some DeckExhausted)).
    { unfold CardDealer_DealCardsToPlayers. unfold bind at 1, logf at 1.
      cbn beta iota zeta delta [fst snd]. unfold bind at 1. rewrite GetPlayerIDs_eq.
      wsimp. rewrite (up_nil w Hf), (pass_nil w Hf). cbn beta iota zeta delta [fst snd].
      wsimp. fold players.
      destruct (Nat.eqb_spec (length players) 0) as [H0|_]; [contradiction|].
      unfold bind at 1, logf at 1. cbn beta iota zeta delta [fst snd].
      unfold bind at 1.
      match goal with |- context [DeckManager_CreateAndShuffleDeck ?x] =>
        destruct (CreateAndShuffleDeck_spec Hrange x)
          as (shuffled & w1 & -> & Hperm & Hdata & Hf1)
      end.
      revert Hdata Hf1. unfold same_data. wsimp. intros (Hh1 & Hs1 & Hz1 & Hl1) Hf1.
      cbn beta iota zeta delta [fst snd].
      unfold bind at 1, logf at 1. cbn beta iota zeta delta [fst snd].
      unfold bind at 1.
      assert (Hlen52 : length shuffled = 52).
      { rewrite Hperm. apply canonical_deck_length. }
      match goal with |- context [DeckManager_SaveDeckToRedis c r shuffled ?x] =>
        destruct (SaveDeckToRedis_ok c r shuffled x)
          as (w2 & -> & Hdeck2 & Hf2 & _ & Hh2)
      end.
      { wsimp. congruence. }
      { intros ->. discriminate Hlen52. }
      cbn beta iota zeta delta [fst snd]. unfold bind at 1.
      destruct (deal_loop_exact c r players (rev shuffled) w2)
        as (e & w3 & -> & Hres & Hf3 & _ & Hother).
      { exact Hf2. }
      { by rewrite rev_involutive. }
      { apply canonical_deck_nonempty_codes. by rewrite <- Hperm, <- Permutation_rev. }
      { exact Hnd. }
      rewrite length_rev, Hlen52 in Hres.
      assert (Hw2 : forall u, hash_at w2 (Keys_PlayerInfo c r u)
                               = hash_at w (Keys_PlayerInfo c r u)).
      { intros u. rewrite Hh2 by apply PlayerInfo_ne_RoomDeck. wsimp.
        apply hash_at_ext. congruence. }
      exists (rev shuffled). cbn beta iota zeta delta [fst snd].
      destruct (decide (2 * length players <= 52)) as [Hle|Hgt].
      - destruct Hres as (-> & Hleft & Hhands).
        unfold bind, logf, ret. cbn beta iota zeta delta [fst snd].
        destruct (GetDeckSize_frame c r w3) as [Hgh Hgl].
        destruct (DeckManager_GetDeckSize c r w3) as [size_ w4]. cbn [snd] in Hgh, Hgl.
        eexists _, _. split; [reflexivity|].
        split; [by rewrite <- Hperm, <- Permutation_rev|].
        split; [reflexivity|]. wsimp. rewrite Hgl. split; [exact Hleft|].
        intros k u Hk. wsimp. rewrite Hgh, (Hhands k u Hk), Hw2. reflexivity.
      - rewrite Hres. unfold ret. eexists _, _. split; [reflexivity|].
        split; [by rewrite <- Hperm, <- Permutation_rev|]. reflexivity. }
    destruct Hrun as (ds & e & w1 & Hrun & Hperm & Hres).
    subst result w' hand. rewrite Hrun. cbn [fst snd]. clear Hrun.
    exists ds. split; [exact Hperm|].
    assert (Hlen52 : length ds = 52).
    { rewrite Hperm. apply canonical_deck_length. }
    assert (Hdnd : NoDup ds).
    { rewrite Hperm. apply canonical_deck_NoDup. }
    split; [|split].
    + intros Hle. rewrite decide_True in Hres by exact Hle. exact Hres.
    + intros Hgt. rewrite decide_False in Hres by lia. exact Hres.
    + intros H3. rewrite decide_True in Hres by lia.
      destruct Hres as (_ & Hleft & Hhands).
      destruct players as [|u1 [|u2 [|u3 [|u4 rest]]]]; try discriminate H3.
      destruct ds as [|c1 [|c2 [|c3 [|c4 [|c5 [|c6 rest]]]]]]; try discriminate Hlen52.
      exists u1, u2, u3, c1, c2, c3, c4, c5, c6.
      split; [reflexivity|]. split.
      { change (NoDup ([c1; c2; c3; c4; c5; c6] ++ rest)) in Hdnd.
        apply NoDup_app in Hdnd as [Hsix _]. exact Hsix. }
      rewrite (Hhands 0 u1 eq_refl), (Hhands 1 u2 eq_refl), (Hhands 2 u3 eq_refl).
      rewrite !lookup_insert_eq. cbn [Nat.mul Nat.add drop take].
      split; [reflexivity|]. split; [reflexivity|]. split; [reflexivity|].
      rewrite Hleft, length_rev, length_drop, Hlen52. reflexivity.
Qed.

(** *** Stopping a game that is not running *)

Lemma stored_game_log_line l (w : World) c r : stored_game (log_line l w) c r = stored_game w c r.
Proof. reflexivity. Qed.
Lemma stored_phase_log_line l (w : World) c r :
  stored_phase (log_line l w) c r = stored_phase w c r.
Proof. reflexivity. Qed.

#[local] Hint Rewrite stored_game_log_line stored_phase_log_line : world.

Lemma RoomExists_eq (c r : string) (w : World) :
  GameStateService_RoomExists c r w =
    if up w then (Ok (key_exists w (Keys_RoomInfo c r)), pass w)
    else (Err StoreUnavailable,
          log_line (mkLogLine "GameState" "ERROR" "error checking that room %s:%s exists: %v"
                      [c; r; error_text StoreUnavailable])
            (log_line (redis_line ("EXISTS " +:+ Keys_RoomInfo c r) StoreUnavailable)
               (pass w))).
Proof.
  unfold GameStateService_RoomExists, RedisClient_Exists, client_Exists, wrap,
    RedisError, command, logf, bind, ret.
  destruct (up w); wsimp; [|reflexivity].
  by destruct (key_exists w (Keys_RoomInfo c r)).
Qed.

Lemma IsGameActive_eq (c r : string) (w : World) :
  GameStateService_IsGameActive c r w =
    if up w then
      (Ok (if (size (stored_game w c r) =? 0)%nat then false
           else bool_decide (stored_phase w c r ≠ GamePhaseWaiting)
                && bool_decide (stored_phase w c r ≠ GamePhaseFinished)), pass w)
    else (Err StoreUnavailable, snd (GameStateService_GetGameState c r w)).
Proof.
  unfold GameStateService_IsGameActive. unfold bind. rewrite GetGameState_eq.
  destruct (up w); [|reflexivity].
  destruct (size (stored_game w c r) =? 0)%nat; reflexivity.
Qed.

Lemma GetGameState_data (c r : string) (w : World) :
  same_data w (snd (GameStateService_GetGameState c r w)).
Proof.
  rewrite GetGameState_eq. unfold same_data. destruct (up w); by wsimp.
Qed.

(** C9. Stopping a room whose stored phase is already [waiting] changes
    no stored data, whatever the store answers: no field is written and
    the action list of the room receives no event.  When the room exists
    and the store answers the two reads, the call returns no error. *)
Theorem C9_stop_of_a_waiting_room_is_a_no_op (c r previousPhase reason : string) (w : World) :
  stored_phase w c r = GamePhaseWaiting ->
  let result := fst (GameStopHandler_Handle c r previousPhase reason w) in
  let w' := snd (GameStopHandler_Handle c r previousPhase reason w) in
  same_data w w'
  /\ list_at w' (Keys_RoomActions c r) = list_at w (Keys_RoomActions c r)
  /\ (key_exists w (Keys_RoomInfo c r) = true -> up w = true -> up (pass w) = true ->
      result = None).
Proof.
  intros Hphase result w'.
  assert (Hrun : exists e w1,
             GameStopHandler_Handle c r previousPhase reason w = (e, w1)
             /\ same_data w w1
             /\ (key_exists w (Keys_RoomInfo c r) = true -> up w = true ->
                 up (pass w) = true -> e = None)).
  { unfold GameStopHandler_Handle. unfold bind at 1, logf at 1.
    cbn beta iota zeta delta [fst snd]. unfold bind at 1. rewrite RoomExists_eq. wsimp.
    destruct (up w) eqn:Hup.
    - cbn beta iota zeta delta [fst snd]. wsimp.
      destruct (key_exists w (Keys_RoomInfo c r)) eqn:Hroom.
      + unfold bind at 1. rewrite IsGameActive_eq. wsimp.
        destruct (up (pass w)) eqn:Hup2.
        * rewrite Hphase. rewrite (bool_decide_eq_false_2 (GamePhaseWaiting ≠ GamePhaseWaiting))
            by (intros Hne; by apply Hne).
          cbn [andb]. destruct (size (stored_game w c r) =? 0)%nat;
            unfold bind, logf, ret; cbn beta iota zeta delta [fst snd];
            (eexists _, _; split; [reflexivity|]; split; [unfold same_data; by wsimp|done]).
        * unfold ret. cbn beta iota zeta delta [fst snd].
          eexists _, _. split; [reflexivity|]. split; [|discriminate].
          pose proof (GetGameState_data c r
                        (pass (log_line (mkLogLine "GameStop" "INFO"
                                 "stopping the game in room %s:%s (reason: %s)"
                                 [c; r; reason]) w))) as Hd.
          revert Hd. unfold same_data. wsimp. tauto.
      + unfold ret. eexists _, _. split; [reflexivity|].
        split; [unfold same_data; by wsimp|discriminate].
    - unfold ret. cbn beta iota zeta delta [fst snd].
      eexists _, _. split; [reflexivity|].
      split; [unfold same_data; by wsimp|discriminate]. }
  destruct Hrun as (e & w1 & Hrun & Hdata & Hok). subst result w'. rewrite Hrun.
  cbn [fst snd]. split; [exact Hdata|]. split; [|exact Hok].
  apply list_at_ext. apply Hdata.
Qed.

(** *** The stop transition of the monitor *)

Lemma handleGameStop_hashes (c r previousPhase reason : string) (w : World) :
  hashes (snd (RoomMonitor_handleGameStop c r previousPhase reason w)) =
    if up w then hashes (fold_left run_cmd (stop_batch c r) w)
    else hashes (fold_left run_cmd (take (reached w) (stop_batch c r)) w).
Proof.
  rewrite handleGameStop_eq. cbn zeta. destruct (up w); cbn [snd]; wsimp;
    [|apply run_batch_hashes_ext; by wsimp].
  unfold ActionLogger_LogGameStopped. rewrite LogAction_hashes.
  apply run_batch_hashes_ext. by wsimp.
Qed.

Lemma handleGameStop_sets (c r previousPhase reason : string) (w : World) :
  sets (snd (RoomMonitor_handleGameStop c r previousPhase reason w)) = sets w.
Proof.
  rewrite handleGameStop_eq. cbn zeta. destruct (up w); cbn [snd]; wsimp; [|reflexivity].
  unfold ActionLogger_LogGameStopped.
  match goal with |- context [ActionLogger_LogAction ?a ?b ?x ?d ?y] =>
    destruct (LogAction_sets a b x d y) as [-> _] end.
  by wsimp.
Qed.

(** The batch of the stop transition writes the room record and the game
    record, and no record of a player. *)
Lemma stop_batch_players (c r u : string) (w : World) :
  hash_at (fold_left run_cmd (stop_batch c r) w) (Keys_PlayerInfo c r u)
  = hash_at w (Keys_PlayerInfo c r u).
Proof.
  unfold stop_batch. cbn [fold_left run_cmd].
  pose proof (PlayerInfo_ne_RoomInfo c r u) as Hi.
  pose proof (PlayerInfo_ne_GameState c r u) as Hg.
  by rewrite !hset_other by assumption.
Qed.

(** C3. The stop tick.  For a room with a game record in a phase other
    than [waiting] and fewer seated players than MinPlayersToStart, the
    three round trips of the check going through: after the check the game
    record reads phase [waiting], an empty game id and start time, no
    community cards, pot 0 and current bet 0, and the room status is
    [waiting]; the set of seated players is what it was, and the record of
    every player is unchanged: the monitor resets no player. *)
Theorem C3_stop_tick_resets_the_game_record_only (config : EngineConfig) (c r : string)
    (w : World) :
  up w = true -> up (pass w) = true -> up (pass (pass w)) = true ->
  stored_game w c r <> ∅ ->
  stored_phase w c r <> GamePhaseWaiting ->
  (seated w c r < MinPlayersToStart config)%Z ->
  let w' := snd (RoomMonitor_checkRoom config c r w) in
  stored_game w' c r !! "phase" = Some "waiting"
  /\ stored_game w' c r !! "game_id" = Some EmptyString
  /\ stored_game w' c r !! "started_at" = Some EmptyString
  /\ stored_game w' c r !! "community_cards" = Some "[]"
  /\ stored_game w' c r !! "pot" = Some "0"
  /\ stored_game w' c r !! "current_bet" = Some "0"
  /\ hash_at w' (Keys_RoomInfo c r) !! "status" = Some "waiting"
  /\ set_at w' (Keys_RoomPlayers c r) = set_at w (Keys_RoomPlayers c r)
  /\ (forall u : string,
        hash_at w' (Keys_PlayerInfo c r u) = hash_at w (Keys_PlayerInfo c r u)).
Proof.
  intros Hup1 Hup2 Hup3 Hgame Hphase Hfew w'.
  assert (Hrun : RoomMonitor_checkRoom config c r w
                 = invoke_stop c r (stored_phase w c r) (seated w c r) (pass (pass w))).
  { rewrite checkRoom_eq, Hup1, Hup2.
    destruct (size (stored_game w c r) =? 0)%nat eqn:Hsz;
      [apply size_zero_empty in Hsz; contradiction|].
    rewrite (bool_decide_eq_false_2 (stored_phase w c r = "waiting")) by exact Hphase.
    rewrite andb_false_r.
    rewrite (proj2 (Z.ltb_lt _ _) Hfew), (bool_decide_eq_true_2 _ Hphase).
    reflexivity. }
  assert (Hh : hashes w' = hashes (fold_left run_cmd (stop_batch c r) w)).
  { subst w'. rewrite Hrun. unfold invoke_stop. unfold bind at 1, logf at 1.
    cbn beta iota zeta delta [fst snd]. unfold bind.
    pose proof (handleGameStop_hashes c r (stored_phase w c r) "insufficient_players"
                  (log_line (mkLogLine "RoomMonitor" "DEBUG"
                               "room %s:%s: not enough players (left: %d)"
                               [c; r; pretty (seated w c r)]) (pass (pass w)))) as Hs.
    revert Hs. wsimp. rewrite Hup3.
    destruct (RoomMonitor_handleGameStop _ _ _ _ _) as [[err|] w1]; cbn [snd];
      unfold logf, ret; wsimp; intros ->; apply run_batch_hashes_ext; by wsimp. }
  assert (Hs : sets w' = sets w).
  { subst w'. rewrite Hrun. unfold invoke_stop. unfold bind at 1, logf at 1.
    cbn beta iota zeta delta [fst snd]. unfold bind.
    pose proof (handleGameStop_sets c r (stored_phase w c r) "insufficient_players"
                  (log_line (mkLogLine "RoomMonitor" "DEBUG"
                               "room %s:%s: not enough players (left: %d)"
                               [c; r; pretty (seated w c r)]) (pass (pass w)))) as Hs.
    revert Hs. wsimp.
    destruct (RoomMonitor_handleGameStop _ _ _ _ _) as [[err|] w1]; cbn [snd];
      unfold logf, ret; wsimp; intros ->; reflexivity. }
  clearbody w'. clear Hrun.
  pose proof (RoomInfo_ne_GameState c r) as Hne.
  unfold stored_game. rewrite !(hash_at_ext _ _ _ Hh).
  unfold stop_batch. cbn [fold_left run_cmd].
  rewrite !hset_lookup, !encode_zero. cbn [encode_arg].
  split; [by decide_fields|]. split; [by decide_fields|]. split; [by decide_fields|].
  split; [by decide_fields|]. split; [by decide_fields|]. split; [by decide_fields|].
  split; [by decide_fields|].
  split; [unfold set_at; by rewrite Hs|].
  intros u. rewrite (hash_at_ext _ _ _ Hh). apply stop_batch_players.
Qed.

(** *** The stop handler and the records of the players *)

Lemma up_hd (w : World) : up w = negb (nth 0 (faults w) false).
Proof. unfold up, roundtrip. destruct (faults w); reflexivity. Qed.

Lemma resetPlayerState_eq (c r u : string) (w : World) :
  GameStopHandler_resetPlayerState c r u w =
    if up w then
      (None,
       fold_left (fun w fv => hset (Keys_PlayerInfo c r u) (fst fv) (snd fv) w)
         [ ("status", AStr "waiting"); ("bet", AInt 0); ("cards", AStr "[]");
           ("last_action", AStr EmptyString); ("is_dealer", ABool false);
           ("is_small_blind", ABool false); ("is_big_blind", ABool false) ]
         (pass w))
    else
      (Some (Errorw "error resetting the state of the player" StoreUnavailable),
       log_line (redis_line ("HMSET " +:+ Keys_PlayerInfo c r u) StoreUnavailable) (pass w)).
Proof.
  unfold GameStopHandler_resetPlayerState, RedisClient_HMSet, client_HMSet, wrap,
    RedisError, command, logf, bind, ret.
  destruct (up w); wsimp; reflexivity.
Qed.

(** One reset: the record of the player when the round trip goes
    through, nothing when it does not; one round trip either way. *)
Lemma resetPlayerState_frame (c r u : string) (w : World) :
  let w' := snd (GameStopHandler_resetPlayerState c r u w) in
  hash_at w' (Keys_PlayerInfo c r u)
    = (if up w then player_reset (hash_at w (Keys_PlayerInfo c r u))
       else hash_at w (Keys_PlayerInfo c r u))
  /\ (forall key, key <> Keys_PlayerInfo c r u -> hash_at w' key = hash_at w key)
  /\ faults w' = tail (faults w)
  /\ sets w' = sets w /\ zsets w' = zsets w /\ lists w' = lists w.
Proof.
  cbn zeta. rewrite resetPlayerState_eq.
  destruct (up w); cbn [snd fold_left fst].
  - split.
    + rewrite !hset_same, encode_zero. cbn [encode_arg]. unfold player_reset. by wsimp.
    + split.
      * intros key Hkey. rewrite !hset_other by exact Hkey. by wsimp.
      * wsimp. split; [apply faults_pass|]. by repeat split.
  - split; [by wsimp|]. split; [intros key _; by wsimp|].
    wsimp. split; [apply faults_pass|]. by repeat split.
Qed.

Lemma reset_players_cons (c r u : string) (rest : list string) (w : World) :
  exists w1,
    snd (reset_players c r (u :: rest) w) = snd (reset_players c r rest w1)
    /\ hashes w1 = hashes (snd (GameStopHandler_resetPlayerState c r u w))
    /\ faults w1 = faults (snd (GameStopHandler_resetPlayerState c r u w))
    /\ sets w1 = sets (snd (GameStopHandler_resetPlayerState c r u w))
    /\ zsets w1 = zsets (snd (GameStopHandler_resetPlayerState c r u w))
    /\ lists w1 = lists (snd (GameStopHandler_resetPlayerState c r u w)).
Proof.
  cbn [reset_players]. unfold bind at 1.
  destruct (GameStopHandler_resetPlayerState c r u w) as [[err|] w0]; cbn [snd];
    unfold bind, logf, ret; cbn beta iota zeta delta [fst snd];
    eexists; (split; [reflexivity|]); by wsimp.
Qed.

Lemma reset_players_frame (c r : string) (players : list string) :
  forall w : World,
    let w' := snd (reset_players c r players w) in
    (forall key, (forall u, u ∈ players -> key <> Keys_PlayerInfo c r u) ->
       hash_at w' key = hash_at w key)
    /\ faults w' = drop (length players) (faults w)
    /\ sets w' = sets w /\ zsets w' = zsets w /\ lists w' = lists w.
Proof.
  induction players as [|u rest IH]; intros w; cbn zeta.
  - cbn [reset_players ret snd length]. by rewrite drop_0.
  - destruct (reset_players_cons c r u rest w) as (w1 & -> & Hh & Hf & Hs & Hz & Hl).
    destruct (resetPlayerState_frame c r u w) as (_ & Hother & Hf0 & Hs0 & Hz0 & Hl0).
    destruct (IH w1) as (IHh & IHf & IHs & IHz & IHl).
    split; [|split; [|split; [|split]]].
    + intros key Hkey. rewrite IHh.
      * rewrite (hash_at_ext _ _ _ Hh). apply Hother. apply Hkey. by left.
      * intros u' Hin. apply Hkey. by right.
    + rewrite IHf, Hf, Hf0. cbn [length].
      destruct (faults w) as [|f fs]; cbn [tail]; [by rewrite !drop_nil|reflexivity].
    + congruence.
    + congruence.
    + congruence.
Qed.

(** The loop over the seated players is best effort: the [k]-th player is
    reset iff the [k]-th round trip of the loop goes through, whatever
    happened to the players before. *)
Lemma reset_players_spec (c r : string) (players : list string) :
  forall w : World,
    NoDup players ->
    forall (k : nat) (u : string),
      players !! k = Some u ->
      hash_at (snd (reset_players c r players w)) (Keys_PlayerInfo c r u)
      = if nth k (faults w) false then hash_at w (Keys_PlayerInfo c r u)
        else player_reset (hash_at w (Keys_PlayerInfo c r u)).
Proof.
  induction players as [|u0 rest IH]; intros w Hnd k u Hk; [discriminate Hk|].
  apply NoDup_cons in Hnd as [Hu0 Hnd].
  destruct (reset_players_cons c r u0 rest w) as (w1 & -> & Hh & Hf & _).
  destruct (resetPlayerState_frame c r u0 w) as (Hself & Hother & Hf0 & _).
  destruct k as [|k]; cbn [lookup list_lookup] in Hk.
  - injection Hk as <-.
    destruct (reset_players_frame c r rest w1) as (Hframe & _). rewrite Hframe.
    + rewrite (hash_at_ext _ _ _ Hh), Hself, up_hd. by destruct (nth 0 (faults w) false).
    + intros u' Hin Heq. apply PlayerInfo_inj in Heq. subst u'. contradiction.
  - rewrite (IH w1 Hnd k u Hk). rewrite Hf, Hf0.
    assert (Hne : Keys_PlayerInfo c r u <> Keys_PlayerInfo c r u0).
    { intros Heq. apply PlayerInfo_inj in Heq. subst u0.
      apply Hu0. by apply (list_elem_of_lookup_2 _ k). }
    rewrite (hash_at_ext _ _ _ Hh), (Hother _ Hne).
    destruct (faults w) as [|f fs]; [by destruct k|reflexivity].
Qed.

(** The stop handler, called on a room with a hand in progress, its four
    reads and its batch going through: the game record is reset, and the
    [k]-th seated player's record is reset iff the round trip of that
    reset goes through.  A reset that fails leaves that player's record
    as it was and the loop goes on to the next player. *)
Theorem GameStopHandler_resets_players_best_effort (c r previousPhase reason : string)
    (w : World) :
  key_exists w (Keys_RoomInfo c r) = true ->
  stored_game w c r <> ∅ ->
  stored_phase w c r <> GamePhaseWaiting -> stored_phase w c r <> GamePhaseFinished ->
  up w = true -> up (pass w) = true -> up (pass (pass w)) = true ->
  up (pass (pass (pass w))) = true ->
  let w' := snd (GameStopHandler_Handle c r previousPhase reason w) in
  fst (GameStopHandler_Handle c r previousPhase reason w) = None
  /\ stored_game w' c r !! "phase" = Some "waiting"
  /\ (forall (k : nat) (u : string),
        elements (set_at w (Keys_RoomPlayers c r)) !! k = Some u ->
        hash_at w' (Keys_PlayerInfo c r u)
        = if nth k (faults (pass (pass (pass (pass w))))) false
          then hash_at w (Keys_PlayerInfo c r u)
          else player_reset (hash_at w (Keys_PlayerInfo c r u))).
Proof.
  intros Hroom Hgame Hnw Hnf Hup1 Hup2 Hup3 Hup4 w'.
  assert (Hrun : exists w4 w5,
            GameStopHandler_Handle c r previousPhase reason w = (None, w5)
            /\ hashes w5 = hashes (snd (reset_players c r
                                          (elements (set_at w (Keys_RoomPlayers c r))) w4))
            /\ faults w4 = faults (pass (pass (pass (pass w))))
            /\ (forall u, hash_at w4 (Keys_PlayerInfo c r u)
                          = hash_at w (Keys_PlayerInfo c r u))
            /\ hash_at w4 (Keys_GameState c r) !! "phase" = Some "waiting").
  { unfold GameStopHandler_Handle. unfold bind at 1, logf at 1.
    cbn beta iota zeta delta [fst snd]. unfold bind at 1. rewrite RoomExists_eq. wsimp.
    rewrite Hup1. cbn beta iota zeta delta [fst snd]. wsimp. rewrite Hroom.
    unfold bind at 1. rewrite IsGameActive_eq. wsimp. rewrite Hup2.
    destruct (size (stored_game w c r) =? 0)%nat eqn:Hsz;
      [apply size_zero_empty in Hsz; contradiction|].
    rewrite (bool_decide_eq_true_2 _ Hnw), (bool_decide_eq_true_2 _ Hnf). cbn [andb].
    cbn [pipe_HSet RedisClient_Pipeline app].
    unfold bind at 1, pipe_Exec, command. wsimp. rewrite Hup3.
    cbn beta iota zeta delta [fst snd].
    unfold bind at 1. rewrite GetPlayerIDs_eq. wsimp. rewrite Hup4.
    cbn beta iota zeta delta [fst snd]. wsimp.
    unfold bind at 1.
    match goal with |- context [reset_players c r ?l ?x] =>
      set (w4 := x); destruct (reset_players c r l w4) as [[] w4'] eqn:Hreset end.
    unfold bind at 1. unfold ActionLogger_LogGameStopped.
    match goal with |- context [ActionLogger_LogAction ?a ?b ?g ?d ?x] =>
      pose proof (LogAction_hashes a b g d x) as Hlog;
      destruct (ActionLogger_LogAction a b g d x) as [e w5] end.
    cbn [snd] in Hlog.
    exists w4. destruct e as [err|]; unfold bind, logf, ret;
      cbn beta iota zeta delta [fst snd];
      (eexists; split; [reflexivity|]; split; [wsimp; rewrite Hreset; exact Hlog|]).
    all: clear Hreset; subst w4;
      (split;
       [ rewrite faults_pass;
         match goal with |- context [fold_left run_cmd ?b ?x] =>
           destruct (run_batch_frame b x) as (_ & _ & _ & _ & -> & _) end;
         wsimp; by rewrite !faults_pass |]);
      cbn [fold_left run_cmd];
      pose proof (RoomInfo_ne_GameState c r) as Hne;
      (split;
       [ intros u; pose proof (PlayerInfo_ne_RoomInfo c r u) as Hi;
         pose proof (PlayerInfo_ne_GameState c r u) as Hg;
         wsimp; rewrite !hset_other by assumption; by wsimp
       | wsimp; rewrite !hset_lookup; by decide_fields ]). }
  destruct Hrun as (w4 & w5 & Hrun & Hh & Hf & Hplayers & Hphase).
  subst w'. rewrite Hrun. cbn [fst snd].
  split; [reflexivity|].
  destruct (reset_players_frame c r (elements (set_at w (Keys_RoomPlayers c r))) w4)
    as (Hframe & _).
  split.
  - unfold stored_game. rewrite (hash_at_ext _ _ _ Hh), Hframe; [exact Hphase|].
    intros u _ Heq. symmetry in Heq. by apply PlayerInfo_ne_GameState in Heq.
  - intros k u Hk. rewrite (hash_at_ext _ _ _ Hh).
    rewrite (reset_players_spec c r _ w4 (NoDup_elements _) k u Hk).
    by rewrite Hf, Hplayers.
Qed.

(** ** The phases of a game *)

Lemma IsValidGamePhase_cases (p : string) :
  IsValidGamePhase p = true ->
  p = "waiting" \/ p = "pre_flop" \/ p = "flop" \/ p = "turn" \/ p = "river"
  \/ p = "showdown" \/ p = "finished".
Proof.
  unfold IsValidGamePhase. rewrite !orb_true_iff, !bool_decide_eq_true. tauto.
Qed.

Lemma IsValidGamePhase_false (p : string) :
  IsValidGamePhase p = false ->
  p <> "waiting" /\ p <> "pre_flop" /\ p <> "flop" /\ p <> "turn" /\ p <> "river"
  /\ p <> "showdown" /\ p <> "finished".
Proof.
  unfold IsValidGamePhase. rewrite !orb_false_iff, !bool_decide_eq_false. tauto.
Qed.

(** The seven phases are the ones IsValidGamePhase accepts and the ones
    GetAllGamePhases lists.  ParseGamePhase returns one of them for every
    text: the text itself when it is a phase, [waiting] when it is not. *)
Theorem ParseGamePhase_yields_a_valid_phase (text : string) :
  (IsValidGamePhase text = true <-> text ∈ GetAllGamePhases)
  /\ ParseGamePhase text ∈ GetAllGamePhases
  /\ (IsValidGamePhase text = true -> ParseGamePhase text = text)
  /\ (IsValidGamePhase text = false -> ParseGamePhase text = GamePhaseWaiting)
  /\ ParseGamePhase (ParseGamePhase text) = ParseGamePhase text.
Proof.
  assert (Hall : forall p, IsValidGamePhase p = true <-> p ∈ GetAllGamePhases).
  { intros p. unfold GetAllGamePhases. rewrite !elem_of_cons, elem_of_nil. split.
    - intros Hp. apply IsValidGamePhase_cases in Hp. unfold GamePhaseWaiting,
        GamePhasePreFlop, GamePhaseFlop, GamePhaseTurn, GamePhaseRiver, GamePhaseShowdown,
        GamePhaseFinished. tauto.
    - intros Hp. repeat (destruct Hp as [->|Hp]; [reflexivity|]). contradiction. }
  assert (Hvalid : IsValidGamePhase text = true -> ParseGamePhase text = text).
  { intros Hp. apply IsValidGamePhase_cases in Hp.
    repeat (destruct Hp as [->|Hp]; [reflexivity|]). by subst. }
  assert (Hother : IsValidGamePhase text = false -> ParseGamePhase text = GamePhaseWaiting).
  { intros Hp. apply IsValidGamePhase_false in Hp.
    destruct Hp as (? & ? & ? & ? & ? & ? & ?). unfold ParseGamePhase.
    by rewrite !bool_decide_eq_false_2 by assumption. }
  assert (Hin : ParseGamePhase text ∈ GetAllGamePhases).
  { destruct (IsValidGamePhase text) eqn:Hp.
    - rewrite Hvalid by reflexivity. by apply Hall.
    - rewrite Hother by reflexivity. by apply Hall. }
  split; [apply Hall|]. split; [exact Hin|]. split; [exact Hvalid|].
  split; [exact Hother|].
  apply Hall in Hin. apply IsValidGamePhase_cases in Hin.
  repeat (destruct Hin as [->|Hin]; [reflexivity|]). by rewrite Hin.
Qed.

(** NextPhase proposes a transition CanTransitionTo allows exactly when
    the current phase is one of the seven; from any other text it
    proposes [waiting], which is refused.  Its result is always one of the
    seven phases, and seven steps from a phase lead back to it. *)
Theorem NextPhase_follows_the_transition_table (g : Game) :
  Game_CanTransitionTo g (Game_NextPhase g) = IsValidGamePhase (Phase g)
  /\ IsValidGamePhase (Game_NextPhase g) = true
  /\ (IsValidGamePhase (Phase g) = true -> Phase (Nat.iter 7 advance g) = Phase g)
  /\ (IsValidGamePhase (Phase g) = false -> Game_NextPhase g = GamePhaseWaiting).
Proof.
  destruct g as [gid rid cid p pot bet dp sb bb cp rn cc st sp].
  unfold Game_CanTransitionTo. cbn [Phase]. rewrite validTransitions_lookup.
  destruct (IsValidGamePhase p) eqn:Hp.
  - apply IsValidGamePhase_cases in Hp.
    repeat (destruct Hp as [->|Hp];
            [split; [reflexivity|]; split; [reflexivity|]; split;
             [intros _; reflexivity | discriminate]|]).
    subst p. split; [reflexivity|]. split; [reflexivity|]. split;
      [intros _; reflexivity | discriminate].
  - apply IsValidGamePhase_false in Hp. destruct Hp as (? & ? & ? & ? & ? & ? & ?).
    unfold Game_NextPhase, GamePhaseWaiting, GamePhasePreFlop, GamePhaseFlop,
      GamePhaseTurn, GamePhaseRiver, GamePhaseShowdown, GamePhaseFinished. cbn [Phase].
    rewrite !bool_decide_eq_false_2 by assumption.
    rewrite !decide_False by assumption.
    split; [reflexivity|]. split; [reflexivity|]. split; [discriminate|reflexivity].
Qed.

(** The table lets a game go to [waiting] from [finished] and from no
    other phase: for a hand in progress CanTransitionTo refuses [waiting],
    the phase the stop transition writes. *)
Theorem only_a_finished_game_may_go_to_waiting (g : Game) :
  (Game_CanTransitionTo g GamePhaseWaiting = true <-> Phase g = GamePhaseFinished)
  /\ (Game_IsActive g = true -> Game_CanTransitionTo g GamePhaseWaiting = false)
  /\ (Game_IsActive g = true -> Game_IsWaiting g = false /\ Game_IsFinished g = false).
Proof.
  destruct g as [gid rid cid p pot bet dp sb bb cp rn cc st sp].
  unfold Game_CanTransitionTo, Game_IsActive, Game_IsWaiting, Game_IsFinished.
  cbn [Phase]. rewrite validTransitions_lookup.
  unfold GamePhaseWaiting, GamePhaseFinished.
  split; [|split].
  - split.
    + intros Hgo.
      repeat (case_decide;
              [subst p; first [reflexivity | vm_compute in Hgo; discriminate Hgo]|]).
      discriminate Hgo.
    + intros ->. reflexivity.
  - rewrite andb_true_iff, !bool_decide_eq_true. intros [Hw Hf].
    repeat (case_decide; [subst p; first [contradiction | reflexivity]|]). reflexivity.
  - rewrite andb_true_iff, !bool_decide_eq_true. intros [Hw Hf].
    by rewrite !bool_decide_eq_false_2 by assumption.
Qed.

(** *** The dealer button *)

(** MoveDealerPosition with a positive number of seats and the button
    on a seat number that is not negative: the new position is a seat
    number below [maxPlayers]: the next one, or seat 0 after the last.
    Nothing else of the game changes. *)
Theorem MoveDealerPosition_stays_on_the_table (g : Game) (maxPlayers : Z) :
  (0 < maxPlayers)%Z -> (0 <= DealerPosition g < 2 ^ 63 - 1)%Z ->
  exists g' : Game,
    Game_MoveDealerPosition g maxPlayers = Ok g'
    /\ (0 <= DealerPosition g' < maxPlayers)%Z
    /\ DealerPosition g' = ((DealerPosition g + 1) mod maxPlayers)%Z
    /\ Phase g' = Phase g /\ Pot g' = Pot g.
Proof.
  intros Hmax Hpos. unfold Game_MoveDealerPosition.
  rewrite (proj2 (Z.eqb_neq _ _)) by lia.
  eexists. split; [reflexivity|]. cbn [DealerPosition Game_SetDealerPosition Phase Pot].
  assert (Hwrap : int_wrap (DealerPosition g + 1) = (DealerPosition g + 1)%Z).
  { unfold int_wrap. rewrite Z.mod_small by lia. lia. }
  rewrite Hwrap, Z.rem_mod_nonneg by lia.
  split; [apply Z.mod_pos_bound; lia|]. by repeat split.
Qed.

(** *** The cards *)

Lemma found_in_elem (valid : list string) (x : string) :
  found_in valid x = true <-> x ∈ valid.
Proof.
  induction valid as [|v rest IH]; cbn [found_in].
  - split; [discriminate|]. intros Hin. by apply elem_of_nil in Hin.
  - rewrite elem_of_cons. case_bool_decide as Hx.
    + split; [by left|reflexivity].
    + rewrite IH. split; [by right|]. intros [?|?]; [contradiction|assumption].
Qed.

Lemma string_of_byte_one (b c : ascii) :
  string_of_byte b = String c EmptyString -> b = c.
Proof.
  unfold string_of_byte. destruct (nat_of_ascii b <? 128)%nat; [|discriminate].
  by intros [= ->].
Qed.

(** IsValidCard accepts exactly the 52 cards CreateDeck builds; on each
    of them ParseCard returns the rank and the suit the card is made of. *)
Theorem IsValidCard_accepts_the_cards_of_the_deck (card : string) :
  (IsValidCard card = true <-> card ∈ canonical_deck)
  /\ (card ∈ canonical_deck ->
      fst (ParseCard card) ∈ ranks /\ snd (ParseCard card) ∈ suits
      /\ fst (ParseCard card) +:+ snd (ParseCard card) = card)
  /\ (String.length card <> 2 ->
      IsValidCard card = false /\ ParseCard card = (EmptyString, EmptyString)).
Proof.
  assert (Hdeck : Forall (fun c => IsValidCard c = true
                            /\ fst (ParseCard c) ∈ ranks /\ snd (ParseCard c) ∈ suits
                            /\ fst (ParseCard c) +:+ snd (ParseCard c) = c) canonical_deck).
  { apply (bool_decide_unpack _). vm_compute. exact I. }
  rewrite Forall_forall in Hdeck.
  split; [split|split].
  - destruct card as [|b0 [|b1 [|b2 rest]]]; try discriminate.
    unfold IsValidCard. destruct (found_in _ (string_of_byte b0)) eqn:Hrank;
      [|discriminate]. cbn [negb]. intros Hsuit.
    apply found_in_elem in Hrank, Hsuit. unfold Hearts, Diamonds, Clubs, Spades in Hsuit.
    repeat (apply elem_of_cons in Hrank as [Hrank|Hrank];
            [apply string_of_byte_one in Hrank; subst b0;
             repeat (apply elem_of_cons in Hsuit as [Hsuit|Hsuit];
                     [apply string_of_byte_one in Hsuit; subst b1;
                      apply (bool_decide_unpack _); vm_compute; exact I|]);
             by apply elem_of_nil in Hsuit|]).
    by apply elem_of_nil in Hrank.
  - intros Hin. apply (Hdeck card Hin).
  - intros Hin. apply (Hdeck card Hin).
  - intros Hlen. destruct card as [|b0 [|b1 [|b2 rest]]]; by split.
Qed.

(** *** Saving and drawing *)

(** A saved deck is drawn from its end: after SaveDeckToRedis, with the
    store reachable, DrawCards returns the last [n] cards of the slice
    that was saved, last card first, whatever deck the room had before;
    the stored deck keeps the cards in front of them, and once all are
    drawn DrawCard returns the empty string. *)
Theorem a_saved_deck_is_drawn_from_its_end (c r : string) (deck : list string) (n : Z)
    (w : World) :
  faults w = [] -> deck <> [] -> Forall (fun card => card <> EmptyString) deck ->
  (0 <= n)%Z ->
  let w1 := snd (DeckManager_SaveDeckToRedis c r deck w) in
  fst (DeckManager_SaveDeckToRedis c r deck w) = None
  /\ list_at w1 (Keys_RoomDeck c r) = deck
  /\ exists w2 : World,
       DeckManager_DrawCards c r n w1 = (Ok (take (Z.to_nat n) (rev deck)), w2)
       /\ list_at w2 (Keys_RoomDeck c r) = take (length deck - Z.to_nat n) deck
       /\ (Z.of_nat (length deck) <= n -> fst (DeckManager_DrawCard c r w2) = Ok EmptyString)%Z.
Proof.
  intros Hf Hne Hcards Hn w1.
  destruct (SaveDeckToRedis_ok c r deck w Hf Hne) as (w' & Hsave & Hdeck & Hf' & _).
  subst w1. rewrite Hsave. cbn [fst snd].
  split; [reflexivity|]. split; [exact Hdeck|].
  destruct (DrawCards_exact c r n (rev deck) w' Hn Hf') as (w2 & Hdraw & Hleft & Hframe).
  { by rewrite rev_involutive. }
  { by apply Forall_rev. }
  exists w2. split; [exact Hdraw|].
  assert (Hrest : list_at w2 (Keys_RoomDeck c r) = take (length deck - Z.to_nat n) deck).
  { rewrite Hleft. change (@drop string) with (@skipn string).
    rewrite skipn_rev, rev_involutive. reflexivity. }
  split; [exact Hrest|].
  intros Hall. rewrite DrawCard_eq.
  destruct Hframe as (_ & _ & _ & Hf2 & _). rewrite (up_nil w2) by congruence.
  rewrite Hrest. replace (length deck - Z.to_nat n) with 0 by lia.
  rewrite take_0, pop_back_nil. reflexivity.
Qed.

Lemma up_del_key k (w : World) : up (del_key k w) = up w.
Proof. unfold up, roundtrip, del_key. cbn [faults]. by destruct (faults w). Qed.

Lemma pass_del_key k (w : World) : pass (del_key k w) = del_key k (pass w).
Proof.
  unfold pass, roundtrip, del_key. cbn [faults].
  destruct (faults w) eqn:E; cbn; rewrite ?E; reflexivity.
Qed.

(** SaveDeckToRedis deletes the stored deck before it pushes the new
    one, in two round trips: when the second one fails the call returns
    the error and the room is left with no deck; saving an empty slice
    fails in the same way, the store refusing a push of no value. *)
Theorem a_failed_save_loses_the_old_deck (c r : string) (deck : list string) (w : World) :
  up w = true ->
  up (pass w) = false \/ deck = [] ->
  let w' := snd (DeckManager_SaveDeckToRedis c r deck w) in
  fst (DeckManager_SaveDeckToRedis c r deck w) <> None
  /\ list_at w' (Keys_RoomDeck c r) = []
  /\ (forall k : string, k <> Keys_RoomDeck c r -> hash_at w' k = hash_at w k).
Proof.
  intros Hup Hfail. cbn zeta.
  unfold DeckManager_SaveDeckToRedis, RedisClient_Del, RedisClient_RPush, client_Del,
    client_RPush, wrap, RedisError, command, logf, bind, ret.
  rewrite Hup. cbn [fold_left]. rewrite up_del_key, pass_del_key. wsimp.
  destruct (up (pass w)) eqn:Hup2.
  - destruct Hfail as [?| ->]; [discriminate|]. cbn beta iota zeta delta [fst snd].
    wsimp. split; [discriminate|]. split; [by wsimp|].
    intros k Hk. wsimp. rewrite hash_at_del_key by exact Hk. by wsimp.
  - cbn beta iota zeta delta [fst snd]. wsimp.
    split; [discriminate|]. split; [by wsimp|].
    intros k Hk. wsimp. rewrite hash_at_del_key by exact Hk. by wsimp.
Qed.


(** *** The community cards *)

Lemma HGet_eq (key f : string) (w : World) :
  RedisClient_HGet key f w =
    if up w then (Ok (field (hash_at w key) f), pass w)
    else (Err StoreUnavailable,
          log_line (redis_line ("HGET " +:+ key +:+ " " +:+ f) StoreUnavailable) (pass w)).
Proof.
  unfold RedisClient_HGet, client_HGet, RedisError, command, bind, ret, field.
  destruct (up w); wsimp; [|reflexivity].
  by destruct (hash_at w key !! f).
Qed.

Lemma saveCommunityCards_eq (c r : string) (cards : list string) (w : World) :
  CardDealer_saveCommunityCards c r cards w =
    if up w then
      (None, hset (Keys_GameState c r) "community_cards"
               (AStr (json_Marshal_strings cards)) (pass w))
    else
      (Some (Errorw "error saving the community cards to Redis" StoreUnavailable),
       log_line (redis_line ("HSET " +:+ Keys_GameState c r +:+ " " +:+ "community_cards")
                   StoreUnavailable) (pass w)).
Proof.
  unfold CardDealer_saveCommunityCards, RedisClient_HSet, client_HSet, wrap, RedisError,
    command, logf, bind, ret.
  destruct (up w); wsimp; reflexivity.
Qed.

(** What DealCommunityCards does up to the decoding of the stored list,
    the store reachable: it draws first. *)
Lemma DealCommunityCards_run `{GoJSON} (c r : string) (n : Z) (ds : list string) (w : World) :
  faults w = [] ->
  list_at w (Keys_RoomDeck c r) = rev ds ->
  Forall (fun card => card <> EmptyString) ds ->
  (0 <= n)%Z ->
  exists w1 : World,
    list_at w1 (Keys_RoomDeck c r) = rev (drop (Z.to_nat n) ds)
    /\ hashes w1 = hashes w /\ sets w1 = sets w /\ faults w1 = []
    /\ CardDealer_DealCommunityCards c r n w =
         if bool_decide (Z.of_nat (length ds) < n)%Z then
           (Err (Errorf "not enough cards in the deck"),
            log_line (mkLogLine "CardDealer" "ERROR"
                        "not enough cards in the deck (asked %d, got %d)"
                        [pretty n; pretty (Z.of_nat (length (take (Z.to_nat n) ds)))]) w1)
         else
           match decode_cards "error parsing the community cards"
                   (field (stored_game w c r) "community_cards") with
           | Err err =>
               (Err err,
                log_line (mkLogLine "CardDealer" "ERROR"
                            "error reading the current community cards: %v"
                            [error_text err]) w1)
           | Ok current =>
               let cards := take (Z.to_nat n) ds in
               (Ok cards,
                log_line (mkLogLine "CardDealer" "INFO"
                            "community cards added: %v (on the table: %d)"
                            (cards ++ [pretty (Z.of_nat (length (current ++ cards)))]))
                  (hset (Keys_GameState c r) "community_cards"
                     (AStr (json_Marshal_strings (current ++ cards))) w1))
           end.
Proof.
  intros Hf Hdeck Hcards Hn.
  unfold CardDealer_DealCommunityCards. unfold bind at 1, logf at 1.
  cbn beta iota zeta delta [fst snd]. unfold bind at 1.
  match goal with |- context [DeckManager_DrawCards c r n ?x] =>
    destruct (DrawCards_exact c r n ds x Hn) as (w1 & -> & Hleft & Hframe)
  end.
  { by wsimp. }
  { by wsimp. }
  { exact Hcards. }
  destruct Hframe as (Hh & Hs & _ & Hf1 & _).
  revert Hh Hs Hf1. wsimp. intros Hh Hs Hf1.
  exists w1. split; [exact Hleft|]. split; [exact Hh|]. split; [exact Hs|].
  split; [congruence|].
  rewrite length_take.
  case_bool_decide as Hshort.
  - rewrite bool_decide_eq_true_2 by lia. unfold bind, logf, ret. reflexivity.
  - rewrite bool_decide_eq_false_2 by lia.
    unfold bind at 1, CardDealer_getCurrentCommunityCards. unfold bind at 1.
    rewrite HGet_eq, (up_nil w1), (pass_nil w1) by congruence.
    unfold ret at 1. cbn beta iota zeta delta [fst snd].
    unfold stored_game. rewrite (hash_at_ext w w1) by congruence.
    destruct (decode_cards _ _) as [current|err]; unfold ret at 1;
      cbn beta iota zeta delta [fst snd].
    + unfold bind at 1. rewrite saveCommunityCards_eq.
      rewrite (up_nil w1), (pass_nil w1) by congruence. reflexivity.
    + reflexivity.
Qed.

(** DealCommunityCards with the store reachable, enough cards in the deck
    and a stored list that decodes: the call returns the first [n] cards
    of the deck in drawing order, appends them to the stored community
    cards and leaves every other field and record as it was.  On a game
    record with no community cards, stored as the empty text, as [[]] or
    not at all, the stored list is the cards returned. *)
Theorem DealCommunityCards_appends_the_drawn_cards `{GoJSON} (c r : string) (n : Z)
    (ds current : list string) (w : World) :
  faults w = [] ->
  list_at w (Keys_RoomDeck c r) = rev ds ->
  Forall (fun card => card <> EmptyString) ds ->
  (0 <= n <= Z.of_nat (length ds))%Z ->
  decode_cards "error parsing the community cards"
    (field (stored_game w c r) "community_cards") = Ok current ->
  let cards := take (Z.to_nat n) ds in
  let w' := snd (CardDealer_DealCommunityCards c r n w) in
  fst (CardDealer_DealCommunityCards c r n w) = Ok cards
  /\ length cards = Z.to_nat n
  /\ stored_game w' c r
     = <["community_cards" := json_Marshal_strings (current ++ cards)]> (stored_game w c r)
  /\ list_at w' (Keys_RoomDeck c r) = rev (drop (Z.to_nat n) ds)
  /\ (forall k : string, k <> Keys_GameState c r -> hash_at w' k = hash_at w k)
  /\ sets w' = sets w.
Proof.
  intros Hf Hdeck Hcards Hn Hcur. cbn zeta.
  destruct (DealCommunityCards_run c r n ds w Hf Hdeck Hcards ltac:(lia))
    as (w1 & Hleft & Hh & Hs & _ & ->).
  rewrite bool_decide_eq_false_2 by lia. rewrite Hcur. cbn [fst snd].
  split; [reflexivity|]. split; [rewrite length_take; lia|].
  unfold stored_game. wsimp.
  split; [rewrite hset_same; cbn [encode_arg]; by rewrite (hash_at_ext w1 w)|].
  split; [exact Hleft|]. split; [|exact Hs].
  intros k Hk. wsimp. rewrite hset_other by exact Hk. by apply hash_at_ext.
Qed.

(** A deal that fails after the draw does not put the cards back: when
    the deck is too short, or the stored community cards do not decode,
    the call returns an error and writes no record, but the cards it drew
    are gone from the deck; a deck that was too short is left empty. *)
Theorem a_failed_deal_keeps_the_cards_it_drew `{GoJSON} (c r : string) (n : Z) (ds : list string)
    (w : World) :
  faults w = [] ->
  list_at w (Keys_RoomDeck c r) = rev ds ->
  Forall (fun card => card <> EmptyString) ds ->
  (0 <= n)%Z ->
  (Z.of_nat (length ds) < n)%Z
  \/ (exists err, decode_cards "error parsing the community cards"
                    (field (stored_game w c r) "community_cards") = Err err) ->
  let w' := snd (CardDealer_DealCommunityCards c r n w) in
  (exists err, fst (CardDealer_DealCommunityCards c r n w) = Err err)
  /\ list_at w' (Keys_RoomDeck c r) = rev (drop (Z.to_nat n) ds)
  /\ ((Z.of_nat (length ds) < n)%Z -> list_at w' (Keys_RoomDeck c r) = [])
  /\ hashes w' = hashes w.
Proof.
  intros Hf Hdeck Hcards Hn Hfail. cbn zeta.
  destruct (DealCommunityCards_run c r n ds w Hf Hdeck Hcards Hn)
    as (w1 & Hleft & Hh & Hs & _ & ->).
  assert (Hempty : (Z.of_nat (length ds) < n)%Z -> rev (drop (Z.to_nat n) ds) = []).
  { intros Hlt. rewrite drop_ge by lia. reflexivity. }
  case_bool_decide as Hshort.
  - cbn [fst snd]. wsimp. split; [by eexists|]. split; [exact Hleft|].
    split; [|exact Hh]. intros _. rewrite Hleft. by apply Hempty.
  - destruct Hfail as [Hlt|[err Herr]]; [contradiction|]. rewrite Herr.
    cbn [fst snd]. wsimp. split; [by eexists|]. split; [exact Hleft|].
    split; [|exact Hh]. intros Hlt. contradiction.
Qed.

(** *** Reading and clearing the cards *)

Lemma GameState_ne_RoomDeck (c r : string) : Keys_GameState c r <> Keys_RoomDeck c r.
Proof.
  unfold Keys_GameState, Keys_RoomDeck. intros H.
  do 4 apply append_inj_l in H. discriminate H.
Qed.

Lemma RoomPlayers_ne_RoomDeck (c r : string) : Keys_RoomDeck c r <> Keys_RoomPlayers c r.
Proof.
  unfold Keys_RoomPlayers, Keys_RoomDeck. intros H.
  do 4 apply append_inj_l in H. discriminate H.
Qed.

(** GetPlayerCards reads back the cards savePlayerCards stored, when the
    decoder of the JSON library inverts its encoder on them. *)
Theorem GetPlayerCards_reads_back_the_saved_cards `{GoJSON} (c r u : string) (cards : list string)
    (w : World) :
  up w = true -> up (pass w) = true ->
  json_Unmarshal_error (json_Marshal_strings cards) = None ->
  json_Unmarshal_strings (json_Marshal_strings cards) = cards ->
  (json_Marshal_strings cards = EmptyString \/ json_Marshal_strings cards = "[]" ->
   cards = []) ->
  let w1 := snd (CardDealer_savePlayerCards c r u cards w) in
  fst (CardDealer_savePlayerCards c r u cards w) = None
  /\ fst (CardDealer_GetPlayerCards c r u w1) = Ok cards
  /\ same_data w1 (snd (CardDealer_GetPlayerCards c r u w1)).
Proof.
  intros Hup1 Hup2 Hok Hround Hempty. cbn zeta.
  rewrite savePlayerCards_eq, Hup1. cbn [fst snd]. split; [reflexivity|].
  unfold CardDealer_GetPlayerCards, bind. rewrite HGet_eq. wsimp. rewrite Hup2.
  unfold ret. cbn [fst snd].
  split; [|unfold same_data; wsimp; split; [unfold hset, hash_at; by wsimp|by repeat split]].
  rewrite hset_same. unfold field. rewrite lookup_insert_eq.
  cbn [encode_arg default from_option id]. unfold decode_cards.
  destruct (bool_decide (json_Marshal_strings cards = EmptyString)
            || bool_decide (json_Marshal_strings cards = "[]")) eqn:Hspecial.
  - rewrite orb_true_iff, !bool_decide_eq_true in Hspecial. by rewrite Hempty.
  - by rewrite Hok, Hround.
Qed.

Lemma clear_cards_ok (c r : string) (players : list string) :
  forall w : World,
    faults w = [] -> NoDup players ->
    exists w' : World,
      clear_cards c r players w = (tt, w')
      /\ faults w' = [] /\ sets w' = sets w /\ lists w' = lists w
      /\ (forall u, u ∈ players ->
            hash_at w' (Keys_PlayerInfo c r u)
            = <["cards" := json_Marshal_strings []]> (hash_at w (Keys_PlayerInfo c r u)))
      /\ (forall key, (forall u, u ∈ players -> key <> Keys_PlayerInfo c r u) ->
            hash_at w' key = hash_at w key).
Proof.
  induction players as [|u0 rest IH]; intros w Hf Hnd.
  - exists w. cbn [clear_cards]. unfold ret. split; [reflexivity|].
    split; [exact Hf|]. split; [reflexivity|]. split; [reflexivity|].
    split; [|reflexivity]. intros u Hin. by apply elem_of_nil in Hin.
  - apply NoDup_cons in Hnd as [Hu0 Hnd].
    cbn [clear_cards]. unfold bind at 1. rewrite savePlayerCards_eq.
    rewrite (up_nil w Hf), (pass_nil w Hf). unfold bind at 1, ret at 1.
    cbn beta iota zeta delta [fst snd].
    set (w1 := hset (Keys_PlayerInfo c r u0) "cards" (AStr (json_Marshal_strings [])) w).
    destruct (IH w1) as (w' & -> & Hf' & Hs' & Hl' & Hseated & Hother).
    { subst w1. by wsimp. }
    { exact Hnd. }
    exists w'. split; [reflexivity|]. split; [exact Hf'|].
    split; [rewrite Hs'; subst w1; by wsimp|].
    split; [rewrite Hl'; subst w1; by wsimp|]. split.
    + intros u Hin. apply elem_of_cons in Hin as [->|Hin].
      * rewrite Hother.
        -- subst w1. by rewrite hset_same.
        -- intros u' Hin' Heq. apply PlayerInfo_inj in Heq. subst u'. contradiction.
      * rewrite (Hseated u Hin). subst w1. rewrite hset_other; [reflexivity|].
        intros Heq. apply PlayerInfo_inj in Heq. subst u0. contradiction.
    + intros key Hkey. rewrite Hother.
      * subst w1. apply hset_other. apply Hkey. by left.
      * intros u Hin. apply Hkey. by right.
Qed.

(** ClearAllCards with the store reachable: the cards of every seated
    player and the community cards are the empty list, the deck of the
    room is deleted, and the seats are as they were. *)
Theorem ClearAllCards_clears_the_room (c r : string) (w : World) :
  faults w = [] ->
  let w' := snd (CardDealer_ClearAllCards c r w) in
  fst (CardDealer_ClearAllCards c r w) = None
  /\ (forall u : string, u ∈ set_at w (Keys_RoomPlayers c r) ->
        hash_at w' (Keys_PlayerInfo c r u)
        = <["cards" := json_Marshal_strings []]> (hash_at w (Keys_PlayerInfo c r u)))
  /\ stored_game w' c r
     = <["community_cards" := json_Marshal_strings []]> (stored_game w c r)
  /\ list_at w' (Keys_RoomDeck c r) = []
  /\ set_at w' (Keys_RoomPlayers c r) = set_at w (Keys_RoomPlayers c r).
Proof.
  intros Hf. cbn zeta.
  assert (Hrun : exists w2 : World,
            CardDealer_ClearAllCards c r w
            = (None, log_line (mkLogLine "CardDealer" "INFO" "all cards cleared" [])
                       (del_key (Keys_RoomDeck c r) w2))
            /\ sets w2 = sets w
            /\ (forall u : string, u ∈ set_at w (Keys_RoomPlayers c r) ->
                  hash_at w2 (Keys_PlayerInfo c r u)
                  = <["cards" := json_Marshal_strings []]>
                      (hash_at w (Keys_PlayerInfo c r u)))
            /\ hash_at w2 (Keys_GameState c r)
               = <["community_cards" := json_Marshal_strings []]>
                   (hash_at w (Keys_GameState c r))).
  { unfold CardDealer_ClearAllCards. unfold bind at 1, logf at 1.
    cbn beta iota zeta delta [fst snd]. unfold bind at 1. rewrite GetPlayerIDs_eq.
    wsimp. rewrite (up_nil w Hf), (pass_nil w Hf). cbn beta iota zeta delta [fst snd].
    wsimp. unfold bind at 1.
    match goal with |- context [clear_cards c r ?l ?x] =>
      destruct (clear_cards_ok c r l x) as (w1 & -> & Hf1 & Hs1 & _ & Hseated & Hother)
    end.
    { by wsimp. }
    { apply NoDup_elements. }
    revert Hs1 Hseated Hother. wsimp. intros Hs1 Hseated Hother.
    unfold bind at 1. rewrite saveCommunityCards_eq.
    rewrite (up_nil w1 Hf1), (pass_nil w1 Hf1). cbn beta iota zeta delta [fst snd].
    unfold bind at 1, RedisClient_Del, client_Del, wrap, command.
    unfold bind at 1. rewrite (up_nil (hset _ _ _ w1)), (pass_nil (hset _ _ _ w1))
      by (by wsimp).
    cbn [fold_left]. unfold bind, logf, ret. cbn beta iota zeta delta [fst snd].
    eexists. split; [reflexivity|]. split; [by wsimp|]. split.
    - intros u Hin. rewrite hset_other by apply PlayerInfo_ne_GameState.
      assert (Hwsimp : hash_at (log_line (mkLogLine "CardDealer" "INFO"
                          "clearing all cards in room %s:%s" [c; r]) w)
                         (Keys_PlayerInfo c r u) = hash_at w (Keys_PlayerInfo c r u))
        by (by wsimp).
      rewrite <- Hwsimp. apply Hseated. by apply elem_of_elements.
    - rewrite hset_same. cbn [encode_arg]. rewrite Hother; [by wsimp|].
      intros u _ Heq. symmetry in Heq. by apply PlayerInfo_ne_GameState in Heq. }
  destruct Hrun as (w2 & -> & Hs & Hseated & Hgame). cbn [fst snd].
  split; [reflexivity|]. split; [|split; [|split]].
  - intros u Hin. wsimp. rewrite hash_at_del_key by apply PlayerInfo_ne_RoomDeck.
    by apply Hseated.
  - unfold stored_game. wsimp. rewrite hash_at_del_key by apply GameState_ne_RoomDeck.
    exact Hgame.
  - by wsimp.
  - wsimp. unfold set_at, del_key. cbn [sets]. rewrite Hs.
    rewrite lookup_delete_ne; [reflexivity|]. apply RoomPlayers_ne_RoomDeck.
Qed.

(** *** The other entry points of the stop handler *)

Lemma IsGameActive_progress (c r : string) (w : World) :
  GameStateService_IsGameActive c r w =
    if up w then (Ok (hand_in_progress w c r), pass w)
    else (Err StoreUnavailable, snd (GameStateService_GetGameState c r w)).
Proof.
  rewrite IsGameActive_eq. unfold hand_in_progress.
  destruct (up w); [|reflexivity].
  by destruct (size (stored_game w c r) =? 0)%nat.
Qed.

Lemma faults_run_batch_nil (b : list cmd) (w : World) :
  faults w = [] -> faults (fold_left run_cmd b w) = [].
Proof. intros Hf. by rewrite faults_run_batch. Qed.

(** The stop handler with the store reachable: it fails on a room that
    does not exist and on no other, and it stores nothing unless a hand
    is in progress in a room that exists. *)
Lemma Handle_reachable (c r previousPhase reason : string) (w : World) :
  faults w = [] ->
  exists w' : World,
    GameStopHandler_Handle c r previousPhase reason w
    = (if key_exists w (Keys_RoomInfo c r) then None
       else Some (Errorf ("room " +:+ c +:+ ":" +:+ r +:+ " does not exist")), w')
    /\ faults w' = []
    /\ (key_exists w (Keys_RoomInfo c r) && hand_in_progress w c r = false ->
        same_data w w')
    /\ (key_exists w (Keys_RoomInfo c r) && hand_in_progress w c r = true ->
        stored_phase w' c r = GamePhaseWaiting /\ sets w' = sets w).
Proof.
  intros Hf.
  unfold GameStopHandler_Handle. unfold bind at 1, logf at 1.
  cbn beta iota zeta delta [fst snd]. unfold bind at 1. rewrite RoomExists_eq. wsimp.
  rewrite (up_nil w Hf), (pass_nil w Hf). cbn beta iota zeta delta [fst snd]. wsimp.
  destruct (key_exists w (Keys_RoomInfo c r)) eqn:Hroom; cbn [andb].
  2:{ unfold ret. eexists. split; [reflexivity|]. split; [by wsimp|].
      split; [intros _; unfold same_data; by wsimp|discriminate]. }
  unfold bind at 1. rewrite IsGameActive_progress. wsimp.
  rewrite (up_nil w Hf), (pass_nil w Hf). cbn beta iota zeta delta [fst snd].
  unfold hand_in_progress at 1. wsimp. fold (hand_in_progress w c r).
  destruct (hand_in_progress w c r) eqn:Hactive.
  2:{ unfold bind, logf, ret. cbn beta iota zeta delta [fst snd].
      eexists. split; [reflexivity|]. split; [by wsimp|].
      split; [intros _; unfold same_data; by wsimp|discriminate]. }
  cbn [pipe_HSet RedisClient_Pipeline app].
  unfold bind at 1, pipe_Exec, command. wsimp.
  rewrite (up_nil w Hf), (pass_nil w Hf). cbn beta iota zeta delta [fst snd].
  unfold bind at 1. rewrite GetPlayerIDs_eq. wsimp.
  rewrite (up_nil w Hf).
  match goal with |- context [pass ?x] =>
    rewrite (pass_nil x) by (rewrite faults_run_batch; by wsimp) end.
  cbn beta iota zeta delta [fst snd]. wsimp.
  unfold bind at 1.
  match goal with |- context [reset_players c r ?l ?x] =>
    set (w4 := x);
    pose proof (reset_players_frame c r l w4) as Hframe;
    destruct (reset_players c r l w4) as [[] w4'] end.
  cbn zeta in Hframe. cbn [snd] in Hframe.
  destruct Hframe as (Hother & Hf4 & Hs4 & _).
  assert (Hfw4 : faults w4 = []).
  { subst w4. rewrite faults_run_batch. by wsimp. }
  rewrite Hfw4, drop_nil in Hf4.
  unfold bind at 1. unfold ActionLogger_LogGameStopped. rewrite LogAction_eq. cbn zeta.
  rewrite (up_nil w4' Hf4), (pass_nil w4' Hf4).
  unfold bind, logf, ret. cbn beta iota zeta delta [fst snd].
  eexists. split; [reflexivity|]. split; [by wsimp|]. split; [discriminate|].
  intros _. split.
  - unfold stored_phase, stored_game, field. wsimp. rewrite Hother.
    + subst w4. cbn [fold_left run_cmd]. pose proof (RoomInfo_ne_GameState c r) as Hne.
      rewrite !hset_lookup. by decide_fields.
    + intros u _ Heq. symmetry in Heq. by apply PlayerInfo_ne_GameState in Heq.
  - wsimp. rewrite Hs4. subst w4. by wsimp.
Qed.

Lemma GameState_ne_RoomPots (c r : string) : Keys_GameState c r <> Keys_RoomPots c r.
Proof.
  unfold Keys_GameState, Keys_RoomPots. intros H.
  do 4 apply append_inj_l in H. discriminate H.
Qed.

(** HandleWithCleanup with the store reachable: on a room that exists it
    returns no error, deletes the deck and resets the pots, whether a hand
    was in progress or not; the stored phase is [waiting] after a hand in
    progress and unchanged otherwise.  On a room that does not exist it
    returns the error of Handle and stores nothing. *)
Theorem HandleWithCleanup_cleans_every_room_that_exists (c r previousPhase reason : string)
    (w : World) :
  faults w = [] ->
  let w' := snd (GameStopHandler_HandleWithCleanup c r previousPhase reason w) in
  (key_exists w (Keys_RoomInfo c r) = true ->
     fst (GameStopHandler_HandleWithCleanup c r previousPhase reason w) = None
     /\ list_at w' (Keys_RoomDeck c r) = []
     /\ hash_at w' (Keys_RoomPots c r) !! "main_pot" = Some "0"
     /\ hash_at w' (Keys_RoomPots c r) !! "side_pots" = Some "[]"
     /\ stored_phase w' c r
        = if hand_in_progress w c r then GamePhaseWaiting else stored_phase w c r)
  /\ (key_exists w (Keys_RoomInfo c r) = false ->
      fst (GameStopHandler_HandleWithCleanup c r previousPhase reason w)
      = Some (Errorf ("room " +:+ c +:+ ":" +:+ r +:+ " does not exist"))
      /\ same_data w w').
Proof.
  intros Hf. cbn zeta.
  assert (Hrun : exists (e : option error) (w' : World),
            GameStopHandler_HandleWithCleanup c r previousPhase reason w = (e, w')
            /\ (key_exists w (Keys_RoomInfo c r) = true ->
                e = None
                /\ list_at w' (Keys_RoomDeck c r) = []
                /\ hash_at w' (Keys_RoomPots c r) !! "main_pot" = Some "0"
                /\ hash_at w' (Keys_RoomPots c r) !! "side_pots" = Some "[]"
                /\ stored_phase w' c r
                   = if hand_in_progress w c r then GamePhaseWaiting
                     else stored_phase w c r)
            /\ (key_exists w (Keys_RoomInfo c r) = false ->
                e = Some (Errorf ("room " +:+ c +:+ ":" +:+ r +:+ " does not exist"))
                /\ same_data w w')).
  { unfold GameStopHandler_HandleWithCleanup. unfold bind at 1.
    destruct (Handle_reachable c r previousPhase reason w Hf)
      as (w1 & -> & Hf1 & Hidle & Hstop).
    destruct (key_exists w (Keys_RoomInfo c r)) eqn:Hroom; cbn [andb] in Hidle, Hstop.
    - unfold bind at 1, RedisClient_Del, client_Del, wrap, command. unfold bind at 1.
      rewrite (up_nil w1 Hf1), (pass_nil w1 Hf1). cbn [fold_left].
      unfold ret at 1. cbn beta iota zeta delta [fst snd].
      unfold bind at 1, RedisClient_HMSet, client_HMSet, wrap, command. unfold bind at 1.
      rewrite (up_nil (del_key _ w1)), (pass_nil (del_key _ w1)) by (by wsimp).
      cbn [fold_left fst snd]. unfold bind, logf, ret. cbn beta iota zeta delta [fst snd].
      eexists _, _. split; [reflexivity|]. split; [intros _|discriminate].
      split; [reflexivity|]. wsimp. split; [by wsimp|].
      rewrite !hset_lookup, encode_zero. cbn [encode_arg].
      split; [by decide_fields|]. split; [by decide_fields|].
      unfold stored_phase, stored_game. wsimp.
      rewrite !hset_other by apply GameState_ne_RoomPots.
      rewrite hash_at_del_key by apply GameState_ne_RoomDeck.
      fold (stored_game w1 c r). fold (stored_phase w1 c r).
      destruct (hand_in_progress w c r).
      + by apply Hstop.
      + unfold stored_phase, stored_game. f_equal. apply hash_at_ext.
        by apply Hidle.
    - unfold ret. eexists _, _. split; [reflexivity|]. split; [discriminate|intros _].
      split; [reflexivity|]. by apply Hidle. }
  destruct Hrun as (e & w' & -> & Hrun). exact Hrun.
Qed.

(** StopIfNeeded with the store reachable stops a hand exactly when one
    is in progress and fewer than [minPlayers] players are seated: the
    stored phase is then [waiting] and the call returns true, or the error
    of Handle when the room does not exist.  In every other case it
    returns false with no error and stores nothing; a finished hand with
    too few players is such a case. *)
Theorem StopIfNeeded_stops_a_hand_in_progress_only (c r : string) (minPlayers : Z)
    (w : World) :
  faults w = [] ->
  let needed := hand_in_progress w c r && (seated w c r <? minPlayers)%Z in
  let w' := snd (GameStopHandler_StopIfNeeded c r minPlayers w) in
  fst (GameStopHandler_StopIfNeeded c r minPlayers w)
  = (if needed then
       if key_exists w (Keys_RoomInfo c r) then (true, None)
       else (false, Some (Errorf ("room " +:+ c +:+ ":" +:+ r +:+ " does not exist")))
     else (false, None))
  /\ (needed = false -> same_data w w')
  /\ (needed = true -> key_exists w (Keys_RoomInfo c r) = true ->
      stored_phase w' c r = GamePhaseWaiting)
  /\ (stored_phase w c r = GamePhaseFinished -> needed = false).
Proof.
  intros Hf. cbn zeta.
  assert (Hfin : stored_phase w c r = GamePhaseFinished ->
                 hand_in_progress w c r && (seated w c r <? minPlayers)%Z = false).
  { intros Hp. unfold hand_in_progress. rewrite Hp.
    rewrite (bool_decide_eq_false_2 (GamePhaseFinished ≠ GamePhaseFinished))
      by (intros Hne; by apply Hne).
    by rewrite andb_false_r. }
  assert (Hrun : exists (res : bool * option error) (w' : World),
            GameStopHandler_StopIfNeeded c r minPlayers w = (res, w')
            /\ res = (if hand_in_progress w c r && (seated w c r <? minPlayers)%Z then
                        if key_exists w (Keys_RoomInfo c r) then (true, None)
                        else (false, Some (Errorf ("room " +:+ c +:+ ":" +:+ r
                                                   +:+ " does not exist")))
                      else (false, None))
            /\ (hand_in_progress w c r && (seated w c r <? minPlayers)%Z = false ->
                same_data w w')
            /\ (hand_in_progress w c r && (seated w c r <? minPlayers)%Z = true ->
                key_exists w (Keys_RoomInfo c r) = true ->
                stored_phase w' c r = GamePhaseWaiting)).
  { unfold GameStopHandler_StopIfNeeded. unfold bind at 1. rewrite IsGameActive_progress.
    rewrite (up_nil w Hf), (pass_nil w Hf).
    destruct (hand_in_progress w c r) eqn:Hactive; cbn [andb].
    2:{ unfold ret. eexists _, _. split; [reflexivity|]. split; [reflexivity|].
        split; [intros _; apply same_data_refl|discriminate]. }
    unfold bind at 1. rewrite GetPlayersCount_eq, (up_nil w Hf), (pass_nil w Hf).
    rewrite Z.leb_antisym.
    destruct (seated w c r <? minPlayers)%Z eqn:Hfew; cbn [negb].
    2:{ unfold ret. eexists _, _. split; [reflexivity|]. split; [reflexivity|].
        split; [intros _; apply same_data_refl|discriminate]. }
    unfold bind at 1. rewrite GetGameState_eq, (up_nil w Hf), (pass_nil w Hf).
    unfold bind at 1.
    match goal with |- context [GameStopHandler_Handle c r ?p ?why w] =>
      destruct (Handle_reachable c r p why w Hf) as (w1 & -> & _ & _ & Hstop) end.
    rewrite Hactive, andb_true_r in Hstop.
    destruct (key_exists w (Keys_RoomInfo c r)); unfold ret; eexists _, _;
      (split; [reflexivity|]); (split; [reflexivity|]); (split; [discriminate|]).
    - intros _ _. by apply Hstop.
    - discriminate. }
  destruct Hrun as (res & w' & -> & -> & Hidle & Hstop). cbn [fst snd].
  split; [reflexivity|]. split; [exact Hidle|]. split; [exact Hstop|exact Hfin].
Qed.

(** CanStopGame and SaveGameResults only read: whatever the store
    answers they change no stored data.  With its two reads through,
    CanStopGame answers true exactly for a room that exists with a hand in
    progress; with its read through, SaveGameResults returns an error
    exactly when no game record is stored or its game id is empty. *)
Theorem the_checks_of_the_stop_handler_store_nothing (c r : string) (w : World) :
  same_data w (snd (GameStopHandler_CanStopGame c r w))
  /\ same_data w (snd (GameStopHandler_SaveGameResults c r w))
  /\ (up w = true -> up (pass w) = true ->
      fst (GameStopHandler_CanStopGame c r w)
      = (key_exists w (Keys_RoomInfo c r) && hand_in_progress w c r, None))
  /\ (up w = true ->
      (fst (GameStopHandler_SaveGameResults c r w) = None
       <-> stored_game w c r <> ∅ /\ field (stored_game w c r) "game_id" <> EmptyString)).
Proof.
  split; [|split; [|split]].
  - unfold GameStopHandler_CanStopGame. unfold bind at 1. rewrite RoomExists_eq.
    destruct (up w) eqn:Hup.
    + destruct (key_exists w (Keys_RoomInfo c r)).
      * unfold bind. rewrite IsGameActive_progress. wsimp.
        destruct (up (pass w)) eqn:Hup2; unfold ret; cbn [snd].
        -- unfold same_data. by wsimp.
        -- eapply same_data_trans; [apply same_data_pass|]. apply GetGameState_data.
      * unfold ret. cbn [snd]. apply same_data_pass.
    + unfold ret. cbn [snd]. unfold same_data. by wsimp.
  - unfold GameStopHandler_SaveGameResults. unfold bind at 1.
    pose proof (GetGameState_data c r w) as Hdata.
    destruct (GameStateService_GetGameState c r w) as [[[g|]|err] w1]; cbn [snd] in Hdata;
      unfold ret; cbn [snd]; try exact Hdata.
    case_bool_decide; unfold bind, logf, ret; cbn [snd]; [exact Hdata|].
    revert Hdata. unfold same_data. by wsimp.
  - intros Hup1 Hup2. unfold GameStopHandler_CanStopGame. unfold bind at 1.
    rewrite RoomExists_eq, Hup1.
    destruct (key_exists w (Keys_RoomInfo c r)); [|reflexivity].
    unfold bind. rewrite IsGameActive_progress. wsimp. rewrite Hup2.
    unfold hand_in_progress. by wsimp.
  - intros Hup. unfold GameStopHandler_SaveGameResults. unfold bind at 1.
    rewrite GetGameState_eq, Hup.
    destruct (size (stored_game w c r) =? 0)%nat eqn:Hsz.
    + apply size_zero_empty in Hsz. unfold ret. cbn [fst]. split; [discriminate|].
      intros [Hne _]. contradiction.
    + assert (Hne : stored_game w c r <> ∅).
      { intros Hempty. apply size_zero_empty in Hempty. congruence. }
      cbn [GameID with_room parse_game].
      case_bool_decide as Hid; unfold bind, logf, ret; cbn [fst].
      * split; [discriminate|]. intros [_ Hid']. contradiction.
      * split; [by intros _|reflexivity].
Qed.

(** ** The monitor beyond one decision *)

(** The stop transition of the monitor has no guard of its own: whatever
    phase is stored, once its batch and the push of the event go through
    it returns no error, sets the phase to [waiting] and appends one
    [game_stopped] event to the action list of the room.  The per-room
    check is what keeps it from a waiting room. *)
Theorem handleGameStop_appends_a_stop_event (c r previousPhase reason : string)
    (w : World) :
  up w = true -> up (pass w) = true ->
  let w' := snd (RoomMonitor_handleGameStop c r previousPhase reason w) in
  fst (RoomMonitor_handleGameStop c r previousPhase reason w) = None
  /\ stored_game w' c r !! "phase" = Some "waiting"
  /\ list_at w' (Keys_RoomActions c r)
     = list_at w (Keys_RoomActions c r)
       ++ [json_Marshal_action
             (mkActionData "game_stopped" (wall w (reads w)) "game_engine"
                [("previous_phase", JString previousPhase); ("reason", JString reason)])].
Proof.
  intros Hup1 Hup2 w'. subst w'. rewrite handleGameStop_eq. cbn zeta. rewrite Hup1.
  cbn [fst snd]. split; [reflexivity|].
  unfold ActionLogger_LogGameStopped. rewrite LogAction_eq. cbn zeta. wsimp.
  rewrite Hup2. cbn [snd]. split.
  - unfold stored_game. wsimp.
    pose proof (RoomInfo_ne_GameState c r) as Hne.
    unfold stop_batch. cbn [fold_left run_cmd]. rewrite !hset_lookup. by decide_fields.
  - unfold list_at at 1. wsimp. rewrite lookup_insert_eq. reflexivity.
Qed.

(** The start tick.  For a waiting room with at least MinPlayersToStart
    seated players, the two reads of the check, the batch and the push of
    the event going through: after the check the game record reads phase
    [pre_flop], the game id made of the clock reading, the club and the
    room, pot 0 and current bet 0, the room status is [gaming], and the
    action list has one more event, [game_started], with the number of
    seated players the check read. *)
Theorem checkRoom_starts_a_waiting_room (config : EngineConfig) (c r : string) (w : World) :
  up w = true -> up (pass w) = true -> up (pass (pass w)) = true ->
  up (pass (pass (pass w))) = true ->
  stored_phase w c r = GamePhaseWaiting ->
  (MinPlayersToStart config <= seated w c r)%Z ->
  let w' := snd (RoomMonitor_checkRoom config c r w) in
  let gameID := time_Format "20060102150405" (wall w (reads w)) +:+ "_" +:+ c +:+ "_" +:+ r in
  stored_game w' c r !! "phase" = Some "pre_flop"
  /\ stored_game w' c r !! "game_id" = Some gameID
  /\ stored_game w' c r !! "pot" = Some "0"
  /\ stored_game w' c r !! "current_bet" = Some "0"
  /\ hash_at w' (Keys_RoomInfo c r) !! "status" = Some "gaming"
  /\ list_at w' (Keys_RoomActions c r)
     = list_at w (Keys_RoomActions c r)
       ++ [json_Marshal_action
             (mkActionData "game_started" (wall w (S (S (reads w)))) "game_engine"
                [("game_id", JString gameID); ("phase", JString "pre_flop");
                 ("players_count", JInt (seated w c r))])]
  /\ sets w' = sets w.
Proof.
  intros Hup1 Hup2 Hup3 Hup4 Hphase Hseated. cbn zeta.
  assert (Hrun : RoomMonitor_checkRoom config c r w
                 = invoke_start c r (seated w c r) (pass (pass w))).
  { rewrite checkRoom_eq, Hup1, Hup2.
    destruct (size (stored_game w c r) =? 0)%nat eqn:Hsz.
    { apply size_zero_empty in Hsz. exfalso.
      apply (stored_phase_nonempty w c r); [by rewrite Hphase | exact Hsz]. }
    rewrite Hphase, (bool_decide_eq_true_2 (GamePhaseWaiting = "waiting")) by reflexivity.
    by rewrite (proj2 (Z.leb_le _ _) Hseated). }
  assert (Hw : exists w1 : World,
            invoke_start c r (seated w c r) (pass (pass w)) = (tt, w1)
            /\ hashes w1
               = hashes (fold_left run_cmd
                           (start_batch c r
                              (time_Format "20060102150405" (wall w (reads w))
                               +:+ "_" +:+ c +:+ "_" +:+ r)
                              (time_FormatUTC RFC3339 (wall w (S (reads w))))) w)
            /\ list_at w1 (Keys_RoomActions c r)
               = list_at w (Keys_RoomActions c r)
                 ++ [json_Marshal_action
                       (mkActionData "game_started" (wall w (S (S (reads w))))
                          "game_engine"
                          [("game_id",
                            JString (time_Format "20060102150405" (wall w (reads w))
                                     +:+ "_" +:+ c +:+ "_" +:+ r));
                           ("phase", JString "pre_flop");
                           ("players_count", JInt (seated w c r))])]
            /\ sets w1 = sets w).
  { unfold invoke_start. unfold bind at 1, logf at 1.
    cbn beta iota zeta delta [fst snd]. unfold bind. rewrite handleGameStart_eq. cbn zeta.
    wsimp. rewrite Hup3. unfold ActionLogger_LogGameStarted. rewrite LogAction_eq.
    cbn zeta. wsimp. rewrite Hup4. unfold ret. cbn beta iota zeta delta [fst snd].
    unfold start_game_id, start_time. wsimp.
    eexists. split; [reflexivity|]. wsimp.
    split; [apply run_batch_hashes_ext; by wsimp|].
    split; [|reflexivity].
    unfold list_at at 1. wsimp. by rewrite lookup_insert_eq. }
  destruct Hw as (w1 & Hw & Hh & Hl & Hs). rewrite Hrun, Hw. cbn [snd].
  pose proof (RoomInfo_ne_GameState c r) as Hne.
  unfold stored_game. rewrite !(hash_at_ext _ _ _ Hh).
  unfold start_batch. cbn [fold_left run_cmd].
  rewrite !hset_lookup, !encode_zero. cbn [encode_arg].
  split; [by decide_fields|]. split; [by decide_fields|]. split; [by decide_fields|].
  split; [by decide_fields|]. split; [by decide_fields|].
  split; [exact Hl|exact Hs].
Qed.

(** *** What a tick never writes *)

Lemma same_members_refl (w : World) : same_members w w.
Proof. by split. Qed.

Lemma same_members_trans (w1 w2 w3 : World) :
  same_members w1 w2 -> same_members w2 w3 -> same_members w1 w3.
Proof. unfold same_members. intros [? ?] [? ?]. split; congruence. Qed.

Lemma same_members_log l (w : World) : same_members w (log_line l w).
Proof. unfold same_members. by wsimp. Qed.

Lemma same_members_pass (w : World) : same_members w (pass w).
Proof. unfold same_members. by wsimp. Qed.

Lemma handleGameStart_members (c r : string) (n : Z) (w : World) :
  same_members w (snd (RoomMonitor_handleGameStart c r n w)).
Proof.
  rewrite handleGameStart_eq. cbn zeta. unfold same_members.
  destruct (up w); cbn [snd]; wsimp; [|by split].
  unfold ActionLogger_LogGameStarted.
  match goal with |- context [ActionLogger_LogAction ?a ?b ?x ?d ?y] =>
    destruct (LogAction_sets a b x d y) as [-> ->] end.
  by wsimp.
Qed.

Lemma handleGameStop_members (c r previousPhase reason : string) (w : World) :
  same_members w (snd (RoomMonitor_handleGameStop c r previousPhase reason w)).
Proof.
  rewrite handleGameStop_eq. cbn zeta. unfold same_members.
  destruct (up w); cbn [snd]; wsimp; [|by split].
  unfold ActionLogger_LogGameStopped.
  match goal with |- context [ActionLogger_LogAction ?a ?b ?x ?d ?y] =>
    destruct (LogAction_sets a b x d y) as [-> ->] end.
  by wsimp.
Qed.

Lemma checkRoom_members (config : EngineConfig) (c r : string) (w : World) :
  same_members w (snd (RoomMonitor_checkRoom config c r w)).
Proof.
  rewrite checkRoom_eq.
  destruct (up w) eqn:Hup1.
  2:{ cbn [snd]. rewrite GetPlayersCount_eq, Hup1. cbn [snd]. unfold same_members.
      by wsimp. }
  destruct (up (pass w)) eqn:Hup2.
  2:{ cbn [snd]. rewrite GetGameState_eq, Hup2. cbn [snd]. unfold same_members.
      by wsimp. }
  assert (Hskip : same_members w (pass (pass w))).
  { eapply same_members_trans; apply same_members_pass. }
  destruct (size (stored_game w c r) =? 0)%nat; [exact Hskip|].
  destruct (_ && _).
  { unfold invoke_start. unfold bind at 1, logf at 1. cbn beta iota zeta delta [fst snd].
    unfold bind.
    match goal with |- context [RoomMonitor_handleGameStart c r ?n ?x] =>
      pose proof (handleGameStart_members c r n x) as Hs;
      destruct (RoomMonitor_handleGameStart c r n x) as [[err|] w1] end;
    cbn [snd] in Hs; unfold logf, ret; cbn [snd];
      (eapply same_members_trans; [exact Hskip|]);
      (eapply same_members_trans; [apply same_members_log|]);
      (eapply same_members_trans; [exact Hs|]);
      first [apply same_members_log | apply same_members_refl]. }
  destruct (_ && _); [|exact Hskip].
  unfold invoke_stop. unfold bind at 1, logf at 1. cbn beta iota zeta delta [fst snd].
  unfold bind.
  match goal with |- context [RoomMonitor_handleGameStop c r ?p ?why ?x] =>
    pose proof (handleGameStop_members c r p why x) as Hs;
    destruct (RoomMonitor_handleGameStop c r p why x) as [[err|] w1] end;
  cbn [snd] in Hs; unfold logf, ret; cbn [snd];
    (eapply same_members_trans; [exact Hskip|]);
    (eapply same_members_trans; [apply same_members_log|]);
    (eapply same_members_trans; [exact Hs|]);
    first [apply same_members_log | apply same_members_refl].
Qed.

Lemma check_rooms_members (config : EngineConfig) (c : string) (rooms : list string) :
  forall (n : Z) (w : World), same_members w (snd (check_rooms config c rooms n w)).
Proof.
  induction rooms as [|r rest IH]; intros n w; cbn [check_rooms].
  - apply same_members_refl.
  - unfold bind. pose proof (checkRoom_members config c r w) as Hs.
    destruct (RoomMonitor_checkRoom config c r w) as [[] w1]. cbn [snd] in Hs.
    eapply same_members_trans; [exact Hs|apply IH].
Qed.

Lemma check_clubs_members (config : EngineConfig) (keys : list string) :
  forall (n : Z) (w : World), same_members w (snd (check_clubs config keys n w)).
Proof.
  induction keys as [|key rest IH]; intros n w; cbn [check_clubs].
  - apply same_members_refl.
  - case_bool_decide.
    + unfold bind, logf. cbn beta iota zeta delta [fst snd].
      eapply same_members_trans; [apply same_members_log|apply IH].
    + unfold bind at 1, RedisClient_ZRange_all, client_ZRange_all, wrap, RedisError,
        command. unfold bind at 1.
      destruct (up w); unfold ret at 1; cbn beta iota zeta delta [fst snd].
      * unfold bind.
        match goal with |- context [check_rooms config ?c ?l ?m ?x] =>
          pose proof (check_rooms_members config c l m x) as Hs;
          destruct (check_rooms config c l m x) as [n1 w1] end.
        cbn [snd] in Hs.
        eapply same_members_trans; [apply same_members_pass|].
        eapply same_members_trans; [exact Hs|apply IH].
      * unfold bind, logf, ret. cbn beta iota zeta delta [fst snd].
        eapply same_members_trans; [apply same_members_pass|].
        eapply same_members_trans; [apply same_members_log|].
        eapply same_members_trans; [apply same_members_log|apply IH].
Qed.

(** A tick of the monitor, whatever the configuration, the stored data
    and the answers of the store: it seats and unseats no player and
    leaves the indexes of active rooms as they are.  It writes records
    and action lists only. *)
Theorem a_tick_changes_no_set_and_no_index (config : EngineConfig) (w : World) :
  same_members w (snd (RoomMonitor_checkAllRooms config w)).
Proof.
  unfold RoomMonitor_checkAllRooms. unfold bind at 1, client_Scan, command.
  destruct (up w); cbn beta iota zeta delta [fst snd]; unfold bind at 1.
  - match goal with |- context [check_clubs config ?l ?m ?x] =>
      pose proof (check_clubs_members config l m x) as Hs;
      destruct (check_clubs config l m x) as [n1 w1] end.
    cbn [snd] in Hs. unfold bind, ret, logf. cbn beta iota zeta delta [fst snd].
    eapply same_members_trans; [apply same_members_pass|].
    eapply same_members_trans; [exact Hs|].
    destruct (0 <? n1)%Z; cbn [snd];
      first [apply same_members_log | apply same_members_refl].
  - cbn [check_clubs]. unfold bind, ret, logf. cbn beta iota zeta delta [fst snd].
    eapply same_members_trans; [apply same_members_pass|].
    apply same_members_log.
Qed.

(** A configuration Validate accepts asks for two players at least, so
    the per-room check of a monitor running on it stores nothing for a
    waiting room with fewer than two seated players, whatever the store
    answers. *)
Theorem a_valid_config_starts_no_hand_for_one_player (cfg : Config) (c r : string)
    (w : World) :
  Config_Validate cfg = None ->
  stored_phase w c r = GamePhaseWaiting ->
  (seated w c r < 2)%Z ->
  (2 <= MinPlayersToStart (Engine cfg))%Z
  /\ (0 < CheckInterval (Engine cfg))%Z
  /\ same_data w (snd (RoomMonitor_checkRoom (Engine cfg) c r w))
  /\ stored_phase (snd (RoomMonitor_checkRoom (Engine cfg) c r w)) c r = GamePhaseWaiting.
Proof.
  unfold Config_Validate. intros Hvalid Hphase Hseated.
  case_bool_decide; [discriminate|].
  destruct (_ || _); [discriminate|].
  destruct (CheckInterval (Engine cfg) <=? 0)%Z eqn:Hint; [discriminate|].
  destruct (MinPlayersToStart (Engine cfg) <? 2)%Z eqn:Hmin; [discriminate|].
  apply Z.leb_gt in Hint. apply Z.ltb_ge in Hmin.
  split; [exact Hmin|]. split; [exact Hint|].
  assert (Hdata : same_data w (snd (RoomMonitor_checkRoom (Engine cfg) c r w))).
  { rewrite checkRoom_eq.
    destruct (up w) eqn:Hup1.
    2:{ cbn [snd]. rewrite GetPlayersCount_eq, Hup1. unfold same_data. by wsimp. }
    destruct (up (pass w)) eqn:Hup2.
    2:{ cbn [snd]. rewrite GetGameState_eq, Hup2. unfold same_data. by wsimp. }
    rewrite (proj2 (Z.leb_gt _ _)) by lia. cbn [andb].
    rewrite Hphase. rewrite (bool_decide_eq_false_2 (GamePhaseWaiting ≠ "waiting"))
      by (intros Hne; by apply Hne).
    rewrite andb_false_r.
    destruct (size (stored_game w c r) =? 0)%nat; cbn [snd];
      (eapply same_data_trans; apply same_data_pass). }
  split; [exact Hdata|].
  rewrite <- Hphase. unfold stored_phase, stored_game. f_equal. apply hash_at_ext.
  apply Hdata.
Qed.

(** ** The start handler *)

Lemma key_exists_hash (w : World) (k f v : string) :
  hash_at w k !! f = Some v -> key_exists w k = true.
Proof.
  intros Hf. unfold key_exists. rewrite (bool_decide_eq_true_2 (hash_at w k ≠ ∅)).
  - reflexivity.
  - intros Hempty. rewrite Hempty, lookup_empty in Hf. discriminate Hf.
Qed.

Lemma hand_in_progress_phase (w : World) (c r p : string) :
  stored_game w c r !! "phase" = Some p -> p <> GamePhaseWaiting -> p <> GamePhaseFinished ->
  hand_in_progress w c r = true.
Proof.
  intros Hp Hw Hf. unfold hand_in_progress, stored_phase, field. rewrite Hp.
  cbn [default from_option id].
  rewrite (bool_decide_eq_true_2 _ Hw), (bool_decide_eq_true_2 _ Hf), !andb_true_r.
  destruct (size (stored_game w c r) =? 0)%nat eqn:Hsz; [|reflexivity].
  apply size_zero_empty in Hsz. rewrite Hsz, lookup_empty in Hp. discriminate Hp.
Qed.

(** With no fault scheduled every round trip goes through. *)
Ltac reachable :=
  repeat match goal with
    | |- context [up ?x] =>
        rewrite (up_nil x) by (rewrite ?faults_run_batch; autorewrite with world; assumption)
    | |- context [pass ?x] =>
        rewrite (pass_nil x) by (rewrite ?faults_run_batch; autorewrite with world; assumption)
    end.

(** What the start handler does with the store reachable. *)
Lemma start_Handle_reachable (c r : string) (n : Z) (w : World) :
  faults w = [] ->
  let gameID := "game_" +:+ c +:+ "_" +:+ r +:+ "_" +:+ pretty (wall w (reads w)) in
  exists w' : World,
    faults w' = []
    /\ GameStartHandler_Handle c r n w =
         (if negb (key_exists w (Keys_RoomInfo c r)) then
            Some (Errorf ("room " +:+ c +:+ ":" +:+ r +:+ " does not exist"))
          else if hand_in_progress w c r then None
          else if (seated w c r <? 2)%Z then
            Some (Errorf ("not enough players to start (at least 2 needed, "
                          +:+ pretty (seated w c r) +:+ " seated)"))
          else None, w')
    /\ (if key_exists w (Keys_RoomInfo c r) && negb (hand_in_progress w c r)
           && negb (seated w c r <? 2)%Z
        then hashes w'
             = hashes (fold_left run_cmd
                         (start_batch c r gameID
                            (time_FormatUTC RFC3339 (wall w (S (reads w))))) w)
             /\ sets w' = sets w
             /\ list_at w' (Keys_RoomActions c r)
                = list_at w (Keys_RoomActions c r)
                  ++ [json_Marshal_action
                        (mkActionData "game_started" (wall w (S (S (reads w))))
                           "game_engine"
                           [("game_id", JString gameID); ("phase", JString "pre_flop");
                            ("players_count", JInt n)])]
        else same_data w w').
Proof.
  intros Hf. cbn zeta.
  unfold GameStartHandler_Handle. unfold bind at 1, logf at 1.
  cbn beta iota zeta delta [fst snd]. unfold bind at 1. rewrite RoomExists_eq. wsimp.
  rewrite (up_nil w Hf), (pass_nil w Hf). cbn beta iota zeta delta [fst snd]. wsimp.
  destruct (key_exists w (Keys_RoomInfo c r)) eqn:Hroom; cbn [andb negb].
  2:{ unfold ret. eexists. split; [|split; [reflexivity|]]; [by wsimp|].
      unfold same_data. by wsimp. }
  unfold bind at 1. rewrite IsGameActive_progress. wsimp.
  rewrite (up_nil w Hf), (pass_nil w Hf). cbn beta iota zeta delta [fst snd].
  unfold hand_in_progress at 1. wsimp. fold (hand_in_progress w c r).
  destruct (hand_in_progress w c r) eqn:Hactive; cbn [andb negb].
  { unfold bind, logf, ret. cbn beta iota zeta delta [fst snd].
    eexists. split; [|split; [reflexivity|]]; [by wsimp|]. unfold same_data. by wsimp. }
  unfold bind at 1. rewrite GetPlayersCount_eq. wsimp.
  rewrite (up_nil w Hf), (pass_nil w Hf). cbn beta iota zeta delta [fst snd].
  unfold seated at 1. wsimp. fold (seated w c r).
  destruct (seated w c r <? 2)%Z eqn:Hfew; cbn [andb negb].
  { unfold ret. eexists. split; [|split; [reflexivity|]]; [by wsimp|].
    unfold same_data. by wsimp. }
  unfold bind at 1, time_Now at 1. cbn beta iota zeta delta [fst snd].
  unfold bind at 1, GetISO8601Time, time_Now. unfold bind at 1, ret at 1.
  cbn beta iota zeta delta [fst snd].
  cbn [pipe_HSet RedisClient_Pipeline app].
  unfold bind at 1, pipe_Exec, command. wsimp.
  rewrite (up_nil w Hf), (pass_nil w Hf). cbn beta iota zeta delta [fst snd].
  unfold bind at 1. unfold ActionLogger_LogGameStarted. rewrite LogAction_eq. cbn zeta.
  wsimp. reachable.
  unfold bind, logf, ret. cbn beta iota zeta delta [fst snd].
  eexists. split; [|split; [reflexivity|]]; [by wsimp|]. wsimp.
  split; [apply run_batch_hashes_ext; by wsimp|]. split; [reflexivity|].
  unfold list_at at 1. wsimp. by rewrite lookup_insert_eq.
Qed.

(** The start handler with the store reachable.  It refuses a room that
    does not exist and a room with fewer than two seated players, two
    being fixed in the code, and it does nothing for a hand in progress;
    in these three cases it stores nothing.  Otherwise it writes the six
    fields of the start and appends one [game_started] event that carries
    the player count it was called with.  A second call right after a
    start finds the hand in progress and stores nothing. *)
Theorem GameStartHandler_starts_a_hand_once (c r : string) (n n' : Z) (w : World) :
  faults w = [] ->
  let w' := snd (GameStartHandler_Handle c r n w) in
  let started := key_exists w (Keys_RoomInfo c r) && negb (hand_in_progress w c r)
                 && negb (seated w c r <? 2)%Z in
  (started = false -> same_data w w')
  /\ (key_exists w (Keys_RoomInfo c r) = true -> hand_in_progress w c r = true ->
      fst (GameStartHandler_Handle c r n w) = None)
  /\ (key_exists w (Keys_RoomInfo c r) = true -> hand_in_progress w c r = false ->
      (seated w c r < 2)%Z ->
      exists err, fst (GameStartHandler_Handle c r n w) = Some err)
  /\ (started = true ->
      fst (GameStartHandler_Handle c r n w) = None
      /\ stored_game w' c r !! "phase" = Some "pre_flop"
      /\ stored_game w' c r !! "game_id"
         = Some ("game_" +:+ c +:+ "_" +:+ r +:+ "_" +:+ pretty (wall w (reads w)))
      /\ hash_at w' (Keys_RoomInfo c r) !! "status" = Some "gaming"
      /\ list_at w' (Keys_RoomActions c r)
         = list_at w (Keys_RoomActions c r)
           ++ [json_Marshal_action
                 (mkActionData "game_started" (wall w (S (S (reads w)))) "game_engine"
                    [("game_id",
                      JString ("game_" +:+ c +:+ "_" +:+ r +:+ "_"
                               +:+ pretty (wall w (reads w))));
                     ("phase", JString "pre_flop"); ("players_count", JInt n)])]
      /\ fst (GameStartHandler_Handle c r n' w') = None
      /\ same_data w' (snd (GameStartHandler_Handle c r n' w'))).
Proof.
  intros Hf. cbn zeta.
  destruct (start_Handle_reachable c r n w Hf) as (w' & Hf' & -> & Heffect).
  cbn zeta in Heffect. cbn [fst snd].
  split; [|split; [|split]].
  - intros Hno. by rewrite Hno in Heffect.
  - intros -> ->. reflexivity.
  - intros -> -> Hfew. cbn [negb]. rewrite (proj2 (Z.ltb_lt _ _) Hfew). by eexists.
  - intros Hyes. rewrite Hyes in Heffect. destruct Heffect as (Hh & Hs & Hl).
    apply andb_true_iff in Hyes as [Hyes Hseated].
    apply andb_true_iff in Hyes as [Hroom Hidle].
    apply negb_true_iff in Hidle, Hseated. rewrite Hroom, Hidle, Hseated. cbn [negb].
    split; [reflexivity|].
    pose proof (RoomInfo_ne_GameState c r) as Hne.
    assert (Hphase : stored_game w' c r !! "phase" = Some "pre_flop").
    { unfold stored_game. rewrite (hash_at_ext _ _ _ Hh). unfold start_batch.
      cbn [fold_left run_cmd]. rewrite !hset_lookup. by decide_fields. }
    assert (Hstatus : hash_at w' (Keys_RoomInfo c r) !! "status" = Some "gaming").
    { rewrite (hash_at_ext _ _ _ Hh). unfold start_batch.
      cbn [fold_left run_cmd]. rewrite !hset_lookup. by decide_fields. }
    split; [exact Hphase|]. split.
    { unfold stored_game. rewrite (hash_at_ext _ _ _ Hh). unfold start_batch.
      cbn [fold_left run_cmd]. rewrite !hset_lookup. by decide_fields. }
    split; [exact Hstatus|]. split; [exact Hl|].
    destruct (start_Handle_reachable c r n' w' Hf') as (w2 & _ & -> & Hagain).
    cbn zeta in Hagain.
    rewrite (key_exists_hash w' _ _ _ Hstatus) in *.
    rewrite (hand_in_progress_phase w' c r "pre_flop" Hphase) in * by discriminate.
    cbn [negb andb fst snd] in *. by split.
Qed.

Lemma hand_in_progress_data (w w' : World) (c r : string) :
  same_data w w' -> hand_in_progress w' c r = hand_in_progress w c r.
Proof.
  intros (Hh & _). unfold hand_in_progress, stored_phase, stored_game.
  by rewrite (hash_at_ext _ _ _ Hh).
Qed.

(** The check of the start handler with the store reachable.  It answers
    whether the room exists, has no hand in progress and seats at least
    [minPlayers] players, and it stores and logs nothing.  Asked with the
    two players that [Handle] has fixed in its code, it answers true
    exactly for the rooms in which a call of [Handle] starts a hand. *)
Theorem CanStartGame_foretells_the_start (c r : string) (m n : Z) (w : World) :
  faults w = [] ->
  GameStartHandler_CanStartGame c r m w
  = ((key_exists w (Keys_RoomInfo c r) && negb (hand_in_progress w c r)
      && (m <=? seated w c r)%Z, None), w)
  /\ (fst (fst (GameStartHandler_CanStartGame c r 2 w)) = true
      <-> hand_in_progress w c r = false
          /\ hand_in_progress (snd (GameStartHandler_Handle c r n w)) c r = true).
Proof.
  intros Hf.
  assert (Hcheck : forall m',
            GameStartHandler_CanStartGame c r m' w
            = ((key_exists w (Keys_RoomInfo c r) && negb (hand_in_progress w c r)
                && (m' <=? seated w c r)%Z, None), w)).
  { intros m'. unfold GameStartHandler_CanStartGame.
    unfold bind at 1. rewrite RoomExists_eq.
    rewrite (up_nil w Hf), (pass_nil w Hf). cbn beta iota zeta delta [fst snd].
    destruct (key_exists w (Keys_RoomInfo c r)); [|reflexivity].
    unfold bind at 1. rewrite IsGameActive_progress.
    rewrite (up_nil w Hf), (pass_nil w Hf). cbn beta iota zeta delta [fst snd].
    destruct (hand_in_progress w c r); [reflexivity|].
    unfold bind at 1. rewrite GetPlayersCount_eq.
    rewrite (up_nil w Hf), (pass_nil w Hf). reflexivity. }
  split; [apply Hcheck|]. rewrite Hcheck. cbn [fst].
  destruct (start_Handle_reachable c r n w Hf) as (w' & _ & -> & Heffect).
  cbn zeta in Heffect. cbn [snd].
  replace (2 <=? seated w c r)%Z with (negb (seated w c r <? 2)%Z)
    by (destruct (Z.ltb_spec (seated w c r) 2), (Z.leb_spec 2 (seated w c r));
        cbn [negb]; lia).
  destruct (key_exists w (Keys_RoomInfo c r) && negb (hand_in_progress w c r)
            && negb (seated w c r <? 2)%Z) eqn:Hyes.
  - destruct Heffect as (Hh & _).
    apply andb_true_iff in Hyes as [Hyes _].
    apply andb_true_iff in Hyes as [_ Hidle]. apply negb_true_iff in Hidle.
    split; [intros _|reflexivity]. split; [exact Hidle|].
    apply (hand_in_progress_phase w' c r "pre_flop"); [|discriminate..].
    unfold stored_game. rewrite (hash_at_ext _ _ _ Hh). unfold start_batch.
    cbn [fold_left run_cmd]. rewrite !hset_lookup. by decide_fields.
  - split; [discriminate|]. intros [Hidle Hstarted].
    rewrite (hand_in_progress_data w w' c r Heffect) in Hstarted. congruence.
Qed.

(** ** The keys *)

Lemma until_colon_app (id rest : string) :
  colon_free id = true -> until_colon (id +:+ ":" +:+ rest) = id.
Proof.
  induction id as [|b id IH]; cbn [colon_free]; [reflexivity|].
  rewrite andb_true_iff, negb_true_iff. intros [Hb Hid].
  change (String b id +:+ ":" +:+ rest) with (String b (id +:+ ":" +:+ rest)).
  cbn [until_colon]. rewrite Hb. by rewrite IH.
Qed.

Lemma string_length_app (s t : string) :
  String.length (s +:+ t) = String.length s + String.length t.
Proof.
  induction s as [|b s IH]; [reflexivity|].
  change (String b s +:+ t) with (String b (s +:+ t)). cbn [String.length].
  by rewrite IH.
Qed.

(** ExtractClubID gives back the club id a key was built from: for every
    key that starts with [club:], a club id that is not empty and holds
    no colon, and a colon after it.  So it does for the keys of the
    builders, the index of active rooms the tick scans among them.  A key
    built from the empty club id yields the empty text, which the tick
    skips. *)
Theorem ExtractClubID_inverts_the_key_builders (clubID rest : string) :
  colon_free clubID = true ->
  (clubID <> EmptyString ->
     Keys_ExtractClubID ("club:" +:+ clubID +:+ ":" +:+ rest) = clubID
     /\ Keys_ExtractClubID (Keys_ClubRoomsActive clubID) = clubID
     /\ (forall roomID, Keys_ExtractClubID (Keys_RoomInfo clubID roomID) = clubID)
     /\ (forall roomID userID,
           Keys_ExtractClubID (Keys_PlayerInfo clubID roomID userID) = clubID))
  /\ Keys_ExtractClubID ("club:" +:+ ":" +:+ rest) = EmptyString.
Proof.
  intros Hfree.
  assert (Hkey : forall rest', clubID <> EmptyString ->
            Keys_ExtractClubID ("club:" +:+ clubID +:+ ":" +:+ rest') = clubID).
  { intros rest' Hne. unfold Keys_ExtractClubID.
    change ("club:" +:+ clubID +:+ ":" +:+ rest')
      with (String "c" (String "l" (String "u" (String "b" (String ":"
              (clubID +:+ ":" +:+ rest')))))).
    cbn [String.length drop_bytes]. rewrite until_colon_app by exact Hfree.
    rewrite string_length_app. cbn [String.length].
    assert (0 < String.length clubID) by (destruct clubID; [contradiction|cbn; lia]).
    rewrite ?string_length_app. cbn [String.length].
    destruct (Nat.eqb_spec (5 + String.length clubID) 5); [lia|]. cbn [orb].
    repeat match goal with
           | |- context [(?a <=? ?b)%nat] => destruct (Nat.leb_spec a b); [lia|]
           end.
    reflexivity. }
  split.
  - intros Hne. split; [by apply Hkey|]. split; [|split].
    + exact (Hkey "rooms:active" Hne).
    + intros roomID. exact (Hkey ("room:" +:+ roomID +:+ ":info") Hne).
    + intros roomID userID.
      exact (Hkey ("room:" +:+ roomID +:+ ":player:" +:+ userID) Hne).
  - unfold Keys_ExtractClubID.
    change ("club:" +:+ ":" +:+ rest)
      with (String "c" (String "l" (String "u" (String "b" (String ":"
              (String ":" rest)))))).
    cbn [String.length drop_bytes until_colon Ascii.eqb].
    cbn. reflexivity.
Qed.

(** *** The user id of a player key *)

Lemma get_colon_free (u : string) (i : nat) (b : ascii) :
  colon_free u = true -> String.get i u = Some b -> string_of_byte b <> ":".
Proof.
  revert i. induction u as [|b0 u IH]; intros i; cbn [colon_free String.get];
    [discriminate|].
  rewrite andb_true_iff, negb_true_iff. intros [Hb Hu].
  destruct i as [|i].
  - intros [= <-] Heq. apply string_of_byte_one in Heq. subst b0.
    by rewrite Ascii.eqb_refl in Hb.
  - intros Hget. by apply (IH i).
Qed.

Lemma string_app_assoc (s t u : string) : (s +:+ t) +:+ u = s +:+ t +:+ u.
Proof.
  induction s as [|b s IH]; [reflexivity|].
  change (String b (s +:+ t) +:+ u = String b (s +:+ t +:+ u)).
  change (String b ((s +:+ t) +:+ u) = String b (s +:+ t +:+ u)). by rewrite IH.
Qed.

Lemma drop_bytes_app (p s : string) : drop_bytes (String.length p) (p +:+ s) = s.
Proof. induction p as [|b p IH]; [by destruct s|exact IH]. Qed.

Lemma get_in_range (u : string) (i : nat) :
  i < String.length u -> exists b, String.get i u = Some b.
Proof.
  revert i. induction u as [|b0 u IH]; intros i; cbn [String.length]; [lia|].
  destruct i as [|i]; cbn [String.get]; [by eexists|].
  intros Hi. apply IH. lia.
Qed.

Lemma lastIndexOf_after_the_last_colon (p u : string) (k : nat) :
  colon_free u = true -> k <= String.length u ->
  lastIndexOf_loop (p +:+ ":" +:+ u) ":" (String.length p + 1 + k)
  = Z.of_nat (String.length p).
Proof.
  intros Hfree. change (":" +:+ u) with (String ":" u).
  induction k as [|k IH]; intros Hk.
  - rewrite Nat.add_0_r, Nat.add_1_r. cbn [lastIndexOf_loop].
    rewrite <- (Nat.add_0_l (String.length p)) at 1.
    rewrite <- append_correct2. cbn [String.get].
    by rewrite bool_decide_eq_true_2 by reflexivity.
  - replace (String.length p + 1 + S k) with (S (String.length p + 1 + k)) by lia.
    cbn [lastIndexOf_loop].
    replace (String.length p + 1 + k) with (S k + String.length p) at 1 by lia.
    rewrite <- append_correct2. cbn [String.get].
    destruct (String.get k u) as [b|] eqn:Hget.
    + rewrite bool_decide_eq_false_2 by (by apply (get_colon_free u k)).
      apply IH. lia.
    + destruct (get_in_range u k) as [b Hb]; [lia|congruence].
Qed.

Lemma lastIndexOf_finds_the_last_colon (p u : string) :
  colon_free u = true ->
  lastIndexOf (p +:+ ":" +:+ u) ":" = Z.of_nat (String.length p).
Proof.
  intros Hu. unfold lastIndexOf. rewrite !string_length_app. cbn [String.length].
  rewrite Nat.add_assoc. by apply lastIndexOf_after_the_last_colon.
Qed.

Lemma lastIndexOf_finds_no_colon (u : string) :
  colon_free u = true -> lastIndexOf u ":" = (-1)%Z.
Proof.
  intros Hfree. unfold lastIndexOf.
  assert (Hnone : forall n, lastIndexOf_loop u ":" n = (-1)%Z).
  { induction n as [|n IHn]; cbn [lastIndexOf_loop]; [reflexivity|].
    destruct (String.get n u) as [b|] eqn:Hget; [|reflexivity].
    by rewrite bool_decide_eq_false_2 by (by apply (get_colon_free u n)). }
  apply Hnone.
Qed.

Lemma ExtractUserID_after_the_last_colon (p u : string) :
  colon_free u = true ->
  Keys_ExtractUserID (p +:+ ":" +:+ u) = u.
Proof.
  intros Hfree. unfold Keys_ExtractUserID.
  rewrite lastIndexOf_finds_the_last_colon by exact Hfree.
  rewrite !string_length_app. cbn [String.length].
  rewrite (proj2 (Z.eqb_neq _ _)) by lia. cbn [orb].
  destruct u as [|b u].
  - rewrite (proj2 (Z.eqb_eq _ _)) by (cbn [String.length]; lia). reflexivity.
  - rewrite (proj2 (Z.eqb_neq _ _)) by (cbn [String.length]; lia).
    replace (Z.to_nat (Z.of_nat (String.length p) + 1))
      with (String.length (p +:+ ":"))
      by (rewrite string_length_app; cbn [String.length]; lia).
    rewrite <- string_app_assoc. apply drop_bytes_app.
Qed.

(** ExtractUserID gives back the user id of a player key when the user id
    holds no colon (the empty user id included, for which the key ends with
    a colon), and the empty text for a key that holds no colon at all. *)
Theorem ExtractUserID_inverts_PlayerInfo (clubID roomID userID : string) :
  colon_free userID = true ->
  Keys_ExtractUserID (Keys_PlayerInfo clubID roomID userID) = userID
  /\ Keys_ExtractUserID userID = EmptyString.
Proof.
  intros Hfree. split.
  - replace (Keys_PlayerInfo clubID roomID userID)
      with (("club:" +:+ clubID +:+ ":room:" +:+ roomID +:+ ":player") +:+ ":" +:+ userID)
      by (unfold Keys_PlayerInfo; rewrite !string_app_assoc; reflexivity).
    by apply ExtractUserID_after_the_last_colon.
  - unfold Keys_ExtractUserID. by rewrite lastIndexOf_finds_no_colon.
Qed.

Lemma substring_at_the_prefix (t s : string) :
  substring 0 (String.length t) (t +:+ s) = t.
Proof.
  induction t as [|b t IH]; [by destruct s|].
  change (String b t +:+ s) with (String b (t +:+ s)).
  cbn [String.length substring]. by rewrite IH.
Qed.

Lemma substring_after_a_prefix (p t s : string) :
  substring (String.length p) (String.length t) (p +:+ t +:+ s) = t.
Proof.
  induction p as [|b p IH]; [exact (substring_at_the_prefix t s)|].
  change (String b p +:+ t +:+ s) with (String b (p +:+ t +:+ s)).
  cbn [String.length substring]. exact IH.
Qed.

Lemma substring_head (s : string) (i n : nat) (b : ascii) :
  String.get i s = Some b -> exists t, substring i (S n) s = String b t.
Proof.
  revert i. induction s as [|b0 s IH]; intros i; [by destruct i|].
  destruct i as [|i]; cbn [String.get substring].
  - intros [= <-]. by eexists.
  - apply IH.
Qed.

Lemma get_not_colon (u : string) (i : nat) (b : ascii) :
  colon_free u = true -> String.get i u = Some b -> b <> ":"%char.
Proof.
  revert i. induction u as [|b0 u IH]; intros i; cbn [colon_free String.get];
    [discriminate|].
  rewrite andb_true_iff, negb_true_iff. intros [Hb Hu].
  destruct i as [|i].
  - intros [= <-] ->. by rewrite Ascii.eqb_refl in Hb.
  - intros Hget. by apply (IH i).
Qed.

Lemma get_app_l (u s : string) (i : nat) :
  i < String.length u -> String.get i (u +:+ s) = String.get i u.
Proof.
  revert i. induction u as [|b0 u IH]; intros i; cbn [String.length]; [lia|].
  change (String b0 u +:+ s) with (String b0 (u +:+ s)).
  destruct i as [|i]; cbn [String.get]; [reflexivity|].
  intros Hi. apply IH. lia.
Qed.

Lemma no_room_prefix_inside_the_club_id (c s : string) (i : nat) :
  colon_free c = true -> c <> "room" -> i < 5 + String.length c ->
  substring i 6 ("club:" +:+ c +:+ ":room:" +:+ s) <> ":room:".
Proof.
  intros Hfree Hne Hi.
  change ("club:" +:+ c +:+ ":room:" +:+ s)
    with (String "c" (String "l" (String "u" (String "b" (String ":"
            (c +:+ ":room:" +:+ s)))))).
  do 4 (destruct i as [|i]; [cbn [substring]; discriminate|]).
  destruct i as [|i].
  - cbn [substring]. intros [= Heq]. apply Hne. clear Hne Hi.
    destruct c as [|b1 c]; [discriminate Heq|].
    destruct c as [|b2 c]; [discriminate Heq|].
    destruct c as [|b3 c]; [discriminate Heq|].
    destruct c as [|b4 c]; [discriminate Heq|].
    destruct c as [|b5 c].
    + by injection Heq as -> -> -> ->.
    + injection Heq as -> -> -> -> ->. discriminate Hfree.
  - cbn [substring].
    destruct (get_in_range c i) as [b Hget]; [lia|].
    destruct (substring_head (c +:+ ":room:" +:+ s) i 5 b) as [t Ht].
    { rewrite get_app_l by lia. exact Hget. }
    rewrite Ht. intros [= Hb _]. by apply (get_not_colon c i b).
Qed.

Lemma indexOf_loop_finds_the_first (s substr : string) (m : nat) :
  substring m (String.length substr) s = substr ->
  forall fuel i,
    (forall j, i <= j < m -> substring j (String.length substr) s <> substr) ->
    i <= m < i + fuel ->
    indexOf_loop s substr i fuel = Z.of_nat m.
Proof.
  intros Hm. induction fuel as [|fuel IH]; intros i Hbefore Hi; [lia|].
  cbn [indexOf_loop]. case_bool_decide as Hat.
  - destruct (decide (i = m)) as [->|Hne]; [reflexivity|].
    exfalso. apply (Hbefore i); [lia|exact Hat].
  - apply IH.
    + intros j Hj. apply Hbefore. lia.
    + destruct (decide (i = m)) as [->|Hne]; [contradiction|lia].
Qed.

Lemma ExtractRoomID_after_the_room_prefix (c r rest : string) :
  colon_free c = true -> c <> "room" -> colon_free r = true ->
  Keys_ExtractRoomID ("club:" +:+ c +:+ ":room:" +:+ r +:+ ":" +:+ rest) = r.
Proof.
  intros Hc Hne Hr. unfold Keys_ExtractRoomID, indexOf.
  assert (Hkey : "club:" +:+ c +:+ ":room:" +:+ r +:+ ":" +:+ rest
                 = ("club:" +:+ c) +:+ ":room:" +:+ r +:+ ":" +:+ rest)
    by (by rewrite string_app_assoc).
  rewrite (indexOf_loop_finds_the_first _ ":room:" (5 + String.length c)).
  - change (Z.of_nat (5 + String.length c) =? -1)%Z
      with (Z.of_nat (S (S (S (S (S (String.length c)))))) =? -1)%Z.
    rewrite (proj2 (Z.eqb_neq _ _)) by lia.
    rewrite <- Nat2Z.inj_add, Nat2Z.id.
    replace (5 + String.length c + String.length ":room:")
      with (String.length (("club:" +:+ c) +:+ ":room:"))
      by (rewrite !string_length_app; cbn [String.length]; lia).
    replace ("club:" +:+ c +:+ ":room:" +:+ r +:+ ":" +:+ rest)
      with ((("club:" +:+ c) +:+ ":room:") +:+ r +:+ ":" +:+ rest)
      by (by rewrite !string_app_assoc).
    generalize (("club:" +:+ c) +:+ ":room:"). intros q.
    rewrite drop_bytes_app, until_colon_app by exact Hr.
    rewrite (string_length_app q), (string_length_app r). cbn [String.length].
    match goal with
    | |- context [(?a <=? ?b)%nat] => destruct (Nat.leb_spec a b) as [Hle|_]
    end; [rewrite string_length_app in Hle; cbn [String.length] in Hle; lia|].
    destruct (Nat.eqb_spec (String.length q + String.length r) (String.length q))
      as [Heq|_]; [|reflexivity].
    destruct r; [reflexivity|cbn [String.length] in Heq; lia].
  - rewrite Hkey.
    change (5 + String.length c) with (String.length ("club:" +:+ c)).
    apply (substring_after_a_prefix ("club:" +:+ c) ":room:").
  - intros j Hj. apply no_room_prefix_inside_the_club_id; [exact Hc|exact Hne|lia].
  - rewrite !string_length_app. cbn [String.length]. lia.
Qed.

(** ExtractRoomID gives back the room id of the keys of a room, for a club
    id and a room id that hold no colon -- unless the club id is the word
    [room]: the first [:room:] of such a key is the one that ends the
    prefix [club], and the function returns the club id. *)
Theorem ExtractRoomID_inverts_the_key_builders (clubID roomID : string) :
  colon_free clubID = true -> colon_free roomID = true ->
  (clubID <> "room" ->
     Keys_ExtractRoomID (Keys_RoomInfo clubID roomID) = roomID
     /\ Keys_ExtractRoomID (Keys_GameState clubID roomID) = roomID
     /\ Keys_ExtractRoomID (Keys_RoomPlayers clubID roomID) = roomID
     /\ (forall userID,
           Keys_ExtractRoomID (Keys_PlayerInfo clubID roomID userID) = roomID))
  /\ Keys_ExtractRoomID (Keys_RoomInfo "room" roomID) = "room".
Proof.
  intros Hc Hr. split.
  - intros Hne.
    pose proof (ExtractRoomID_after_the_room_prefix clubID roomID) as Hkey.
    split; [|split; [|split]]; [| | |intros userID].
    + apply (Hkey "info"); assumption.
    + apply (Hkey "game"); assumption.
    + apply (Hkey "players"); assumption.
    + apply (Hkey ("player:" +:+ userID)); assumption.
  - reflexivity.
Qed.

(** ** The history of a room *)

Lemma TrimHistory_eq (c r : string) (keepLast : Z) (w : World) :
  let key := Keys_RoomActions c r in
  exists w' : World,
    ActionLogger_TrimHistory c r keepLast w
    = (if up w then None else Some StoreUnavailable, w')
    /\ faults w' = faults (pass w)
    /\ (if up w then
          list_at w' key
          = drop (length (list_at w key) - Z.to_nat keepLast) (list_at w key)
          /\ (forall k, k <> key ->
                list_at w' k = list_at w k /\ hash_at w' k = hash_at w k
                /\ set_at w' k = set_at w k)
        else same_data w w').
Proof.
  cbn zeta. unfold ActionLogger_TrimHistory.
  destruct (Z.leb_spec keepLast 0) as [Hk|Hk].
  - unfold ActionLogger_ClearHistory, RedisClient_Del, client_Del, wrap, RedisError,
      command, logf, bind, ret.
    destruct (up w) eqn:Hup; cbn beta iota zeta delta [fst snd fold_left].
    + eexists. split; [reflexivity|]. split; [by wsimp|]. wsimp. split.
      * replace (Z.to_nat keepLast) with 0 by lia. rewrite Nat.sub_0_r.
        by rewrite drop_all.
      * intros k Hne. unfold list_at, hash_at, set_at, del_key. cbn.
        rewrite !lookup_delete_ne by done. by wsimp.
    + eexists. split; [reflexivity|]. split; [by wsimp|]. unfold same_data. by wsimp.
  - unfold client_LTrim, command, logf, bind, ret.
    destruct (up w) eqn:Hup; cbn beta iota zeta delta [fst snd].
    + eexists. split; [reflexivity|]. split; [by wsimp|]. wsimp. split.
      * unfold list_at at 1. wsimp. rewrite lookup_insert_eq. cbn [default from_option id].
        set (l := list_at w (Keys_RoomActions c r)).
        rewrite (proj2 (Z.ltb_lt (- keepLast) 0)) by lia.
        change (-1 <? 0)%Z with true. cbv iota.
        destruct (decide (length l = 0)) as [Hnil|Hnil].
        { destruct l; [|discriminate Hnil]. cbn [length]. rewrite drop_nil.
          destruct (_ || _); [reflexivity|]. by rewrite drop_nil, take_nil. }
        destruct (Z.ltb_spec (Z.of_nat (length l) + - keepLast) 0) as [Hlong|Hshort].
        { change (0 <? 0)%Z with false.
          rewrite (proj2 (Z.ltb_ge _ _)) by lia.
          rewrite (proj2 (Z.leb_gt _ _)) by lia. cbn [orb].
          rewrite (proj2 (Z.leb_gt _ _)) by lia.
          replace (length l - Z.to_nat keepLast) with 0 by lia.
          change (Z.to_nat 0) with 0. rewrite !drop_0.
          apply take_ge. lia. }
        rewrite (proj2 (Z.ltb_ge _ _)) by lia.
        rewrite (proj2 (Z.leb_gt _ _)) by lia. cbn [orb].
        rewrite (proj2 (Z.leb_gt _ _)) by lia.
        replace (Z.to_nat (Z.of_nat (length l) + - keepLast))
          with (length l - Z.to_nat keepLast) by lia.
        apply take_ge. rewrite length_drop. lia.
      * intros k Hne. unfold list_at, hash_at, set_at. wsimp.
        by rewrite lookup_insert_ne by done.
    + eexists. split; [reflexivity|]. split; [by wsimp|]. unfold same_data. by wsimp.
Qed.

(** TrimHistory with the store reachable keeps the last [keepLast] actions
    of the room, all of them when there are fewer, and none for a
    [keepLast] of zero or less; the lists, hashes and sets under every
    other key stay as they are.  With the store unreachable it returns the
    error and stores nothing. *)
Theorem TrimHistory_keeps_the_last_actions (c r : string) (keepLast : Z) (w : World) :
  let key := Keys_RoomActions c r in
  let w' := snd (ActionLogger_TrimHistory c r keepLast w) in
  (up w = true ->
     fst (ActionLogger_TrimHistory c r keepLast w) = None
     /\ list_at w' key
        = drop (length (list_at w key) - Z.to_nat keepLast) (list_at w key)
     /\ (forall k, k <> key ->
           list_at w' k = list_at w k /\ hash_at w' k = hash_at w k
           /\ set_at w' k = set_at w k))
  /\ (up w = false ->
        fst (ActionLogger_TrimHistory c r keepLast w) = Some StoreUnavailable
        /\ same_data w w').
Proof.
  cbn zeta. destruct (TrimHistory_eq c r keepLast w) as (w' & -> & _ & Heffect).
  cbn zeta in Heffect. cbn [fst snd].
  split; intros Hup; rewrite Hup in *; [by destruct Heffect|by split].
Qed.

(** GetActionsCount with the store reachable follows the history of the
    room: it is the length of the list of actions, one more after an
    action was logged, zero after ClearHistory, and after TrimHistory the
    smaller of the count before and the number of actions to keep. *)
Theorem GetActionsCount_follows_the_history (c r action : string)
    (data : list (string * jvalue)) (keepLast : Z) (w : World) :
  faults w = [] ->
  let count := Z.of_nat (length (list_at w (Keys_RoomActions c r))) in
  fst (ActionLogger_GetActionsCount c r w) = Ok count
  /\ fst (ActionLogger_GetActionsCount c r
            (snd (ActionLogger_LogAction c r action data w))) = Ok (count + 1)%Z
  /\ fst (ActionLogger_GetActionsCount c r (snd (ActionLogger_ClearHistory c r w)))
     = Ok 0%Z
  /\ fst (ActionLogger_GetActionsCount c r
            (snd (ActionLogger_TrimHistory c r keepLast w)))
     = Ok (Z.min count (Z.max keepLast 0)).
Proof.
  intros Hf. cbn zeta.
  assert (Hcount : forall w0, faults w0 = [] ->
            fst (ActionLogger_GetActionsCount c r w0)
            = Ok (Z.of_nat (length (list_at w0 (Keys_RoomActions c r))))).
  { intros w0 Hf0. unfold ActionLogger_GetActionsCount, RedisClient_LLen, client_LLen,
      wrap, command, bind, ret.
    rewrite (up_nil w0 Hf0), (pass_nil w0 Hf0). reflexivity. }
  split; [by apply Hcount|]. split; [|split].
  - rewrite LogAction_eq. cbn zeta. rewrite (up_nil w Hf), (pass_nil w Hf). cbn [snd].
    rewrite Hcount by (by wsimp). unfold list_at at 1. wsimp.
    rewrite lookup_insert_eq. cbn [default from_option id].
    rewrite length_app. cbn [length]. f_equal. lia.
  - pose proof (TrimHistory_eq c r 0 w) as (w' & Hrun & Hf' & Heffect).
    cbn zeta in Heffect. unfold ActionLogger_TrimHistory in Hrun.
    change (0 <=? 0)%Z with true in Hrun. cbv iota in Hrun. rewrite Hrun. cbn [snd].
    rewrite (up_nil w Hf) in Heffect. rewrite (pass_nil w Hf), Hf in Hf'.
    destruct Heffect as [Hlist _].
    rewrite Hcount by exact Hf'. rewrite Hlist.
    change (Z.to_nat 0) with 0. rewrite Nat.sub_0_r, drop_all. reflexivity.
  - pose proof (TrimHistory_eq c r keepLast w) as (w' & Hrun & Hf' & Heffect).
    cbn zeta in Heffect. rewrite Hrun. cbn [snd].
    rewrite (up_nil w Hf) in Heffect. rewrite (pass_nil w Hf), Hf in Hf'.
    destruct Heffect as [Hlist _].
    rewrite Hcount by exact Hf'. rewrite Hlist, length_drop. f_equal. lia.
Qed.

End Engine.

(** * Worked instances

    A runtime and a few small worlds on which the theorems above are
    applied: room 3 of club 1 in the states the end-to-end scenarios of
    the specification describe. *)

Definition double_quote : string := String (ascii_of_nat 34) EmptyString.

(** A linear congruential source for math/rand. *)
Definition lcg_Intn (s n : Z) : Z * Z :=
  ((s mod n)%Z, ((s * 1103515245 + 12345) mod 2147483648)%Z).

(** A JSON array of quoted card codes. *)
Definition marshal_strings (l : list string) : string :=
  "[" +:+ String.concat "," (map (fun c => double_quote +:+ c +:+ double_quote) l) +:+ "]".

#[local] Instance example_runtime : GoRuntime := {|
  RngState := Z;
  rand_Intn := lcg_Intn;
  time_Format := fun _ t => pretty t;
  time_FormatUTC := fun _ t => pretty t;
  time_Parse := fun _ _ => None;
  json_Marshal_strings := marshal_strings;
  json_Unmarshal_strings := fun _ => [];
  json_Marshal_action := fun a => Action a
|}.

Lemma example_Intn_in_range : Intn_in_range.
Proof. intros s n Hn. cbn. apply Z.mod_pos_bound. exact Hn. Qed.

(** The default configuration: a hand needs two players. *)
Definition example_config : EngineConfig := mkEngineConfig 2 10 2 9.

Definition example_world (info game : list (string * string))
    (player_records : list (string * list (string * string)))
    (seats : list string) (deck : list string) (faulty : list bool) : World :=
  mkWorld _
    (list_to_map
       ((Keys_RoomInfo "1" "3", list_to_map info)
        :: (Keys_GameState "1" "3", list_to_map game)
        :: map (fun p => (Keys_PlayerInfo "1" "3" (fst p), list_to_map (snd p)))
             player_records))
    (list_to_map [(Keys_RoomPlayers "1" "3", list_to_set seats)])
    (list_to_map [("club:1:rooms:active", ["3"])])
    (list_to_map [(Keys_RoomDeck "1" "3", deck)])
    faulty (fun _ => 1730000000%Z) 0 42%Z [] (fun _ => 0).

(** Scenario B: a hand on the flop; two of the three players have left
    their seats. *)
Definition room_flop : World :=
  example_world
    [("status", "gaming")]
    [("phase", "flop"); ("game_id", "g1"); ("pot", "150"); ("current_bet", "50");
     ("community_cards", "[Ah,Kd,7c]")]
    [("u1", [("status", "active"); ("bet", "50"); ("cards", "[As,Ks]")]);
     ("u2", [("status", "folded"); ("bet", "50"); ("cards", "[2c,7d]")]);
     ("u3", [("status", "active"); ("bet", "50"); ("cards", "[Qh,Qs]")])]
    ["u1"] [] [].

(** A waiting room with two seated players. *)
Definition room_waiting : World :=
  example_world [("status", "waiting")] [("phase", "waiting"); ("pot", "0")] []
    ["u1"; "u2"] [] [].

(** A finished hand with two seated players. *)
Definition room_finished : World :=
  example_world [("status", "gaming")] [("phase", "finished"); ("game_id", "g1")] []
    ["u1"; "u2"] [] [].

(** Scenario C: three seated players, and an old deck of one card. *)
Definition room_three : World :=
  example_world [("status", "gaming")] [("phase", "pre_flop")] []
    ["u1"; "u2"; "u3"] ["2h"] [].

(** A room whose deck holds three cards, drawn in the order 2h, 3h, 4h. *)
Definition room_short_deck : World :=
  example_world [("status", "gaming")] [("phase", "river")] []
    ["u1"; "u2"] (rev ["2h"; "3h"; "4h"]) [].

Lemma C1_monitor_decision_rule_witness :
  up room_flop = true /\ up (pass room_flop) = true
  /\ RoomMonitor_checkRoom example_config "1" "3" room_flop
     = invoke_stop "1" "3" (stored_phase room_flop "1" "3") (seated room_flop "1" "3")
         (pass (pass room_flop)).
Proof.
  split; [reflexivity|]. split; [reflexivity|].
  destruct (C1_monitor_decision_rule example_config "1" "3" room_flop eq_refl eq_refl)
    as [_ Hgame].
  destruct Hgame as (_ & Hstop & _).
  - apply stored_phase_nonempty. vm_compute. discriminate.
  - apply Hstop. split; [vm_compute; reflexivity | vm_compute; discriminate].
Defined.

(** The waiting room with the connection breaking on the next round
    trip, after the store applied two commands of the batch sent. *)
Definition room_waiting_broken : World :=
  mkWorld _ (hashes room_waiting) (sets room_waiting) (zsets room_waiting)
    (lists room_waiting) [true] (wall room_waiting) 0 (rng room_waiting) [] (fun _ => 2).

Lemma C2_a_broken_start_batch_stays_in_part_witness :
  (up room_waiting = true
   /\ fst (RoomMonitor_handleGameStart "1" "3" 2 room_waiting) = None
   /\ stored_phase (snd (RoomMonitor_handleGameStart "1" "3" 2 room_waiting)) "1" "3"
      = "pre_flop")
  /\ (up room_waiting_broken = false
      /\ stored_phase room_waiting_broken "1" "3" = "waiting"
      /\ 2 <= reached room_waiting_broken
      /\ fst (RoomMonitor_handleGameStart "1" "3" 2 room_waiting_broken)
         = Some StoreUnavailable
      /\ stored_phase (snd (RoomMonitor_handleGameStart "1" "3" 2 room_waiting_broken))
           "1" "3" = "pre_flop"
      /\ stored_game (snd (RoomMonitor_handleGameStart "1" "3" 2 room_waiting_broken))
           "1" "3" !! "game_id" = None
      /\ same_data (snd (RoomMonitor_handleGameStart "1" "3" 2 room_waiting_broken))
           (snd (RoomMonitor_checkRoom example_config "1" "3"
                   (snd (RoomMonitor_handleGameStart "1" "3" 2 room_waiting_broken))))).
Proof.
  split.
  - destruct (C2_a_broken_start_batch_stays_in_part "1" "3" 2 room_waiting) as [Hok _].
    destruct (Hok eq_refl) as (Hres & _ & Hfields & _).
    split; [reflexivity|]. split; [exact Hres|].
    unfold stored_phase, stored_game, field. rewrite Hfields. vm_compute. reflexivity.
  - destruct (C2_a_broken_start_batch_stays_in_part "1" "3" 2 room_waiting_broken)
      as [_ Hfail].
    destruct (Hfail eq_refl) as (Hres & _ & _ & _ & _ & _ & _ & Hpart).
    assert (Hcut : 2 <= reached room_waiting_broken) by (vm_compute; lia).
    destruct (Hpart Hcut) as (Hphase & _ & _ & Hlater).
    split; [reflexivity|]. split; [vm_compute; reflexivity|]. split; [exact Hcut|].
    split; [exact Hres|]. split; [exact Hphase|]. split; [vm_compute; reflexivity|].
    apply (Hlater example_config). vm_compute. discriminate.
Defined.

Lemma C3_stop_tick_resets_the_game_record_only_witness :
  stored_phase room_flop "1" "3" = "flop"
  /\ seated room_flop "1" "3" = 1%Z
  /\ stored_phase (snd (RoomMonitor_checkRoom example_config "1" "3" room_flop)) "1" "3"
     = "waiting"
  /\ hash_at (snd (RoomMonitor_checkRoom example_config "1" "3" room_flop))
       (Keys_PlayerInfo "1" "3" "u1") !! "bet" = Some "50"
  /\ hash_at (snd (RoomMonitor_checkRoom example_config "1" "3" room_flop))
       (Keys_PlayerInfo "1" "3" "u1") !! "status" = Some "active"
  /\ hash_at (snd (RoomMonitor_checkRoom example_config "1" "3" room_flop))
       (Keys_PlayerInfo "1" "3" "u1") !! "cards" = Some "[As,Ks]".
Proof.
  split; [vm_compute; reflexivity|]. split; [vm_compute; reflexivity|].
  destruct (C3_stop_tick_resets_the_game_record_only example_config "1" "3" room_flop)
    as (Hphase & _ & _ & _ & _ & _ & _ & _ & Hplayers).
  - reflexivity.
  - reflexivity.
  - reflexivity.
  - apply stored_phase_nonempty. vm_compute. discriminate.
  - vm_compute. discriminate.
  - vm_compute. reflexivity.
  - split; [unfold stored_phase, field; by rewrite Hphase|].
    rewrite Hplayers. vm_compute. by repeat split.
Defined.

Lemma C5_draws_stop_at_the_end_of_the_deck_witness :
  faults room_short_deck = []
  /\ list_at room_short_deck (Keys_RoomDeck "1" "3") = rev ["2h"; "3h"; "4h"]
  /\ exists w' : World,
       DeckManager_DrawCards "1" "3" 5 room_short_deck = (Ok ["2h"; "3h"; "4h"], w')
       /\ list_at w' (Keys_RoomDeck "1" "3") = [].
Proof.
  assert (Hdeck : list_at room_short_deck (Keys_RoomDeck "1" "3") = rev ["2h"; "3h"; "4h"])
    by (vm_compute; reflexivity).
  split; [reflexivity|]. split; [exact Hdeck|].
  destruct (C5_draws_stop_at_the_end_of_the_deck "1" "3" room_short_deck) as (_ & _ & Hdraw).
  destruct (Hdraw 5%Z ["2h"; "3h"; "4h"]) as (w' & Hrun & _ & _ & Hall).
  - lia.
  - reflexivity.
  - exact Hdeck.
  - repeat constructor; discriminate.
  - exists w'. split; [exact Hrun|]. apply Hall. cbn. lia.
Defined.

Lemma C6_ShuffleDeck_is_a_permutation_witness :
  Intn_in_range
  /\ exists a : arrays,
       fst (ShuffleDeck_arrays ["As"; "Kd"; "7c"; "2h"] room_waiting) = Ok a
       /\ a_shuffled a ≡ₚ ["As"; "Kd"; "7c"; "2h"]
       /\ a_deck a = ["As"; "Kd"; "7c"; "2h"].
Proof.
  split; [exact example_Intn_in_range|].
  destruct (C6_ShuffleDeck_is_a_permutation example_Intn_in_range
              ["As"; "Kd"; "7c"; "2h"] room_waiting)
    as (a & Hrun & _ & Hperm & _ & Hdeck & _).
  exists a. split; [exact Hrun|]. split; [exact Hperm|exact Hdeck].
Defined.

Lemma C8_DealCardsToPlayers_contract_witness :
  faults room_three = []
  /\ length (elements (set_at room_three (Keys_RoomPlayers "1" "3"))) = 3
  /\ list_at room_three (Keys_RoomDeck "1" "3") = ["2h"]
  /\ fst (CardDealer_DealCardsToPlayers "1" "3" room_three) = None
  /\ length (list_at (snd (CardDealer_DealCardsToPlayers "1" "3" room_three))
               (Keys_RoomDeck "1" "3")) = 46.
Proof.
  assert (Hthree : length (elements (set_at room_three (Keys_RoomPlayers "1" "3"))) = 3)
    by (vm_compute; reflexivity).
  split; [reflexivity|]. split; [exact Hthree|]. split; [vm_compute; reflexivity|].
  destruct (C8_DealCardsToPlayers_contract "1" "3" room_three) as [_ Hdeal].
  destruct Hdeal as (ds & _ & Hok & _ & Hscenario).
  - exact example_Intn_in_range.
  - reflexivity.
  - intros Hempty. rewrite Hempty, elements_empty in Hthree. discriminate Hthree.
  - split.
    + apply Hok. rewrite Hthree. lia.
    + destruct (Hscenario Hthree) as (? & ? & ? & ? & ? & ? & ? & ? & ? & Hrest).
      apply Hrest.
Defined.

Lemma C9_stop_of_a_waiting_room_is_a_no_op_witness :
  stored_phase room_waiting "1" "3" = GamePhaseWaiting
  /\ fst (GameStopHandler_Handle "1" "3" "waiting" "manual" room_waiting) = None
  /\ same_data room_waiting
       (snd (GameStopHandler_Handle "1" "3" "waiting" "manual" room_waiting)).
Proof.
  assert (Hphase : stored_phase room_waiting "1" "3" = GamePhaseWaiting)
    by (vm_compute; reflexivity).
  split; [exact Hphase|].
  destruct (C9_stop_of_a_waiting_room_is_a_no_op "1" "3" "waiting" "manual" room_waiting
              Hphase) as (Hdata & _ & Hok).
  split; [|exact Hdata].
  apply Hok; [vm_compute; reflexivity | reflexivity | reflexivity].
Defined.

Lemma C10_finished_room_is_left_alone_witness :
  stored_phase room_finished "1" "3" = "finished"
  /\ (MinPlayersToStart example_config <= seated room_finished "1" "3")%Z
  /\ same_data room_finished
       (snd (RoomMonitor_checkRoom example_config "1" "3" room_finished)).
Proof.
  assert (Hphase : stored_phase room_finished "1" "3" = "finished")
    by (vm_compute; reflexivity).
  assert (Hseated : (MinPlayersToStart example_config <= seated room_finished "1" "3")%Z)
    by (vm_compute; discriminate).
  split; [exact Hphase|]. split; [exact Hseated|].
  exact (proj1 (C10_finished_room_is_left_alone example_config "1" "3" room_finished
                  Hphase Hseated)).
Defined.

(** The hand of [room_flop] with two seated players; the fifth round
    trip, the reset of the first of them, fails. *)
Definition room_flop_offline : World :=
  example_world
    [("status", "gaming")]
    [("phase", "flop"); ("game_id", "g1"); ("pot", "150")]
    [("u1", [("status", "active"); ("bet", "50")]);
     ("u3", [("status", "active"); ("bet", "70")])]
    ["u1"; "u3"] [] [false; false; false; false; true].

Lemma GameStopHandler_resets_players_best_effort_witness :
  elements (set_at room_flop_offline (Keys_RoomPlayers "1" "3")) = ["u3"; "u1"]
  /\ fst (GameStopHandler_Handle "1" "3" "flop" "manual" room_flop_offline) = None
  /\ hash_at (snd (GameStopHandler_Handle "1" "3" "flop" "manual" room_flop_offline))
       (Keys_PlayerInfo "1" "3" "u3") !! "bet" = Some "70"
  /\ hash_at (snd (GameStopHandler_Handle "1" "3" "flop" "manual" room_flop_offline))
       (Keys_PlayerInfo "1" "3" "u1") !! "bet" = Some "0".
Proof.
  split; [vm_compute; reflexivity|].
  destruct (GameStopHandler_resets_players_best_effort "1" "3" "flop" "manual"
              room_flop_offline) as (Hres & _ & Hplayers).
  - vm_compute. reflexivity.
  - apply stored_phase_nonempty. vm_compute. discriminate.
  - vm_compute. discriminate.
  - vm_compute. discriminate.
  - reflexivity.
  - reflexivity.
  - reflexivity.
  - reflexivity.
  - split; [exact Hres|].
    rewrite (Hplayers 0 "u3") by (vm_compute; reflexivity).
    rewrite (Hplayers 1 "u1") by (vm_compute; reflexivity).
    vm_compute. by split.
Defined.

(** A hand on the flop with the button on the last of nine seats. *)
Definition game_on_the_flop : Game :=
  mkGame "g1" "3" "1" "flop" 150 50 8 None None None 1 ["AH"; "KD"; "7C"] None [].

Lemma MoveDealerPosition_stays_on_the_table_witness :
  exists g' : Game,
    Game_MoveDealerPosition game_on_the_flop 9 = Ok g' /\ DealerPosition g' = 0%Z.
Proof.
  destruct (MoveDealerPosition_stays_on_the_table game_on_the_flop 9)
    as (g' & Hrun & _ & Hpos & _).
  - lia.
  - cbn. lia.
  - exists g'. split; [exact Hrun|]. rewrite Hpos. reflexivity.
Defined.

(** The room of [room_three]: the delete of a save goes through, the push
    after it fails. *)
Definition room_three_offline : World :=
  example_world [("status", "gaming")] [("phase", "pre_flop")] []
    ["u1"; "u2"; "u3"] ["2h"] [false; true].

Lemma a_saved_deck_is_drawn_from_its_end_witness :
  list_at room_three (Keys_RoomDeck "1" "3") = ["2h"]
  /\ exists w2 : World,
       DeckManager_DrawCards "1" "3" 2
         (snd (DeckManager_SaveDeckToRedis "1" "3" ["AH"; "KD"; "7C"] room_three))
       = (Ok ["7C"; "KD"], w2)
       /\ list_at w2 (Keys_RoomDeck "1" "3") = ["AH"].
Proof.
  split; [vm_compute; reflexivity|].
  destruct (a_saved_deck_is_drawn_from_its_end "1" "3" ["AH"; "KD"; "7C"] 2 room_three)
    as (_ & _ & w2 & Hdraw & Hrest & _).
  - reflexivity.
  - discriminate.
  - repeat constructor; discriminate.
  - lia.
  - exists w2. split; [exact Hdraw|exact Hrest].
Defined.

Lemma a_failed_save_loses_the_old_deck_witness :
  up room_three_offline = true /\ up (pass room_three_offline) = false
  /\ list_at room_three_offline (Keys_RoomDeck "1" "3") = ["2h"]
  /\ list_at (snd (DeckManager_SaveDeckToRedis "1" "3" ["AH"; "KD"] room_three_offline))
       (Keys_RoomDeck "1" "3") = [].
Proof.
  split; [reflexivity|]. split; [reflexivity|]. split; [vm_compute; reflexivity|].
  apply (a_failed_save_loses_the_old_deck "1" "3" ["AH"; "KD"] room_three_offline).
  - reflexivity.
  - left. reflexivity.
Defined.


(** A decoder that refuses the text [oops] and accepts every other. *)
Definition decode_error (text : string) : option error :=
  if bool_decide (text = "oops") then Some (Errorf "invalid character 'o'") else None.

#[local] Instance example_decoder : GoJSON := {| json_Unmarshal_error := decode_error |}.

Lemma DealCommunityCards_appends_the_drawn_cards_witness :
  field (stored_game room_short_deck "1" "3") "community_cards" = EmptyString
  /\ fst (CardDealer_DealCommunityCards "1" "3" 2 room_short_deck)
     = Ok ["2h"; "3h"]
  /\ stored_game (snd (CardDealer_DealCommunityCards "1" "3" 2 room_short_deck))
       "1" "3" !! "community_cards" = Some (marshal_strings ["2h"; "3h"])
  /\ list_at (snd (CardDealer_DealCommunityCards "1" "3" 2 room_short_deck))
       (Keys_RoomDeck "1" "3") = ["4h"].
Proof.
  split; [vm_compute; reflexivity|].
  destruct (DealCommunityCards_appends_the_drawn_cards "1" "3" 2
              ["2h"; "3h"; "4h"] [] room_short_deck)
    as (Hres & _ & Hgame & Hdeck & _).
  - reflexivity.
  - vm_compute. reflexivity.
  - repeat constructor; discriminate.
  - cbn. lia.
  - vm_compute. reflexivity.
  - split; [exact Hres|]. split; [|exact Hdeck].
    rewrite Hgame. apply lookup_insert_eq.
Defined.

Lemma a_failed_deal_keeps_the_cards_it_drew_witness :
  list_at room_short_deck (Keys_RoomDeck "1" "3") = rev ["2h"; "3h"; "4h"]
  /\ (exists err, fst (CardDealer_DealCommunityCards "1" "3" 5 room_short_deck)
                  = Err err)
  /\ list_at (snd (CardDealer_DealCommunityCards "1" "3" 5 room_short_deck))
       (Keys_RoomDeck "1" "3") = [].
Proof.
  assert (Hdeck : list_at room_short_deck (Keys_RoomDeck "1" "3") = rev ["2h"; "3h"; "4h"])
    by (vm_compute; reflexivity).
  split; [exact Hdeck|].
  destruct (a_failed_deal_keeps_the_cards_it_drew "1" "3" 5
              ["2h"; "3h"; "4h"] room_short_deck)
    as (Hres & _ & Hempty & _).
  - reflexivity.
  - exact Hdeck.
  - repeat constructor; discriminate.
  - lia.
  - left. cbn. lia.
  - split; [exact Hres|]. apply Hempty. cbn. lia.
Defined.

Lemma ClearAllCards_clears_the_room_witness :
  faults room_flop = []
  /\ hash_at room_flop (Keys_PlayerInfo "1" "3" "u1") !! "cards" = Some "[As,Ks]"
  /\ fst (CardDealer_ClearAllCards "1" "3" room_flop) = None
  /\ hash_at (snd (CardDealer_ClearAllCards "1" "3" room_flop))
       (Keys_PlayerInfo "1" "3" "u1") !! "cards" = Some "[]".
Proof.
  split; [reflexivity|]. split; [vm_compute; reflexivity|].
  destruct (ClearAllCards_clears_the_room "1" "3" room_flop eq_refl)
    as (Hres & Hplayers & _).
  split; [exact Hres|].
  rewrite (Hplayers "u1") by (apply (bool_decide_unpack _); vm_compute; exact I).
  apply lookup_insert_eq.
Defined.

(** A decoder for the arrays [marshal_strings] writes: the texts between
    double quotes. *)
Fixpoint scan_strings (text : string) (inside : bool) (cur : string) (acc : list string)
    : list string :=
  match text with
  | EmptyString => acc
  | String ch rest =>
      if Ascii.eqb ch (ascii_of_nat 34) then
        if inside then scan_strings rest false EmptyString (acc ++ [cur])
        else scan_strings rest true EmptyString acc
      else if inside then scan_strings rest true (cur +:+ String ch EmptyString) acc
      else scan_strings rest false cur acc
  end.

Definition unmarshal_strings (text : string) : list string :=
  scan_strings text false EmptyString [].

(** The runtime of the examples with that decoder. *)
Definition json_runtime : GoRuntime := {|
  RngState := Z;
  rand_Intn := lcg_Intn;
  time_Format := fun _ t => pretty t;
  time_FormatUTC := fun _ t => pretty t;
  time_Parse := fun _ _ => None;
  json_Marshal_strings := marshal_strings;
  json_Unmarshal_strings := unmarshal_strings;
  json_Marshal_action := fun a => Action a
|}.

(** A room with one seated player who holds no cards yet. *)
Definition room_before_the_deal : @World json_runtime :=
  @mkWorld json_runtime
    (list_to_map [(Keys_PlayerInfo "1" "3" "u1", list_to_map [("status", "active")])])
    (list_to_map [(Keys_RoomPlayers "1" "3", list_to_set ["u1"])])
    ∅ ∅ [] (fun _ => 1730000000%Z) 0 42%Z [] (fun _ => 0).

Lemma GetPlayerCards_reads_back_the_saved_cards_witness :
  @json_Unmarshal_strings json_runtime (@json_Marshal_strings json_runtime ["AH"; "KD"])
  = ["AH"; "KD"]
  /\ fst (@CardDealer_GetPlayerCards json_runtime example_decoder "1" "3" "u1"
            (snd (@CardDealer_savePlayerCards json_runtime "1" "3" "u1" ["AH"; "KD"]
                    room_before_the_deal)))
     = Ok ["AH"; "KD"].
Proof.
  split; [vm_compute; reflexivity|].
  apply (@GetPlayerCards_reads_back_the_saved_cards json_runtime example_decoder
           "1" "3" "u1" ["AH"; "KD"] room_before_the_deal).
  - reflexivity.
  - reflexivity.
  - vm_compute. reflexivity.
  - vm_compute. reflexivity.
  - vm_compute. intros [Heq|Heq]; discriminate Heq.
Defined.

(** A waiting room that still holds the deck of the last hand. *)
Definition room_waiting_with_deck : World :=
  example_world [("status", "waiting")] [("phase", "waiting"); ("pot", "0")] []
    ["u1"; "u2"] ["2h"; "3h"] [].

Lemma HandleWithCleanup_cleans_every_room_that_exists_witness :
  faults room_waiting_with_deck = []
  /\ hand_in_progress room_waiting_with_deck "1" "3" = false
  /\ list_at room_waiting_with_deck (Keys_RoomDeck "1" "3") = ["2h"; "3h"]
  /\ fst (GameStopHandler_HandleWithCleanup "1" "3" "waiting" "manual"
            room_waiting_with_deck) = None
  /\ list_at (snd (GameStopHandler_HandleWithCleanup "1" "3" "waiting" "manual"
                     room_waiting_with_deck)) (Keys_RoomDeck "1" "3") = [].
Proof.
  split; [reflexivity|]. split; [vm_compute; reflexivity|].
  split; [vm_compute; reflexivity|].
  destruct (HandleWithCleanup_cleans_every_room_that_exists "1" "3" "waiting" "manual"
              room_waiting_with_deck eq_refl) as [Hclean _].
  destruct Hclean as (Hres & Hdeck & _).
  - vm_compute. reflexivity.
  - split; [exact Hres|exact Hdeck].
Defined.

Lemma StopIfNeeded_stops_a_hand_in_progress_only_witness :
  faults room_flop = [] /\ faults room_finished = []
  /\ fst (GameStopHandler_StopIfNeeded "1" "3" 2 room_flop) = (true, None)
  /\ stored_phase (snd (GameStopHandler_StopIfNeeded "1" "3" 2 room_flop)) "1" "3"
     = GamePhaseWaiting
  /\ fst (GameStopHandler_StopIfNeeded "1" "3" 3 room_finished) = (false, None)
  /\ same_data room_finished (snd (GameStopHandler_StopIfNeeded "1" "3" 3 room_finished)).
Proof.
  split; [reflexivity|]. split; [reflexivity|].
  destruct (StopIfNeeded_stops_a_hand_in_progress_only "1" "3" 2 room_flop eq_refl)
    as (Hres & _ & Hphase & _).
  destruct (StopIfNeeded_stops_a_hand_in_progress_only "1" "3" 3 room_finished eq_refl)
    as (Hres' & Hdata & _ & Hfinished).
  assert (Hidle : hand_in_progress room_finished "1" "3"
                  && (seated room_finished "1" "3" <? 3)%Z = false)
    by (apply Hfinished; vm_compute; reflexivity).
  split; [rewrite Hres; vm_compute; reflexivity|].
  split; [apply Hphase; vm_compute; reflexivity|].
  split; [rewrite Hres', Hidle; reflexivity|].
  apply Hdata. exact Hidle.
Defined.

Lemma handleGameStop_appends_a_stop_event_witness :
  stored_phase room_waiting "1" "3" = GamePhaseWaiting
  /\ list_at room_waiting (Keys_RoomActions "1" "3") = []
  /\ list_at (snd (RoomMonitor_handleGameStop "1" "3" "waiting" "manual" room_waiting))
       (Keys_RoomActions "1" "3") = ["game_stopped"].
Proof.
  split; [vm_compute; reflexivity|]. split; [vm_compute; reflexivity|].
  destruct (handleGameStop_appends_a_stop_event "1" "3" "waiting" "manual" room_waiting
              eq_refl eq_refl) as (_ & _ & Hlist).
  rewrite Hlist. vm_compute. reflexivity.
Defined.

Lemma checkRoom_starts_a_waiting_room_witness :
  stored_phase room_waiting "1" "3" = GamePhaseWaiting
  /\ seated room_waiting "1" "3" = 2%Z
  /\ stored_phase (snd (RoomMonitor_checkRoom example_config "1" "3" room_waiting)) "1" "3"
     = "pre_flop"
  /\ list_at (snd (RoomMonitor_checkRoom example_config "1" "3" room_waiting))
       (Keys_RoomActions "1" "3") = ["game_started"].
Proof.
  split; [vm_compute; reflexivity|]. split; [vm_compute; reflexivity|].
  destruct (checkRoom_starts_a_waiting_room example_config "1" "3" room_waiting)
    as (Hphase & _ & _ & _ & _ & Hlist & _).
  - reflexivity.
  - reflexivity.
  - reflexivity.
  - reflexivity.
  - vm_compute. reflexivity.
  - vm_compute. discriminate.
  - split; [unfold stored_phase, field; by rewrite Hphase|].
    rewrite Hlist. vm_compute. reflexivity.
Defined.

(** A configuration with the default engine settings of Load, the durations
    in nanoseconds. *)
Definition default_config : Config :=
  mkConfig
    (mkRedisConfig "localhost:6379" EmptyString 0 10 5 3
       5000000000 3000000000 3000000000)
    (mkEngineConfig 2000000000 10000000000 2 9).

(** A waiting room with one seated player. *)
Definition room_one_player : World :=
  example_world [("status", "waiting")] [("phase", "waiting"); ("pot", "0")] []
    ["u1"] [] [].

Lemma a_valid_config_starts_no_hand_for_one_player_witness :
  Config_Validate default_config = None
  /\ seated room_one_player "1" "3" = 1%Z
  /\ same_data room_one_player
       (snd (RoomMonitor_checkRoom (Engine default_config) "1" "3" room_one_player)).
Proof.
  split; [reflexivity|]. split; [vm_compute; reflexivity|].
  apply (a_valid_config_starts_no_hand_for_one_player default_config "1" "3"
           room_one_player).
  - reflexivity.
  - vm_compute. reflexivity.
  - vm_compute. reflexivity.
Defined.

Lemma GameStartHandler_starts_a_hand_once_witness :
  faults room_waiting = []
  /\ fst (GameStartHandler_Handle "1" "3" 2 room_waiting) = None
  /\ stored_phase (snd (GameStartHandler_Handle "1" "3" 2 room_waiting)) "1" "3"
     = "pre_flop"
  /\ same_data (snd (GameStartHandler_Handle "1" "3" 2 room_waiting))
       (snd (GameStartHandler_Handle "1" "3" 5
               (snd (GameStartHandler_Handle "1" "3" 2 room_waiting)))).
Proof.
  split; [reflexivity|].
  destruct (GameStartHandler_starts_a_hand_once "1" "3" 2 5 room_waiting eq_refl)
    as (_ & _ & _ & Hstart).
  destruct Hstart as (Hres & Hphase & _ & _ & _ & _ & Hagain).
  - vm_compute. reflexivity.
  - split; [exact Hres|]. split; [|exact Hagain].
    unfold stored_phase, field. by rewrite Hphase.
Defined.

Lemma CanStartGame_foretells_the_start_witness :
  faults room_waiting = []
  /\ fst (GameStartHandler_CanStartGame "1" "3" 1 room_waiting) = (true, None)
  /\ snd (GameStartHandler_CanStartGame "1" "3" 1 room_waiting) = room_waiting.
Proof.
  split; [reflexivity|].
  destruct (CanStartGame_foretells_the_start "1" "3" 1 2 room_waiting eq_refl)
    as [-> _].
  split; [vm_compute; reflexivity|reflexivity].
Defined.

Lemma ExtractClubID_inverts_the_key_builders_witness :
  colon_free "1" = true
  /\ Keys_ExtractClubID (Keys_ClubRoomsActive "1") = "1"
  /\ Keys_ExtractClubID (Keys_PlayerInfo "1" "3" "42") = "1".
Proof.
  split; [reflexivity|].
  destruct (ExtractClubID_inverts_the_key_builders "1" "rooms" eq_refl) as [Hkey _].
  destruct Hkey as (_ & Hactive & _ & Hplayer); [discriminate|].
  split; [exact Hactive|apply Hplayer].
Defined.

Lemma ExtractUserID_inverts_PlayerInfo_witness :
  colon_free "42" = true
  /\ Keys_ExtractUserID (Keys_PlayerInfo "1" "3" "42") = "42".
Proof.
  split; [reflexivity|].
  apply (ExtractUserID_inverts_PlayerInfo "1" "3" "42"). reflexivity.
Defined.

Lemma ExtractRoomID_inverts_the_key_builders_witness :
  colon_free "1" = true /\ colon_free "3" = true
  /\ Keys_ExtractRoomID (Keys_PlayerInfo "1" "3" "42") = "3".
Proof.
  split; [reflexivity|]. split; [reflexivity|].
  destruct (ExtractRoomID_inverts_the_key_builders "1" "3" eq_refl eq_refl) as [Hkey _].
  destruct Hkey as (_ & _ & _ & Hplayer); [discriminate|]. apply Hplayer.
Defined.

Lemma GetActionsCount_follows_the_history_witness :
  faults room_waiting = []
  /\ fst (ActionLogger_GetActionsCount "1" "3"
            (snd (ActionLogger_LogAction "1" "3" "player_joined" [] room_waiting)))
     = Ok (Z.of_nat (length (list_at room_waiting (Keys_RoomActions "1" "3"))) + 1)%Z.
Proof.
  split; [reflexivity|].
  apply (GetActionsCount_follows_the_history "1" "3" "player_joined" [] 5 room_waiting).
  reflexivity.
Defined.
